(** * thorchain-tss-lib: the MtA share conversion, Bob's proofs and the
      protocol parameters, embedded shallowly and verified.

    Sources embedded here:
    - [tss/params.go]                 (module [tss])
    - Bob's proofs of package mta     (module [mta]: ProofBob, ProofBobWC)
    - [crypto/mta/share_protocol.go]  (module [mta]: AliceInit, BobMid, AliceEnd)

    Go values are modelled as follows.  A [*big.Int] is an [option Z]
    ([None] is the nil pointer); a call that may panic returns an
    [outcome]; code that draws randomness threads the random source through
    the [Rand] monad; a Go [(T, error)] result of which exactly one component
    is set is a [result], and named results that a bare [return] hands back
    are a record of pointers.  Collaborators whose code is not part of the
    embedded files (the curve, the hash, the random source, Paillier, Alice's
    range proof) are interfaces, given as type classes; their contracts are
    separate classes of laws, assumed only by the theorems that need them.

    Layout: Go conventions, the embedded code, a small executable instance of
    every interface, the statements under examination, then the proofs; the
    later modules prove further properties of the same code: completeness of
    Bob's proofs, what [ValidateBasic] guarantees, the wire format, the
    agreement of [BobMid] and [BobMidWC], honest runs of the conversion, and
    the committees and constructors of [tss/params.go]. *)

From Stdlib Require Import ZArith List Bool Lia String Zdivisibility.
From Stdlib.Strings Require Byte.
Import ListNotations.

Local Open Scope Z_scope.

(* ================================================================== *)
(** * Go runtime conventions *)
(* ================================================================== *)

Module Go.

(** A Go call either returns a value or panics. *)
Inductive outcome (A : Type) : Type :=
| Returned (a : A)
| Panicked.
Arguments Returned {A} a.
Arguments Panicked {A}.

Definition obind {A B} (m : outcome A) (f : A -> outcome B) : outcome B :=
  match m with
  | Returned a => f a
  | Panicked => Panicked
  end.

(** Dereferencing a pointer: nil panics. *)
Definition deref {A} (p : option A) : outcome A :=
  match p with
  | Some a => Returned a
  | None => Panicked
  end.

Definition isNil {A} (p : option A) : bool :=
  match p with
  | Some _ => false
  | None => true
  end.

(** Go's [error] values are opaque messages. *)
Definition error := string.

(** Go's [int] on a 64-bit platform: two's complement wrap-around. *)
Definition int_min : Z := - 2 ^ 63.
Definition int_max : Z := 2 ^ 63 - 1.
Definition in_int (z : Z) : Prop := int_min <= z <= int_max.
Definition wrap_int (z : Z) : Z := (z + 2 ^ 63) mod 2 ^ 64 - 2 ^ 63.
Definition int_add (a b : Z) : Z := wrap_int (a + b).

(** [big.Int.Mod(x, m)]: Euclidean modulus, panics on a zero modulus. *)
Definition big_Mod (x m : Z) : outcome Z :=
  if m =? 0 then Panicked else Returned (x mod Z.abs m).

End Go.

Import Go.

Declare Scope outcome_scope.
Delimit Scope outcome_scope with outcome.
Notation "x <- m ;; k" := (obind m (fun x => k))
  (at level 61, m at next level, right associativity) : outcome_scope.
Notation "' pat <- m ;; k" := (obind m (fun x => match x with pat => k end))
  (at level 61, pat pattern, m at next level, right associativity) : outcome_scope.

(* ================================================================== *)
(** * tss/params.go *)
(* ================================================================== *)

Module tss.

(** [time.Duration] counts nanoseconds. *)
Definition Duration := Z.
Definition Nanosecond : Duration := 1.
Definition Second : Duration := 1000000000 * Nanosecond.
Definition Minute : Duration := 60 * Second.

(** Modelled from the spec: the declaration of [PartyID] is in a file that is
    not embedded; the spec gives a party "a human-readable moniker, a unique
    key (arbitrary-length integer), and [...] a 1-based index". *)
Record PartyID : Type := mkPartyID {
  Moniker : string;
  Key : Z;
  Index : Z
}.

(** Modelled from the spec: [PeerContext] and its method [IDs] are in a file
    that is not embedded; the spec calls a peer context "an ordered list of
    party identities".  [IDs] reads a field of its receiver, so a nil receiver
    panics. *)
Record PeerContext : Type := mkPeerContext {
  partyIDs : list PartyID
}.

Definition IDs (p2pCtx : option PeerContext) : outcome (list PartyID) :=
  (ctx <- deref p2pCtx ;; Returned (partyIDs ctx))%outcome.

Record Parameters : Type := mkParameters {
  partyID : option PartyID;
  parties : option PeerContext;
  partyCount : Z;
  threshold : Z;
  safePrimeGenTimeout : Duration;
  unsafeKGIgnoreH1H2Dupes : bool
}.

Record ReSharingParameters : Type := mkReSharingParameters {
  Parameters_ : option Parameters;   (* the embedded pointer to Parameters *)
  newParties : option PeerContext;
  newPartyCount : Z;
  newThreshold : Z
}.

Definition defaultSafePrimeGenTimeout : Duration := 5 * Minute.

(** The variadic argument is the list of the values passed for it. *)
Definition NewParameters (ctx : option PeerContext) (pid : option PartyID)
    (partyCount threshold : Z)
    (optionalSafePrimeGenTimeout : list Duration) : outcome (option Parameters) :=
  (timeout <-
     (if (0 <? Z.of_nat (List.length optionalSafePrimeGenTimeout)) then
        if (1 <? Z.of_nat (List.length optionalSafePrimeGenTimeout)) then
          Panicked
        else
          deref (nth_error optionalSafePrimeGenTimeout 0)
      else
        Returned defaultSafePrimeGenTimeout) ;;
   Returned (Some {| partyID := pid;
                     parties := ctx;
                     partyCount := partyCount;
                     threshold := threshold;
                     safePrimeGenTimeout := timeout;
                     unsafeKGIgnoreH1H2Dupes := false |}))%outcome.

Definition Parties (params : option Parameters) : outcome (option PeerContext) :=
  (p <- deref params ;; Returned (parties p))%outcome.

Definition PartyCount (params : option Parameters) : outcome Z :=
  (p <- deref params ;; Returned (partyCount p))%outcome.

Definition Threshold (params : option Parameters) : outcome Z :=
  (p <- deref params ;; Returned (threshold p))%outcome.

Definition SafePrimeGenTimeout (params : option Parameters) : outcome Duration :=
  (p <- deref params ;; Returned (safePrimeGenTimeout p))%outcome.

Definition PartyID_ (params : option Parameters) : outcome (option PartyID) :=
  (p <- deref params ;; Returned (partyID p))%outcome.

(** Getter.  The H1, H2 dupe check is disabled during some benchmarking
    scenarios to allow reuse of pre-params. *)
Definition UNSAFE_KGIgnoreH1H2Dupes (params : option Parameters) : outcome bool :=
  (p <- deref params ;; Returned (unsafeKGIgnoreH1H2Dupes p))%outcome.

(** Setter; the warning it logs is not modelled.  The parameters are updated
    in place: the result is the new content of the pointer. *)
Definition UNSAFE_setKGIgnoreH1H2Dupes (params : option Parameters) (flag : bool)
  : outcome Parameters :=
  (p <- deref params ;;
   Returned {| partyID := partyID p;
               parties := parties p;
               partyCount := partyCount p;
               threshold := threshold p;
               safePrimeGenTimeout := safePrimeGenTimeout p;
               unsafeKGIgnoreH1H2Dupes := flag |})%outcome.

Definition NewReSharingParameters (ctx newCtx : option PeerContext)
    (pid : option PartyID)
    (partyCount threshold newPartyCount newThreshold : Z)
  : outcome (option ReSharingParameters) :=
  (params <- NewParameters ctx pid partyCount threshold [] ;;
   Returned (Some {| Parameters_ := params;
                     newParties := newCtx;
                     newPartyCount := newPartyCount;
                     newThreshold := newThreshold |}))%outcome.

Definition OldParties (rgParams : option ReSharingParameters)
  : outcome (option PeerContext) :=
  (rg <- deref rgParams ;; Parties (Parameters_ rg))%outcome.

Definition OldPartyCount (rgParams : option ReSharingParameters) : outcome Z :=
  (rg <- deref rgParams ;;
   p <- deref (Parameters_ rg) ;;
   Returned (partyCount p))%outcome.

Definition NewParties (rgParams : option ReSharingParameters)
  : outcome (option PeerContext) :=
  (rg <- deref rgParams ;; Returned (newParties rg))%outcome.

Definition NewPartyCount (rgParams : option ReSharingParameters) : outcome Z :=
  (rg <- deref rgParams ;; Returned (newPartyCount rg))%outcome.

Definition NewThreshold (rgParams : option ReSharingParameters) : outcome Z :=
  (rg <- deref rgParams ;; Returned (newThreshold rg))%outcome.

(** [append(old, new...)]: the elements of [old] followed by those of [new]. *)
Definition OldAndNewParties (rgParams : option ReSharingParameters)
  : outcome (list PartyID) :=
  (oldCtx <- OldParties rgParams ;;
   old <- IDs oldCtx ;;
   newCtx <- NewParties rgParams ;;
   new <- IDs newCtx ;;
   Returned (old ++ new))%outcome.

Definition OldAndNewPartyCount (rgParams : option ReSharingParameters)
  : outcome Z :=
  (old <- OldPartyCount rgParams ;;
   new <- NewPartyCount rgParams ;;
   Returned (int_add old new))%outcome.

(** [KeyInt()] of a party, compared with [Cmp(...) == 0]. *)
Definition sameKey (a b : PartyID) : bool := Key a =? Key b.

Definition IsOldCommittee (rgParams : option ReSharingParameters) : outcome bool :=
  (rg <- deref rgParams ;;
   p <- deref (Parameters_ rg) ;;
   ids <- IDs (parties p) ;;
   match ids with
   | [] => Returned false
   | _ :: _ => (me <- deref (partyID p) ;; Returned (existsb (sameKey me) ids))
   end)%outcome.

Definition IsNewCommittee (rgParams : option ReSharingParameters) : outcome bool :=
  (rg <- deref rgParams ;;
   p <- deref (Parameters_ rg) ;;
   ids <- IDs (newParties rg) ;;
   match ids with
   | [] => Returned false
   | _ :: _ => (me <- deref (partyID p) ;; Returned (existsb (sameKey me) ids))
   end)%outcome.

End tss.

(* ================================================================== *)
(** * Collaborators of package mta *)
(* ================================================================== *)

Module collab.

(** A Go [(T, error)] result of which exactly one component is set. *)
Inductive result (A : Type) : Type :=
| Ok (a : A)
| Err (e : error).
Arguments Ok {A} a.
Arguments Err {A} e.

(** ** big.Int byte encoding (Go standard library) *)

Definition byte_of_Z (z : Z) : Byte.byte :=
  match Byte.of_N (Z.to_N (z mod 256)) with
  | Some b => b
  | None => Byte.x00
  end.

Definition Z_of_byte (b : Byte.byte) : Z := Z.of_N (Byte.to_N b).

(** Big-endian base-256 digits of [n], most significant first, prepended to
    [acc]; [fuel] bounds the number of digits. *)
Fixpoint be_digits (fuel : nat) (n : Z) (acc : list Byte.byte) : list Byte.byte :=
  match fuel with
  | O => acc
  | S f =>
      if n =? 0 then acc
      else be_digits f (n / 256) (byte_of_Z (n mod 256) :: acc)
  end.

(** [x.Bytes()]: the big-endian bytes of [|x|], empty for zero. *)
Definition big_Bytes (x : Z) : list Byte.byte :=
  be_digits (S (Z.to_nat (Z.log2 (Z.abs x)))) (Z.abs x) [].

(** [new(big.Int).SetBytes(bz)]: [bz] read as a big-endian unsigned integer. *)
Definition big_SetBytes (bz : list Byte.byte) : Z :=
  fold_left (fun acc b => acc * 256 + Z_of_byte b) bz 0.

(** [bzs[i]]: an index out of range panics. *)
Definition index {A} (l : list A) (i : nat) : outcome A := deref (nth_error l i).

(** ** package common *)

(** Modelled from the spec: [common.ModInt] is not embedded; the spec lists it
    under "modular arithmetic helpers" (modular exponentiation, [−β' mod q]).
    For a positive modulus and a non-negative exponent these are the
    operations of [big.Int]. *)
Definition ModInt_Exp (n x y : Z) : Z := (x ^ y) mod n.
Definition ModInt_Mul (n x y : Z) : Z := (x * y) mod n.
Definition ModInt_Sub (n x y : Z) : Z := (x - y) mod n.

(** Modelled from the spec: [common.IsInInterval] is not embedded; the spec's
    verifier checks "group membership", [0 <= b < bound].  Its operands are
    [*big.Int] whose methods it calls, so a nil operand panics. *)
Definition IsInInterval (b bound : option Z) : outcome bool :=
  (b' <- deref b ;;
   bound' <- deref bound ;;
   Returned ((b' <? bound') && (0 <=? b')))%outcome.

(** Modelled from the spec: [common.NonEmptyMultiBytes] is not embedded; by
    its name and its use it accepts byte-slice arrays of the expected number
    of parts, each part non-empty. *)
Definition NonEmptyBytes (bz : list Byte.byte) : bool :=
  0 <? Z.of_nat (List.length bz).

Definition NonEmptyMultiBytes (bzs : list (list Byte.byte)) (expectLen : Z) : bool :=
  if Z.of_nat (List.length bzs) =? 0 then false
  else if negb (expectLen =? Z.of_nat (List.length bzs)) then false
  else forallb NonEmptyBytes bzs.

(** The hash-to-integer and the rejection sampling of package common. *)
Class Hash : Type := {
  SHA512_256i : list Z -> Z;
  RejectionSample : Z -> Z -> Z
}.

(** The random source: every draw consumes part of a tape. *)
Class RandSource : Type := {
  Tape : Type;
  GetRandomPositiveInt : Z -> Tape -> Z * Tape;
  GetRandomPositiveRelativelyPrimeInt : Z -> Tape -> Z * Tape
}.

(** Randomised Go code: state passing over the tape, and panics. *)
Definition Rand `{RandSource} (A : Type) : Type := Tape -> outcome (A * Tape).

Definition rret `{RandSource} {A} (a : A) : Rand A := fun t => Returned (a, t).

Definition rbind `{RandSource} {A B} (m : Rand A) (f : A -> Rand B) : Rand B :=
  fun t =>
    match m t with
    | Returned (a, t') => f a t'
    | Panicked => Panicked
    end.

Definition lift `{RandSource} {A} (o : outcome A) : Rand A :=
  fun t =>
    match o with
    | Returned a => Returned (a, t)
    | Panicked => Panicked
    end.

Definition draw `{RandSource} (f : Tape -> Z * Tape) : Rand Z :=
  fun t => Returned (f t).

(** The contract of the samplers (spec: "uniform sampling in intervals";
    Bob's nonce [β ∈ Z*_N]) and of the rejection sampling ([c ∈ [0, q)]). *)
Class RandLaws `{RandSource} : Prop := {
  GetRandomPositiveInt_range : forall n t,
      0 < n -> 0 <= fst (GetRandomPositiveInt n t) < n;
  GetRandomPositiveRelativelyPrimeInt_unit : forall n t,
      1 < n ->
      0 < fst (GetRandomPositiveRelativelyPrimeInt n t) < n /\
      Z.gcd (fst (GetRandomPositiveRelativelyPrimeInt n t)) n = 1
}.

Class HashLaws `{Hash} : Prop := {
  RejectionSample_range : forall q h, 0 < q -> 0 <= RejectionSample q h < q
}.

(** ** package crypto and the curve of [tss.EC()] *)

(** Modelled from the spec: [crypto.ECPoint] is not embedded; a point carries
    its two affine coordinates, read by the methods [X()] and [Y()]. *)
Record ECPoint : Type := mkECPoint {
  coordX : Z;
  coordY : Z
}.

(** The capability set of the spec's curve abstraction. *)
Class Curve : Type := {
  q : Z;                                     (* tss.EC().Params().N *)
  isOnCurve : Z -> Z -> bool;
  ScalarBaseMult : Z -> ECPoint;
  ScalarMult : ECPoint -> Z -> ECPoint;
  ECAdd : ECPoint -> ECPoint -> result ECPoint
}.

Definition NewECPointNoCurveCheck (x y : Z) : ECPoint := mkECPoint x y.

Definition NewECPoint `{Curve} (x y : Z) : result ECPoint :=
  if isOnCurve x y then Ok (mkECPoint x y)
  else Err "NewECPoint: the given point is not on the elliptic curve"%string.

Definition Equals (p1 p2 : ECPoint) : bool :=
  (coordX p1 =? coordX p2) && (coordY p1 =? coordY p2).

(** ** package paillier *)

(** Modelled from the spec: the Paillier public key "stores [N] and
    [Γ = N+1]"; [AsInts] is the pair hashed into the challenges. *)
Record PublicKey : Type := mkPublicKey {
  pkN : Z
}.

Definition NSquare (pk : PublicKey) : Z := pkN pk * pkN pk.
Definition Gamma (pk : PublicKey) : Z := pkN pk + 1.
Definition AsInts (pk : PublicKey) : list Z := [pkN pk; Gamma pk].

Class Paillier `{RandSource} : Type := {
  PrivateKey : Type;
  EncryptAndReturnRandomness : PublicKey -> Z -> Rand (result (Z * Z));
  HomoMult : PublicKey -> Z -> Z -> result Z;
  HomoAdd : PublicKey -> Z -> Z -> result Z;
  Decrypt : PrivateKey -> Z -> result Z;
  DecryptAndRecoverRandomness : PrivateKey -> Z -> result (Z * Z)
}.

(** [c] is the encryption of [m] under [pk] with randomness [r]
    (spec 4.1: [c = (1+N)^m · r^N mod N²], [m ∈ [0, N)], [r ∈ Z*_N]). *)
Definition ciphertext (pk : PublicKey) (m r : Z) : Z :=
  (Gamma pk ^ m * r ^ pkN pk) mod NSquare pk.

Definition inZNstar (n r : Z) : Prop := 0 < r < n /\ Z.gcd r n = 1.

Definition IsEncryption (pk : PublicKey) (m r c : Z) : Prop :=
  0 <= m < pkN pk /\ inZNstar (pkN pk) r /\ c = ciphertext pk m r.

(** The laws of spec 4.1 and 8.1 for a key pair. *)
Class PaillierLaws `{Paillier} (pk : PublicKey) (sk : PrivateKey) : Prop := {
  modulus_gt_1 : 1 < pkN pk;
  encrypt_law : forall m c r t t',
      EncryptAndReturnRandomness pk m t = Returned (Ok (c, r), t') ->
      IsEncryption pk m r c;
  homoMult_law : forall k c c',
      0 <= k -> HomoMult pk k c = Ok c' -> c' = (c ^ k) mod NSquare pk;
  homoAdd_law : forall c1 c2 c',
      HomoAdd pk c1 c2 = Ok c' -> c' = (c1 * c2) mod NSquare pk;
  decrypt_law : forall m r c,
      IsEncryption pk m r c -> Decrypt sk c = Ok m
}.

(** ** Alice's range proof (same package, not embedded) *)

Class RangeProofSystem `{RandSource} : Type := {
  RangeProofAlice : Type;
  ProveRangeAlice :
    option PublicKey -> option Z -> option Z -> option Z -> option Z ->
    option Z -> option Z -> Rand (result RangeProofAlice);
  RangeProofAlice_Verify :
    option RangeProofAlice -> option PublicKey ->
    option Z -> option Z -> option Z -> option Z -> outcome bool
}.

End collab.

Import collab.

Declare Scope rand_scope.
Delimit Scope rand_scope with rand.
Notation "x <- m ;; k" := (rbind m (fun x => k))
  (at level 61, m at next level, right associativity) : rand_scope.

(* ================================================================== *)
(** * package mta: Bob's proofs *)
(* ================================================================== *)

Module mta.

Section Mta.

Context {curve : Curve} {hash : Hash} {rnd : RandSource}.

Definition ProofBobBytesParts : Z := 10.
Definition ProofBobWCBytesParts : Z := 12.

(** The package variables [zero] and [one]. *)
Definition zero : Z := 0.
Definition one : Z := 1.

Record ProofBob : Type := mkProofBob {
  pf_Z : option Z;
  pf_ZPrm : option Z;
  pf_T : option Z;
  pf_V : option Z;
  pf_W : option Z;
  pf_S : option Z;
  pf_S1 : option Z;
  pf_S2 : option Z;
  pf_T1 : option Z;
  pf_T2 : option Z
}.

Record ProofBobWC : Type := mkProofBobWC {
  pf_ProofBob : option ProofBob;      (* the embedded pointer to ProofBob *)
  pf_U : option ECPoint
}.

(** The block "11-12. e'" of the prover and "1-2. e'" of the verifier: the
    hash of the transcript, with the coordinates of [X] and of [u] when [X]
    is present ([Xu] is then the pair of the two points), rejection-sampled
    below [q]. *)
Definition challenge (pk : PublicKey) (Xu : option (ECPoint * ECPoint))
    (c1 c2 z zPrm t v w : Z) : Z :=
  let eHash :=
    match Xu with
    | None => SHA512_256i (AsInts pk ++ [c1; c2; z; zPrm; t; v; w])
    | Some (X, u) =>
        SHA512_256i (AsInts pk ++ [coordX X; coordY X; c1; c2;
                                   coordX u; coordY u; z; zPrm; t; v; w])
    end in
  RejectionSample q eHash.

Definition ProveBobWC (pk : option PublicKey) (NTilde h1 h2 c1 c2 x y r : option Z)
    (X : option ECPoint) : Rand (result ProofBobWC) :=
  match pk, NTilde, h1, h2, c1, c2, x, y, r with
  | Some pk, Some NTilde, Some h1, Some h2, Some c1, Some c2, Some x, Some y, Some r =>
      let NSq := NSquare pk in
      let q2 := q * q in
      let q3 := q2 * q in
      let q6 := q3 * q3 in
      let q7 := q6 * q in
      let qNTilde := q * NTilde in
      let q3NTilde := q3 * NTilde in
      (* 1. *)
      (alpha <- draw (GetRandomPositiveInt q3) ;;
       (* 2. *)
       rho <- draw (GetRandomPositiveInt qNTilde) ;;
       sigma <- draw (GetRandomPositiveInt qNTilde) ;;
       tau <- draw (GetRandomPositiveInt q3NTilde) ;;
       (* 3. *)
       rhoPrm <- draw (GetRandomPositiveInt q3NTilde) ;;
       (* 4. *)
       beta <- draw (GetRandomPositiveRelativelyPrimeInt (pkN pk)) ;;
       gamma <- draw (GetRandomPositiveInt q7) ;;
       (* 5. *)
       let u := match X with
                | Some _ => ScalarBaseMult alpha
                | None => NewECPointNoCurveCheck zero zero
                end in
       (* 6. *)
       let z := ModInt_Exp NTilde h1 x in
       let z := ModInt_Mul NTilde z (ModInt_Exp NTilde h2 rho) in
       (* 7. *)
       let zPrm := ModInt_Exp NTilde h1 alpha in
       let zPrm := ModInt_Mul NTilde zPrm (ModInt_Exp NTilde h2 rhoPrm) in
       (* 8. *)
       let t := ModInt_Exp NTilde h1 y in
       let t := ModInt_Mul NTilde t (ModInt_Exp NTilde h2 sigma) in
       (* 9. *)
       let v := ModInt_Exp NSq c1 alpha in
       let v := ModInt_Mul NSq v (ModInt_Exp NSq (Gamma pk) gamma) in
       let v := ModInt_Mul NSq v (ModInt_Exp NSq beta (pkN pk)) in
       (* 10. *)
       let w := ModInt_Exp NTilde h1 gamma in
       let w := ModInt_Mul NTilde w (ModInt_Exp NTilde h2 tau) in
       (* 11-12. e' *)
       let e := challenge pk (option_map (fun X' => (X', u)) X) c1 c2 z zPrm t v w in
       (* 13. *)
       let s := ModInt_Exp (pkN pk) r e in
       let s := ModInt_Mul (pkN pk) s beta in
       (* 14. *)
       let s1 := e * x + alpha in
       (* 15. *)
       let s2 := e * rho + rhoPrm in
       (* 16. *)
       let t1 := e * y + gamma in
       (* 17. *)
       let t2 := e * sigma + tau in
       let pf := {| pf_Z := Some z; pf_ZPrm := Some zPrm; pf_T := Some t;
                    pf_V := Some v; pf_W := Some w; pf_S := Some s;
                    pf_S1 := Some s1; pf_S2 := Some s2;
                    pf_T1 := Some t1; pf_T2 := Some t2 |} in
       rret (Ok {| pf_ProofBob := Some pf; pf_U := Some u |}))%rand
  | _, _, _, _, _, _, _, _, _ =>
      rret (Err "ProveBob() received a nil argument"%string)
  end.

Definition ProveBob (pk : option PublicKey) (NTilde h1 h2 c1 c2 x y r : option Z)
  : Rand (result (option ProofBob)) :=
  (res <- ProveBobWC pk NTilde h1 h2 c1 c2 x y r None ;;
   match res with
   | Err err => rret (Err err)
   | Ok pf => rret (Ok (pf_ProofBob pf))
   end)%rand.

Definition ProofBobFromBytes (bzs : list (list Byte.byte)) : outcome (result ProofBob) :=
  if negb (NonEmptyMultiBytes bzs ProofBobBytesParts) &&
     negb (NonEmptyMultiBytes bzs ProofBobWCBytesParts)
  then Returned (Err "expected 10 byte parts to construct ProofBob, or 12 for ProofBobWC"%string)
  else
    (b0 <- index bzs 0 ;; b1 <- index bzs 1 ;; b2 <- index bzs 2 ;;
     b3 <- index bzs 3 ;; b4 <- index bzs 4 ;; b5 <- index bzs 5 ;;
     b6 <- index bzs 6 ;; b7 <- index bzs 7 ;; b8 <- index bzs 8 ;;
     b9 <- index bzs 9 ;;
     Returned (Ok {| pf_Z := Some (big_SetBytes b0);
                     pf_ZPrm := Some (big_SetBytes b1);
                     pf_T := Some (big_SetBytes b2);
                     pf_V := Some (big_SetBytes b3);
                     pf_W := Some (big_SetBytes b4);
                     pf_S := Some (big_SetBytes b5);
                     pf_S1 := Some (big_SetBytes b6);
                     pf_S2 := Some (big_SetBytes b7);
                     pf_T1 := Some (big_SetBytes b8);
                     pf_T2 := Some (big_SetBytes b9) |}))%outcome.

Definition ProofBobWCFromBytes (bzs : list (list Byte.byte)) : outcome (result ProofBobWC) :=
  (res <- ProofBobFromBytes bzs ;;
   match res with
   | Err err => Returned (Err err)
   | Ok proofBob =>
       b10 <- index bzs 10 ;;
       b11 <- index bzs 11 ;;
       match NewECPoint (big_SetBytes b10) (big_SetBytes b11) with
       | Err err => Returned (Err err)
       | Ok point =>
           Returned (Ok {| pf_ProofBob := Some proofBob; pf_U := Some point |})
       end
   end)%outcome.

Definition ProofBobWC_Verify (pf : option ProofBobWC) (pk : option PublicKey)
    (NTilde h1 h2 c1 c2 : option Z) (X : option ECPoint) : outcome bool :=
  match pk, NTilde, h1, h2, c1, c2 with
  | Some pk, Some NTilde, Some h1, Some h2, Some c1, Some c2 =>
      let q2 := q * q in
      let q3 := q * q2 in
      let q6 := q3 * q3 in
      let q7 := q6 * q in
      (pfwc <- deref pf ;;
       pb <- deref (pf_ProofBob pfwc) ;;
       in1 <- IsInInterval (pf_Z pb) (Some NTilde) ;;
       if negb in1 then Returned false else
       in2 <- IsInInterval (pf_ZPrm pb) (Some NTilde) ;;
       if negb in2 then Returned false else
       in3 <- IsInInterval (pf_T pb) (Some NTilde) ;;
       if negb in3 then Returned false else
       in4 <- IsInInterval (pf_V pb) (Some (NSquare pk)) ;;
       if negb in4 then Returned false else
       in5 <- IsInInterval (pf_W pb) (Some NTilde) ;;
       if negb in5 then Returned false else
       in6 <- IsInInterval (pf_S pb) (Some (pkN pk)) ;;
       if negb in6 then Returned false else
       Z' <- deref (pf_Z pb) ;;
       if negb (Z.gcd Z' NTilde =? one) then Returned false else
       ZPrm <- deref (pf_ZPrm pb) ;;
       if negb (Z.gcd ZPrm NTilde =? one) then Returned false else
       T <- deref (pf_T pb) ;;
       if negb (Z.gcd T NTilde =? one) then Returned false else
       V <- deref (pf_V pb) ;;
       if negb (Z.gcd V (NSquare pk) =? one) then Returned false else
       W <- deref (pf_W pb) ;;
       if negb (Z.gcd W NTilde =? one) then Returned false else
       S' <- deref (pf_S pb) ;;
       if S' =? zero then Returned false else
       if negb (Z.gcd S' (pkN pk) =? one) then Returned false else
       if V =? zero then Returned false else
       if negb (Z.gcd V (pkN pk) =? one) then Returned false else
       (* 3. *)
       S1 <- deref (pf_S1 pb) ;;
       if S1 >? q3 then Returned false else
       T1 <- deref (pf_T1 pb) ;;
       if T1 >? q7 then Returned false else
       (* 1-2. e' *)
       Xu <- match X with
             | None => Returned None
             | Some X' => (U <- deref (pf_U pfwc) ;; Returned (Some (X', U)))
             end ;;
       let e := challenge pk Xu c1 c2 Z' ZPrm T V W in
       (* 4. runs only in the "with check" mode *)
       ok4 <- match Xu with
              | None => Returned true
              | Some (X', U) =>
                  s1ModQ <- big_Mod S1 q ;;
                  let gS1 := ScalarBaseMult s1ModQ in
                  match ECAdd (ScalarMult X' e) U with
                  | Err _ => Returned false
                  | Ok xEU => Returned (Equals gS1 xEU)
                  end
              end ;;
       if negb ok4 then Returned false else
       (* 5. *)
       let h1ExpS1 := ModInt_Exp NTilde h1 S1 in
       S2 <- deref (pf_S2 pb) ;;
       let h2ExpS2 := ModInt_Exp NTilde h2 S2 in
       let left := ModInt_Mul NTilde h1ExpS1 h2ExpS2 in
       let zExpE := ModInt_Exp NTilde Z' e in
       let right := ModInt_Mul NTilde zExpE ZPrm in
       if negb (left =? right) then Returned false else
       (* 6. *)
       let h1ExpT1 := ModInt_Exp NTilde h1 T1 in
       T2 <- deref (pf_T2 pb) ;;
       let h2ExpT2 := ModInt_Exp NTilde h2 T2 in
       let left := ModInt_Mul NTilde h1ExpT1 h2ExpT2 in
       let tExpE := ModInt_Exp NTilde T e in
       let right := ModInt_Mul NTilde tExpE W in
       if negb (left =? right) then Returned false else
       (* 7. *)
       let NSq := NSquare pk in
       let c1ExpS1 := ModInt_Exp NSq c1 S1 in
       let sExpN := ModInt_Exp NSq S' (pkN pk) in
       let gammaExpT1 := ModInt_Exp NSq (Gamma pk) T1 in
       let left := ModInt_Mul NSq c1ExpS1 sExpN in
       let left := ModInt_Mul NSq left gammaExpT1 in
       let c2ExpE := ModInt_Exp NSq c2 e in
       let right := ModInt_Mul NSq c2ExpE V in
       if negb (left =? right) then Returned false else
       Returned true)%outcome
  | _, _, _, _, _, _ => Returned false
  end.

Definition ProofBob_Verify (pf : option ProofBob) (pk : option PublicKey)
    (NTilde h1 h2 c1 c2 : option Z) : outcome bool :=
  match pf with
  | None => Returned false
  | Some _ =>
      let pfWC := Some {| pf_ProofBob := pf; pf_U := None |} in
      ProofBobWC_Verify pfWC pk NTilde h1 h2 c1 c2 None
  end.

Definition ProofBob_ValidateBasic (pf : option ProofBob) : outcome bool :=
  (pb <- deref pf ;;
   Returned (negb (isNil (pf_Z pb)) &&
             negb (isNil (pf_ZPrm pb)) &&
             negb (isNil (pf_T pb)) &&
             negb (isNil (pf_V pb)) &&
             negb (isNil (pf_W pb)) &&
             negb (isNil (pf_S pb)) &&
             negb (isNil (pf_S1 pb)) &&
             negb (isNil (pf_S2 pb)) &&
             negb (isNil (pf_T1 pb)) &&
             negb (isNil (pf_T2 pb))))%outcome.

Definition ProofBobWC_ValidateBasic (pf : option ProofBobWC) : outcome bool :=
  (pfwc <- deref pf ;;
   b <- ProofBob_ValidateBasic (pf_ProofBob pfwc) ;;
   Returned (b && negb (isNil (pf_U pfwc))))%outcome.

Definition ProofBob_Bytes (pf : option ProofBob) : outcome (list (list Byte.byte)) :=
  (pb <- deref pf ;;
   Z' <- deref (pf_Z pb) ;;
   ZPrm <- deref (pf_ZPrm pb) ;;
   T <- deref (pf_T pb) ;;
   V <- deref (pf_V pb) ;;
   W <- deref (pf_W pb) ;;
   S' <- deref (pf_S pb) ;;
   S1 <- deref (pf_S1 pb) ;;
   S2 <- deref (pf_S2 pb) ;;
   T1 <- deref (pf_T1 pb) ;;
   T2 <- deref (pf_T2 pb) ;;
   Returned [big_Bytes Z'; big_Bytes ZPrm; big_Bytes T; big_Bytes V;
             big_Bytes W; big_Bytes S'; big_Bytes S1; big_Bytes S2;
             big_Bytes T1; big_Bytes T2])%outcome.

Definition ProofBobWC_Bytes (pf : option ProofBobWC) : outcome (list (list Byte.byte)) :=
  (pfwc <- deref pf ;;
   bobBzs <- ProofBob_Bytes (pf_ProofBob pfwc) ;;
   let bobBzsSlice := bobBzs in
   U <- deref (pf_U pfwc) ;;
   let bobBzsSlice := bobBzsSlice ++ [big_Bytes (coordX U)] in
   let bobBzsSlice := bobBzsSlice ++ [big_Bytes (coordY U)] in
   Returned (firstn 12 bobBzsSlice))%outcome.

End Mta.

(* ---------------------------------------------------------------- *)
(** ** crypto/mta/share_protocol.go *)
(* ---------------------------------------------------------------- *)

Section ShareProtocol.

Context {curve : Curve} {hash : Hash} {rnd : RandSource}
        {paillier : Paillier} {rps : RangeProofSystem}.

Definition AliceInit (pkA : option PublicKey) (a cA rA NTildeB h1B h2B : option Z)
  : Rand (result RangeProofAlice) :=
  ProveRangeAlice pkA cA NTildeB h1B h2B a rA.

(** The named results of [BobMid]; [return] hands back their current values. *)
Record BobMidResult : Type := mkBobMidResult {
  bm_beta : option Z;
  bm_cB : option Z;
  bm_betaPrm : option Z;
  bm_piB : option ProofBob;
  bm_err : option error
}.

Definition BobMid (pkA : option PublicKey) (pf : option RangeProofAlice)
    (b cA NTildeA h1A h2A NTildeB h1B h2B : option Z) : Rand BobMidResult :=
  (ok <- lift (RangeProofAlice_Verify pf pkA NTildeB h1B h2B cA) ;;
   if negb ok then
     rret (mkBobMidResult None None None None
             (Some "RangeProofAlice.Verify() returned false"%string))
   else
     let q5 := q * q in           (* q^2 *)
     let q5 := q5 * q5 in         (* q^4 *)
     let q5 := q5 * q in          (* q^5 *)
     betaPrm <- draw (GetRandomPositiveInt q5) ;;
     pk <- lift (deref pkA) ;;
     enc <- EncryptAndReturnRandomness pk betaPrm ;;
     match enc with
     | Err err => rret (mkBobMidResult None None (Some betaPrm) None (Some err))
     | Ok (cBetaPrm, cRand) =>
         b' <- lift (deref b) ;;
         cA' <- lift (deref cA) ;;
         match HomoMult pk b' cA' with
         | Err err => rret (mkBobMidResult None None (Some betaPrm) None (Some err))
         | Ok cB =>
             match HomoAdd pk cB cBetaPrm with
             | Err err => rret (mkBobMidResult None None (Some betaPrm) None (Some err))
             | Ok cB =>
                 let beta := ModInt_Sub q zero betaPrm in
                 res <- ProveBob pkA NTildeA h1A h2A cA (Some cB) b
                                 (Some betaPrm) (Some cRand) ;;
                 match res with
                 | Err err =>
                     rret (mkBobMidResult (Some beta) (Some cB) (Some betaPrm)
                             None (Some err))
                 | Ok piB =>
                     rret (mkBobMidResult (Some beta) (Some cB) (Some betaPrm)
                             piB None)
                 end
             end
         end
     end)%rand.

(** The named results of [BobMidWC]. *)
Record BobMidWCResult : Type := mkBobMidWCResult {
  bw_betaPrm : option Z;
  bw_cB : option Z;
  bw_piB : option ProofBobWC;
  bw_err : option error
}.

Definition BobMidWC (pkA : option PublicKey) (pf : option RangeProofAlice)
    (b cA NTildeA h1A h2A NTildeB h1B h2B : option Z) (B : option ECPoint)
  : Rand BobMidWCResult :=
  (ok <- lift (RangeProofAlice_Verify pf pkA NTildeB h1B h2B cA) ;;
   if negb ok then
     rret (mkBobMidWCResult None None None
             (Some "RangeProofAlice.Verify() returned false"%string))
   else
     let q5 := q * q in           (* q^2 *)
     let q5 := q5 * q5 in         (* q^4 *)
     let q5 := q5 * q in          (* q^5 *)
     betaPrm <- draw (GetRandomPositiveInt q5) ;;
     pk <- lift (deref pkA) ;;
     enc <- EncryptAndReturnRandomness pk betaPrm ;;
     match enc with
     | Err err => rret (mkBobMidWCResult (Some betaPrm) None None (Some err))
     | Ok (cBetaPrm, cRand) =>
         b' <- lift (deref b) ;;
         cA' <- lift (deref cA) ;;
         match HomoMult pk b' cA' with
         | Err err => rret (mkBobMidWCResult (Some betaPrm) None None (Some err))
         | Ok cB =>
             match HomoAdd pk cB cBetaPrm with
             | Err err => rret (mkBobMidWCResult (Some betaPrm) None None (Some err))
             | Ok cB =>
                 res <- ProveBobWC pkA NTildeA h1A h2A cA (Some cB) b
                                   (Some betaPrm) (Some cRand) B ;;
                 match res with
                 | Err err =>
                     rret (mkBobMidWCResult (Some betaPrm) (Some cB) None (Some err))
                 | Ok piB =>
                     rret (mkBobMidWCResult (Some betaPrm) (Some cB) (Some piB) None)
                 end
             end
         end
     end)%rand.

Definition AliceEnd (pkA : option PublicKey) (pf : option ProofBob)
    (h1A h2A cA cB NTildeA : option Z) (sk : option PrivateKey)
  : outcome (result Z) :=
  (ok <- ProofBob_Verify pf pkA NTildeA h1A h2A cA cB ;;
   if negb ok then Returned (Err "ProofBob.Verify() returned false"%string)
   else
     sk' <- deref sk ;;
     cB' <- deref cB ;;
     match Decrypt sk' cB' with
     | Err err => Returned (Err err)
     | Ok alphaIJ =>
         alphaIJ <- big_Mod alphaIJ q ;;
         Returned (Ok alphaIJ)
     end)%outcome.

Definition AliceEndWC (pkA : option PublicKey) (pf : option ProofBobWC)
    (B : option ECPoint) (cA cB NTildeA h1A h2A : option Z)
    (sk : option PrivateKey) : outcome (result (Z * Z * Z)) :=
  (ok <- ProofBobWC_Verify pf pkA NTildeA h1A h2A cA cB B ;;
   if negb ok then Returned (Err "ProofBobWC.Verify() returned false"%string)
   else
     sk' <- deref sk ;;
     cB' <- deref cB ;;
     match DecryptAndRecoverRandomness sk' cB' with
     | Err err => Returned (Err err)
     | Ok (muIJRec, muIJRand) =>
         muIJ <- big_Mod muIJRec q ;;
         Returned (Ok (muIJ, muIJRec, muIJRand))
     end)%outcome.

End ShareProtocol.
End mta.

(* ================================================================== *)
(** * A small concrete instantiation of the collaborators *)
(* ================================================================== *)

(** The protocol code above runs on any instance of the interfaces.  The
    instances below are small enough to evaluate: a twisted Edwards curve
    over F_29 with a subgroup of prime order 7, textbook Paillier, the
    range proof of GG18 Fig. 14, a polynomial hash and a list of integers
    as the random tape. *)

Module Small.

(** ** The curve  x² + y² = 1 + 3·x²·y²  over F_29 (28 points) *)

Definition fp : Z := 29.
Definition ed_d : Z := 3.

Definition fp_inv (a : Z) : Z := (a ^ (fp - 2)) mod fp.

Definition ed_onCurve (x y : Z) : bool :=
  (0 <=? x) && (x <? fp) && (0 <=? y) && (y <? fp) &&
  ((x * x + y * y) mod fp =? (1 + ed_d * x * x * y * y) mod fp).

Definition ed_neutral : ECPoint := mkECPoint 0 1.

Definition ed_add (P Q : ECPoint) : ECPoint :=
  let x1 := coordX P in let y1 := coordY P in
  let x2 := coordX Q in let y2 := coordY Q in
  let k := (ed_d * x1 * x2 * y1 * y2) mod fp in
  mkECPoint (((x1 * y2 + y1 * x2) * fp_inv (1 + k)) mod fp)
            (((y1 * y2 - x1 * x2) * fp_inv (1 - k)) mod fp).

Definition ed_mul (P : ECPoint) (k : Z) : ECPoint :=
  Z.iter (Z.abs k) (ed_add P) ed_neutral.

(** A point of order 7. *)
Definition ed_G : ECPoint := mkECPoint 5 4.

#[export] Instance curve : Curve := {|
  q := 7;
  isOnCurve := ed_onCurve;
  ScalarBaseMult := ed_mul ed_G;
  ScalarMult := ed_mul;
  ECAdd := fun P Q =>
    let R := ed_add P Q in
    if ed_onCurve (coordX R) (coordY R) then Ok R
    else Err "NewECPoint: the given point is not on the elliptic curve"%string
|}.

(** ** Hash and rejection sampling *)

Definition polyHash (l : list Z) : Z :=
  fold_left (fun acc x => (acc * 31 + x) mod 1000003) l 7.

#[export] Instance hash : Hash := {|
  SHA512_256i := polyHash;
  RejectionSample := fun q eHash => eHash mod q
|}.

(** ** The random tape *)

Definition inGroup (n v : Z) : bool := (v <? n) && (1 <=? v) && (Z.gcd v n =? 1).

Definition drawBelow (n : Z) (t : list Z) : Z * list Z :=
  match t with
  | [] => (0, [])
  | x :: t' => (x mod n, t')
  end.

(** Rejection loop: tape entries outside the multiplicative group are
    skipped. *)
Fixpoint drawUnit (n : Z) (t : list Z) : Z * list Z :=
  match t with
  | [] => (1, [])
  | x :: t' => if inGroup n (x mod n) then (x mod n, t') else drawUnit n t'
  end.

#[export] Instance rnd : RandSource := {|
  Tape := list Z;
  GetRandomPositiveInt := drawBelow;
  GetRandomPositiveRelativelyPrimeInt := drawUnit
|}.

(** ** Textbook Paillier *)

Record SecretKey : Type := mkSecretKey {
  skPub : PublicKey;
  LambdaN : Z
}.

Definition L (u n : Z) : Z := (u - 1) / n.

(** The inverse of [a] modulo [n], by search. *)
Definition modInverse (a n : Z) : Z :=
  match find (fun k => (k * a) mod n =? 1) (map Z.of_nat (seq 0 (Z.to_nat n))) with
  | Some k => k
  | None => 0
  end.

Definition encrypt (pk : PublicKey) (m : Z) : Rand (result (Z * Z)) :=
  fun t =>
    if (m <? 0) || (pkN pk <=? m) then
      Returned (Err "PlaintextOutOfRange"%string, t)
    else
      let '(r, t') := drawUnit (pkN pk) t in
      Returned (Ok (ciphertext pk m r, r), t').

Definition decrypt (sk : SecretKey) (c : Z) : result Z :=
  let pk := skPub sk in
  let N2 := NSquare pk in
  if (c <? 0) || (N2 <=? c) || negb (Z.gcd c N2 =? 1) then
    Err "CiphertextOutOfRange"%string
  else
    let Lc := L ((c ^ LambdaN sk) mod N2) (pkN pk) in
    let Lg := L ((Gamma pk ^ LambdaN sk) mod N2) (pkN pk) in
    Ok ((Lc * modInverse Lg (pkN pk)) mod pkN pk).

Definition recoverRandomness (pk : PublicKey) (m c : Z) : Z :=
  match find (fun r => ciphertext pk m r =? c)
             (map Z.of_nat (seq 1 (Z.to_nat (pkN pk) - 1))) with
  | Some r => r
  | None => 0
  end.

#[export] Instance paillier : Paillier := {|
  PrivateKey := SecretKey;
  EncryptAndReturnRandomness := encrypt;
  HomoMult := fun pk k c => Ok ((c ^ k) mod NSquare pk);
  HomoAdd := fun pk c1 c2 => Ok ((c1 * c2) mod NSquare pk);
  Decrypt := decrypt;
  DecryptAndRecoverRandomness := fun sk c =>
    match decrypt sk c with
    | Err e => Err e
    | Ok m => Ok (m, recoverRandomness (skPub sk) m c)
    end
|}.

(** The key pair N = 3·5, λ = lcm(2, 4). *)
Definition pk15 : PublicKey := mkPublicKey 15.
Definition sk15 : SecretKey := mkSecretKey pk15 4.

(** ** The range proof of GG18 Fig. 14 *)

Record Fig14Proof : Type := mkFig14Proof {
  rp_Z : Z; rp_U : Z; rp_W : Z; rp_S : Z; rp_S1 : Z; rp_S2 : Z
}.

Definition fig14_challenge (pk : PublicKey) (c z u w : Z) : Z :=
  RejectionSample q (SHA512_256i (AsInts pk ++ [c; z; u; w])).

Definition fig14_prove (pk : option PublicKey) (c NTilde h1 h2 m r : option Z)
  : Rand (result Fig14Proof) :=
  match pk, c, NTilde, h1, h2, m, r with
  | Some pk, Some c, Some NTilde, Some h1, Some h2, Some m, Some r =>
      let q3 := q * q * q in
      (alpha <- draw (GetRandomPositiveInt q3) ;;
       beta <- draw (GetRandomPositiveRelativelyPrimeInt (pkN pk)) ;;
       gamma <- draw (GetRandomPositiveInt (q3 * NTilde)) ;;
       rho <- draw (GetRandomPositiveInt (q * NTilde)) ;;
       let z := ModInt_Mul NTilde (ModInt_Exp NTilde h1 m) (ModInt_Exp NTilde h2 rho) in
       let u := ModInt_Mul (NSquare pk) (ModInt_Exp (NSquare pk) (Gamma pk) alpha)
                                        (ModInt_Exp (NSquare pk) beta (pkN pk)) in
       let w := ModInt_Mul NTilde (ModInt_Exp NTilde h1 alpha) (ModInt_Exp NTilde h2 gamma) in
       let e := fig14_challenge pk c z u w in
       let s := ModInt_Mul (pkN pk) (ModInt_Exp (pkN pk) r e) beta in
       rret (Ok (mkFig14Proof z u w s (e * m + alpha) (e * rho + gamma))))%rand
  | _, _, _, _, _, _, _ =>
      rret (Err "ProveRangeAlice constructor received nil value(s)"%string)
  end.

Definition fig14_verify (pf : option Fig14Proof) (pk : option PublicKey)
    (NTilde h1 h2 c : option Z) : outcome bool :=
  match pf, pk, NTilde, h1, h2, c with
  | Some pf, Some pk, Some NTilde, Some h1, Some h2, Some c =>
      let q3 := q * q * q in
      let N2 := NSquare pk in
      let e := fig14_challenge pk c (rp_Z pf) (rp_U pf) (rp_W pf) in
      Returned
        (inGroup NTilde (rp_Z pf) && inGroup N2 (rp_U pf) &&
         inGroup NTilde (rp_W pf) && inGroup (pkN pk) (rp_S pf) &&
         (rp_S1 pf <=? q3) &&
         (ModInt_Mul N2 (ModInt_Exp N2 (Gamma pk) (rp_S1 pf))
                        (ModInt_Exp N2 (rp_S pf) (pkN pk))
          =? ModInt_Mul N2 (rp_U pf) (ModInt_Exp N2 c e)) &&
         (ModInt_Mul NTilde (ModInt_Exp NTilde h1 (rp_S1 pf))
                            (ModInt_Exp NTilde h2 (rp_S2 pf))
          =? ModInt_Mul NTilde (rp_W pf) (ModInt_Exp NTilde (rp_Z pf) e)))
  | _, _, _, _, _, _ => Returned false
  end.

#[export] Instance rps : RangeProofSystem := {|
  RangeProofAlice := Fig14Proof;
  ProveRangeAlice := fig14_prove;
  RangeProofAlice_Verify := fig14_verify
|}.

(** Ring-Pedersen parameters: NTilde = 7·11, h1 and h2 quadratic residues. *)
Definition NTilde77 : Z := 77.
Definition h1_77 : Z := 4.
Definition h2_77 : Z := 9.

(** ** A run of the share conversion under the key N = 15 *)

(** Alice's four draws, then Bob's [betaPrm] and encryption randomness, then
    the seven nonces of Bob's proof; entries not coprime to 15 are skipped
    where a unit is drawn. *)
Definition tape0 : list Z := [10; 3; 5; 8; 6; 2; 9; 3; 7; 11; 12; 13; 14; 15; 2; 17].

Definition rA0 : Z := 2.

(** [AliceInit], [BobMid] and [AliceEnd] in sequence on the secrets [a] and
    [b]: Bob's results and what Alice obtains. *)
Definition runMtA (a b : Z) (t : list Z)
  : option (mta.BobMidResult * outcome (result Z)) :=
  let cA := ciphertext pk15 a rA0 in
  match mta.AliceInit (Some pk15) (Some a) (Some cA) (Some rA0)
                      (Some NTilde77) (Some h1_77) (Some h2_77) t with
  | Returned (Ok piA, t1) =>
      match mta.BobMid (Some pk15) (Some piA) (Some b) (Some cA)
                       (Some NTilde77) (Some h1_77) (Some h2_77)
                       (Some NTilde77) (Some h1_77) (Some h2_77) t1 with
      | Returned (res, _) =>
          Some (res,
                mta.AliceEnd (Some pk15) (mta.bm_piB res) (Some h1_77) (Some h2_77)
                             (Some cA) (mta.bm_cB res) (Some NTilde77) (Some sk15))
      | Panicked => None
      end
  | _ => None
  end.

(** Alice's secret 6 and Bob's secret 3: their product plus Bob's mask
    [betaPrm = 9] exceeds the modulus 15.  The values below are those the
    run produces. *)
Definition cA_6 : Z := 188.
Definition piA_6 : Fig14Proof := mkFig14Proof 60 182 53 2 46 18.
Definition tapeBob : list Z := [9; 3; 7; 11; 12; 13; 14; 15; 2; 17].
Definition piB_6_3 : mta.ProofBob :=
  mta.mkProofBob (Some 36) (Some 37) (Some 9) (Some 121) (Some 36)
                 (Some 2) (Some 23) (Some 63) (Some 53) (Some 66).
Definition bob_6_3 : mta.BobMidResult :=
  mta.mkBobMidResult (Some 5) (Some 206) (Some 9) (Some piB_6_3) None.

(** Alice's secret 2 and Bob's secret 2: the masked product 13 fits. *)
Definition cA_2 : Z := 158.
Definition piA_2 : Fig14Proof := mkFig14Proof 64 182 53 2 22 18.
Definition piB_2_2 : mta.ProofBob :=
  mta.mkProofBob (Some 9) (Some 37) (Some 9) (Some 136) (Some 36)
                 (Some 8) (Some 23) (Some 87) (Some 71) (Some 92).
Definition bob_2_2 : mta.BobMidResult :=
  mta.mkBobMidResult (Some 5) (Some 97) (Some 9) (Some piB_2_2) None.

(** ** Proofs with check *)

(** An honest proof for the witness [x = 5] and the point [X = 5·G], on
    the ciphertexts [c1 = Enc(4; 2)] and [c2 = c1^5 · Enc(9; 7)]. *)
Definition cA_4 : Z := 173.
Definition tapeWC : list Z := [11; 12; 13; 14; 15; 2; 17].
Definition X5 : ECPoint := mkECPoint 16 27.
Definition pfWC : mta.ProofBobWC :=
  mta.mkProofBobWC
    (Some (mta.mkProofBob (Some 37) (Some 37) (Some 9) (Some 16) (Some 36)
                          (Some 14) (Some 16) (Some 27) (Some 26) (Some 27)))
    (Some (mkECPoint 23 3)).

(** An honest proof for the witness [x = 3] and the point [X = 3·G], on
    [c2 = c1^3 · Enc(9; 7)]; the point [X3'] is [X3] plus the point (0, 28)
    of order 2. *)
Definition X3 : ECPoint := mkECPoint 6 3.
Definition X3' : ECPoint := mkECPoint 23 26.
Definition pfWC3 : mta.ProofBobWC :=
  mta.mkProofBobWC
    (Some (mta.mkProofBob (Some 36) (Some 37) (Some 9) (Some 16) (Some 36)
                          (Some 8) (Some 17) (Some 39) (Some 35) (Some 40)))
    (Some (mkECPoint 23 3)).

(** A proof for the witness [x = 0], [y = 0], [r = 1] and the ciphertext
    [c2 = 1], on a tape whose draws for [rho] and [sigma] are 0. *)
Definition tapeFlat : list Z := [11; 0; 0; 14; 15; 2; 17].
Definition pfFlat : mta.ProofBobWC :=
  mta.mkProofBobWC
    (Some (mta.mkProofBob (Some 1) (Some 37) (Some 1) (Some 16) (Some 36)
                          (Some 2) (Some 11) (Some 15) (Some 17) (Some 14)))
    (Some (mkECPoint 23 3)).

(** ** Resharing from the committee {alice, bob} to {bob, carol} *)

Definition alice : tss.PartyID := tss.mkPartyID "alice" 1 1.
Definition bob : tss.PartyID := tss.mkPartyID "bob" 2 2.
Definition carol : tss.PartyID := tss.mkPartyID "carol" 3 3.

Definition reshare_2_to_2 : tss.ReSharingParameters :=
  {| tss.Parameters_ := Some {| tss.partyID := Some bob;
                            tss.parties := Some (tss.mkPeerContext [alice; bob]);
                            tss.partyCount := 2; tss.threshold := 1;
                            tss.safePrimeGenTimeout := tss.defaultSafePrimeGenTimeout;
                            tss.unsafeKGIgnoreH1H2Dupes := false |};
     tss.newParties := Some (tss.mkPeerContext [bob; carol]);
     tss.newPartyCount := 2;
     tss.newThreshold := 1 |}.

End Small.

(* ================================================================== *)
(** * Statements under examination *)
(* ================================================================== *)

Module statements.

Import mta.

(** MtA correctness as the specification words it, with no condition on the
    size of the Paillier modulus. *)
Definition MtA_correctness_unconditional
    {curve : Curve} {hash : Hash} {rnd : RandSource}
    {paillier : Paillier} {rps : RangeProofSystem} : Prop :=
  forall (pkA : PublicKey) (skA : PrivateKey),
    PaillierLaws pkA skA ->
    forall (a b rA cA : Z) (NTildeA h1A h2A NTildeB h1B h2B : option Z)
           (t0 t1 t2 : Tape) (piA : RangeProofAlice) (res : BobMidResult)
           (alpha beta : Z),
      IsEncryption pkA a rA cA ->
      AliceInit (Some pkA) (Some a) (Some cA) (Some rA) NTildeB h1B h2B t0
        = Returned (Ok piA, t1) ->
      BobMid (Some pkA) (Some piA) (Some b) (Some cA)
             NTildeA h1A h2A NTildeB h1B h2B t1 = Returned (res, t2) ->
      bm_err res = None ->
      bm_beta res = Some beta ->
      AliceEnd (Some pkA) (bm_piB res) h1A h2A (Some cA) (bm_cB res) NTildeA
               (Some skA) = Returned (Ok alpha) ->
      (alpha + beta) mod q = (a * b) mod q.

(** Transcript binding as the specification words it: a with-check proof
    made for [X] is rejected for every other point of the curve. *)
Definition binding_unconditional
    {curve : Curve} {hash : Hash} {rnd : RandSource} : Prop :=
  forall (pk : PublicKey) (NTilde h1 h2 c1 c2 x y r : Z) (X X' : ECPoint)
         (t t' : Tape) (pf : ProofBobWC),
    ProveBobWC (Some pk) (Some NTilde) (Some h1) (Some h2) (Some c1) (Some c2)
               (Some x) (Some y) (Some r) (Some X) t = Returned (Ok pf, t') ->
    isOnCurve (coordX X') (coordY X') = true ->
    X' <> X ->
    ProofBobWC_Verify (Some pf) (Some pk) (Some NTilde) (Some h1) (Some h2)
                      (Some c1) (Some c2) (Some X') = Returned false.

(** The challenge that [Verify] recomputes from the proof [pf] when it is
    called with the point [X], and the commitment [Z] of the proof. *)
Definition challengeFor {curve : Curve} {hash : Hash}
    (pk : PublicKey) (X : ECPoint) (c1 c2 : Z) (pf : ProofBobWC) : option Z :=
  match pf_ProofBob pf, pf_U pf with
  | Some pb, Some U =>
      match pf_Z pb, pf_ZPrm pb, pf_T pb, pf_V pb, pf_W pb with
      | Some z, Some zPrm, Some t, Some v, Some w =>
          Some (challenge pk (Some (X, U)) c1 c2 z zPrm t v w)
      | _, _, _, _, _ => None
      end
  | _, _ => None
  end.


(** One of the nine required arguments of [ProveBobWC] is nil. *)
Definition anyNil (pk : option PublicKey) (NTilde h1 h2 c1 c2 x y r : option Z) : bool :=
  isNil pk || isNil NTilde || isNil h1 || isNil h2 || isNil c1 || isNil c2 ||
  isNil x || isNil y || isNil r.

(** A byte-slice array of exactly [n] parts, none of them empty. *)
Definition nonEmptyParts (n : nat) (bzs : list (list Byte.byte)) : Prop :=
  List.length bzs = n /\ Forall (fun bz => bz <> []) bzs.

End statements.

(* ================================================================== *)
(** * Further contracts of the collaborators *)
(* ================================================================== *)

Module contracts.

(** The group laws that the with-check equation relies on, for scalars that
    are not negative: the base point has order [q], scalar multiplication
    and addition of multiples of the base point act on the scalars. *)
Class CurveLaws `{Curve} : Prop := {
  base_mult_mod : forall k, 0 <= k -> ScalarBaseMult (k mod q) = ScalarBaseMult k;
  scalar_mult_base : forall x e,
      0 <= x -> 0 <= e -> ScalarMult (ScalarBaseMult x) e = ScalarBaseMult (e * x);
  add_base : forall a b,
      0 <= a -> 0 <= b ->
      ECAdd (ScalarBaseMult a) (ScalarBaseMult b) = Ok (ScalarBaseMult (a + b))
}.

(** Spec 8.1 for [DecryptAndRecoverRandomness]: it returns the plaintext and
    the randomness of an encryption. *)
Class RecoverLaws `{Paillier} (pk : PublicKey) (sk : PrivateKey) : Prop := {
  recover_law : forall m r c,
      IsEncryption pk m r c -> DecryptAndRecoverRandomness sk c = Ok (m, r)
}.

(** The statement that Bob's proof is about: [c2] is [c1] raised to [x],
    times an encryption of [y] with randomness [r], modulo [N²]. *)
Definition bobStatement (pk : PublicKey) (c1 c2 x y r : Z) : Prop :=
  c2 mod NSquare pk
  = (c1 ^ x * (Gamma pk ^ y * r ^ pkN pk)) mod NSquare pk.

(** The ring-Pedersen parameters and the ciphertext are units. *)
Definition unitParams (pk : PublicKey) (NTilde h1 h2 c1 r : Z) : Prop :=
  1 < pkN pk /\ 0 < NTilde /\
  Z.gcd h1 NTilde = 1 /\ Z.gcd h2 NTilde = 1 /\
  Z.gcd c1 (pkN pk) = 1 /\ Z.gcd r (pkN pk) = 1.

End contracts.

(* ================================================================== *)
(** * Views of a proof and further runs of the small instances *)
(* ================================================================== *)

Module views.

Import mta.

(** The ten integers of a proof, in the order of the struct. *)
Definition fields (pb : ProofBob) : list (option Z) :=
  [pf_Z pb; pf_ZPrm pb; pf_T pb; pf_V pb; pf_W pb;
   pf_S pb; pf_S1 pb; pf_S2 pb; pf_T1 pb; pf_T2 pb].

(** The five commitments of a proof: what the prover fixes before the
    challenge. *)
Definition commitments (pb : ProofBob) : list (option Z) :=
  [pf_Z pb; pf_ZPrm pb; pf_T pb; pf_V pb; pf_W pb].

Definition nonNegative (f : option Z) : Prop := exists v, f = Some v /\ 0 <= v.

Definition nonZero (x : Z) : bool := negb (x =? 0).

(** The proof whose integers are the absolute values of the given ones. *)
Definition absFields (z zp t v w s s1 s2 t1 t2 : Z) : ProofBob :=
  mkProofBob (Some (Z.abs z)) (Some (Z.abs zp)) (Some (Z.abs t)) (Some (Z.abs v))
             (Some (Z.abs w)) (Some (Z.abs s)) (Some (Z.abs s1)) (Some (Z.abs s2))
             (Some (Z.abs t1)) (Some (Z.abs t2)).

End views.

Module fixtures.

Import Small.

(** The with-check run of Bob for the secrets 2 and 2 and the point
    [B = 2·G], on the tape of [bob_2_2]. *)
Definition G2 : ECPoint := mkECPoint 13 27.
Definition piBWC_2_2 : mta.ProofBobWC :=
  mta.mkProofBobWC
    (Some (mta.mkProofBob (Some 9) (Some 37) (Some 9) (Some 136) (Some 36)
                          (Some 2) (Some 19) (Some 63) (Some 53) (Some 66)))
    (Some (mkECPoint 23 3)).
Definition bobWC_2_2 : mta.BobMidWCResult :=
  mta.mkBobMidWCResult (Some 9) (Some 97) (Some piBWC_2_2) None.

(** The ten parts of the encoding of [piB_6_3]. *)
Definition piB_6_3_parts : list (list Byte.byte) :=
  map big_Bytes [36; 37; 9; 121; 36; 2; 23; 63; 53; 66].

(** Resharing parameters whose party has no identity. *)
Definition reshare_anonymous : tss.ReSharingParameters :=
  {| tss.Parameters_ := Some {| tss.partyID := None;
                            tss.parties := Some (tss.mkPeerContext [alice; bob]);
                            tss.partyCount := 2; tss.threshold := 1;
                            tss.safePrimeGenTimeout := tss.defaultSafePrimeGenTimeout;
                            tss.unsafeKGIgnoreH1H2Dupes := false |};
     tss.newParties := Some (tss.mkPeerContext []);
     tss.newPartyCount := 0;
     tss.newThreshold := 0 |}.

End fixtures.

(* ================================================================== *)
(** * Verification: tss/params.go *)
(* ================================================================== *)

Module tss_proofs.

Import tss Small.

Lemma int_add_exact (a b : Z) : in_int (a + b) -> int_add a b = a + b.
Proof.
  unfold in_int, int_add, wrap_int, int_min, int_max. intros H.
  rewrite Z.mod_small by lia. lia.
Qed.

Lemma five_minutes : defaultSafePrimeGenTimeout = 300000000000.
Proof. reflexivity. Qed.

(** C9. A call of [NewParameters] without the optional timeout yields
    parameters whose [SafePrimeGenTimeout()] is 5 minutes (300 000 000 000
    nanoseconds); with exactly one optional timeout it is that value. *)
Theorem NewParameters_SafePrimeGenTimeout :
  forall (ctx : option PeerContext) (pid : option PartyID) (n t : Z),
    (exists p, NewParameters ctx pid n t [] = Returned (Some p) /\
               SafePrimeGenTimeout (Some p) = Returned (5 * Minute) /\
               5 * Minute = 300000000000) /\
    (forall d : Duration,
        exists p, NewParameters ctx pid n t [d] = Returned (Some p) /\
                  SafePrimeGenTimeout (Some p) = Returned d).
Proof.
  intros ctx pid n t. split.
  - eexists. split; [reflexivity|]. split; reflexivity.
  - intros d. eexists. split; reflexivity.
Qed.

Lemma In_twice {A} (p : A) (l1 l2 : list A) :
  In p l1 -> In p l2 ->
  exists u v w, l1 ++ l2 = u ++ p :: v ++ p :: w.
Proof.
  intros H1 H2.
  apply in_split in H1. destruct H1 as [u [v1 ->]].
  apply in_split in H2. destruct H2 as [v2 [w ->]].
  exists u, (v1 ++ v2), w.
  rewrite <- ?app_assoc. simpl. rewrite <- ?app_assoc. reflexivity.
Qed.

(** C10. For resharing parameters over an old and a new peer context,
    [OldAndNewParties] returns the old committee's party IDs followed by the
    new committee's, and [OldAndNewPartyCount] returns
    [partyCount + newPartyCount] (Go [int] addition; the exact sum whenever it
    fits an [int]).  A party of both committees therefore occurs twice in
    the list, and the count adds both committees in full. *)
Theorem OldAndNewParties_double_count :
  forall (rg : ReSharingParameters) (p : Parameters) (ctx newCtx : PeerContext),
    Parameters_ rg = Some p ->
    parties p = Some ctx ->
    newParties rg = Some newCtx ->
    OldAndNewParties (Some rg) = Returned (partyIDs ctx ++ partyIDs newCtx) /\
    OldAndNewPartyCount (Some rg)
      = Returned (int_add (partyCount p) (newPartyCount rg)) /\
    (in_int (partyCount p + newPartyCount rg) ->
     OldAndNewPartyCount (Some rg) = Returned (partyCount p + newPartyCount rg)) /\
    (forall P : PartyID,
        In P (partyIDs ctx) -> In P (partyIDs newCtx) ->
        exists u v w,
          OldAndNewParties (Some rg) = Returned (u ++ P :: v ++ P :: w)).
Proof.
  intros rg p ctx newCtx Hp Hctx Hnew.
  assert (HL : OldAndNewParties (Some rg) = Returned (partyIDs ctx ++ partyIDs newCtx)).
  { unfold OldAndNewParties, OldParties, NewParties, Parties, IDs. simpl.
    rewrite Hp. simpl. rewrite Hctx. simpl. rewrite Hnew. reflexivity. }
  assert (HC : OldAndNewPartyCount (Some rg)
               = Returned (int_add (partyCount p) (newPartyCount rg))).
  { unfold OldAndNewPartyCount, OldPartyCount, NewPartyCount. simpl.
    rewrite Hp. reflexivity. }
  repeat split; auto.
  - intros Hfit. rewrite HC, int_add_exact by assumption. reflexivity.
  - intros P H1 H2. destruct (In_twice P _ _ H1 H2) as [u [v [w E]]].
    exists u, v, w. rewrite HL, E. reflexivity.
Qed.

Lemma OldAndNewParties_double_count_witness :
  OldAndNewParties (Some reshare_2_to_2) = Returned [alice; bob; bob; carol] /\
  OldAndNewPartyCount (Some reshare_2_to_2) = Returned 4.
Proof.
  destruct (OldAndNewParties_double_count reshare_2_to_2 _
              (mkPeerContext [alice; bob]) (mkPeerContext [bob; carol])
              eq_refl eq_refl eq_refl) as [H1 [H2 _]].
  split; [exact H1 | exact H2].
Defined.

End tss_proofs.

(* ================================================================== *)
(** * Verification: the byte encoding of big integers *)
(* ================================================================== *)

Module bytes_proofs.

Lemma Z_of_byte_of_Z (z : Z) : Z_of_byte (byte_of_Z z) = z mod 256.
Proof.
  unfold Z_of_byte, byte_of_Z.
  assert (Hr : 0 <= z mod 256 < 256) by (apply Z.mod_pos_bound; lia).
  destruct (Byte.of_N (Z.to_N (z mod 256))) as [b|] eqn:E.
  - apply Byte.to_of_N in E. rewrite E. rewrite Z2N.id; lia.
  - apply Byte.of_N_None_iff in E. lia.
Qed.

Lemma be_digits_value (fuel : nat) :
  forall (n : Z) (acc : list Byte.byte),
    0 <= n < 256 ^ Z.of_nat fuel ->
    fold_left (fun a b => a * 256 + Z_of_byte b) (be_digits fuel n acc) 0
    = fold_left (fun a b => a * 256 + Z_of_byte b) acc n.
Proof.
  induction fuel as [|f IH]; intros n acc Hn.
  - simpl in *. assert (n = 0) by lia. subst. reflexivity.
  - cbn [be_digits]. destruct (n =? 0) eqn:E.
    + apply Z.eqb_eq in E. subst. reflexivity.
    + rewrite IH.
      * cbn [fold_left]. rewrite Z_of_byte_of_Z, Z.mod_mod by lia.
        f_equal. pose proof (Z.div_mod n 256 ltac:(lia)). lia.
      * rewrite Nat2Z.inj_succ, Z.pow_succ_r in Hn by lia.
        split; [apply Z.div_pos; lia|].
        apply Z.div_lt_upper_bound; lia.
Qed.

Lemma fuel_enough (n : Z) : 0 <= n -> n < 256 ^ Z.of_nat (S (Z.to_nat (Z.log2 n))).
Proof.
  intros Hn. rewrite Nat2Z.inj_succ, Z2Nat.id by apply Z.log2_nonneg.
  destruct (Z.eq_dec n 0) as [->|Hnz].
  - simpl. lia.
  - assert (Hlog : n < 2 ^ Z.succ (Z.log2 n)) by (apply Z.log2_spec; lia).
    eapply Z.lt_le_trans; [exact Hlog|].
    apply Z.pow_le_mono_l. lia.
Qed.

(** [SetBytes] inverts [Bytes] up to the sign, which [Bytes] drops. *)
Lemma SetBytes_Bytes (x : Z) : big_SetBytes (big_Bytes x) = Z.abs x.
Proof.
  unfold big_SetBytes, big_Bytes.
  rewrite be_digits_value.
  - reflexivity.
  - split; [lia|]. apply fuel_enough. lia.
Qed.

Lemma be_digits_length (fuel : nat) :
  forall n acc, (List.length acc <= List.length (be_digits fuel n acc))%nat.
Proof.
  induction fuel as [|f IH]; intros n acc; cbn [be_digits].
  - lia.
  - destruct (n =? 0); [lia|].
    specialize (IH (n / 256) (byte_of_Z (n mod 256) :: acc)).
    cbn [List.length] in IH. lia.
Qed.

Lemma Bytes_nonempty (x : Z) : x <> 0 -> big_Bytes x <> [].
Proof.
  intros Hx. unfold big_Bytes. cbn [be_digits].
  destruct (Z.abs x =? 0) eqn:E; [apply Z.eqb_eq in E; lia|].
  intros Hnil.
  pose proof (be_digits_length (Z.to_nat (Z.log2 (Z.abs x))) (Z.abs x / 256)
                [byte_of_Z (Z.abs x mod 256)]) as HL.
  rewrite Hnil in HL. simpl in HL. lia.
Qed.

Lemma Bytes_zero : big_Bytes 0 = [].
Proof. reflexivity. Qed.

Lemma NonEmptyBytes_iff (bz : list Byte.byte) : NonEmptyBytes bz = true <-> bz <> [].
Proof.
  unfold NonEmptyBytes. destruct bz; simpl; split; intros; try congruence; try lia.
  reflexivity.
Qed.

Lemma NonEmptyMultiBytes_iff (bzs : list (list Byte.byte)) (n : nat) :
  (0 < n)%nat ->
  NonEmptyMultiBytes bzs (Z.of_nat n) = true <-> statements.nonEmptyParts n bzs.
Proof.
  intros Hn. unfold NonEmptyMultiBytes, statements.nonEmptyParts.
  destruct (Z.of_nat (List.length bzs) =? 0) eqn:E0.
  - apply Z.eqb_eq in E0. split; [discriminate|]. intros [H _]. lia.
  - destruct (Z.of_nat n =? Z.of_nat (List.length bzs)) eqn:E1; simpl.
    + apply Z.eqb_eq in E1. rewrite forallb_forall, Forall_forall.
      split.
      * intros H. split; [lia|]. intros bz Hin. apply NonEmptyBytes_iff. auto.
      * intros [_ H] bz Hin. apply NonEmptyBytes_iff. auto.
    + apply Z.eqb_neq in E1. split; [discriminate|]. intros [H _]. lia.
Qed.

End bytes_proofs.

(* ================================================================== *)
(** * Verification: Bob's proofs *)
(* ================================================================== *)

Module proofs_wire.

Import mta bytes_proofs statements.

Lemma FromBytes_ok (bzs : list (list Byte.byte)) :
  (10 <= List.length bzs)%nat ->
  exists b0 b1 b2 b3 b4 b5 b6 b7 b8 b9 rest,
    bzs = b0 :: b1 :: b2 :: b3 :: b4 :: b5 :: b6 :: b7 :: b8 :: b9 :: rest.
Proof.
  intros H.
  do 10 (destruct bzs as [|? bzs]; [simpl in H; lia|]).
  repeat eexists.
Qed.

Lemma ProofBobFromBytes_shape (bzs : list (list Byte.byte)) :
  (exists pf, ProofBobFromBytes bzs = Returned (Ok pf)) <->
  (nonEmptyParts 10 bzs \/ nonEmptyParts 12 bzs).
Proof.
  unfold ProofBobFromBytes, ProofBobBytesParts, ProofBobWCBytesParts.
  change 10 with (Z.of_nat 10). change 12 with (Z.of_nat 12).
  pose proof (NonEmptyMultiBytes_iff bzs 10 ltac:(lia)) as H10.
  pose proof (NonEmptyMultiBytes_iff bzs 12 ltac:(lia)) as H12.
  destruct (NonEmptyMultiBytes bzs (Z.of_nat 10)) eqn:E10;
    destruct (NonEmptyMultiBytes bzs (Z.of_nat 12)) eqn:E12; cbn [negb andb].
  4: { split.
       - intros [pf Hpf]. discriminate.
       - intros [H|H]; [apply H10 in H | apply H12 in H]; discriminate. }
  all: assert (Hlen : (10 <= List.length bzs)%nat)
    by (first [ destruct (proj1 H10 eq_refl) as [Hl _]; lia
              | destruct (proj1 H12 eq_refl) as [Hl _]; lia ]).
  all: destruct (FromBytes_ok bzs Hlen)
    as (b0 & b1 & b2 & b3 & b4 & b5 & b6 & b7 & b8 & b9 & rest & ->).
  all: split; [intros _ | intros _; cbn; eexists; reflexivity].
  - left. apply H10. reflexivity.
  - left. apply H10. reflexivity.
  - right. apply H12. reflexivity.
Qed.

Lemma ProofBobFromBytes_error (bzs : list (list Byte.byte)) :
  ~ (nonEmptyParts 10 bzs \/ nonEmptyParts 12 bzs) ->
  exists e, ProofBobFromBytes bzs = Returned (Err e).
Proof.
  intros Hno. unfold ProofBobFromBytes, ProofBobBytesParts, ProofBobWCBytesParts.
  change 10 with (Z.of_nat 10). change 12 with (Z.of_nat 12).
  pose proof (NonEmptyMultiBytes_iff bzs 10 ltac:(lia)) as H10.
  pose proof (NonEmptyMultiBytes_iff bzs 12 ltac:(lia)) as H12.
  destruct (NonEmptyMultiBytes bzs (Z.of_nat 10)) eqn:E10.
  { exfalso. apply Hno. left. apply H10. reflexivity. }
  destruct (NonEmptyMultiBytes bzs (Z.of_nat 12)) eqn:E12.
  { exfalso. apply Hno. right. apply H12. reflexivity. }
  cbn [negb andb]. eexists. reflexivity.
Qed.

(** C7. [ProofBob.Bytes] returns the 10 parts Z, ZPrm, T, V, W, S, S1, S2,
    T1, T2 in this order; [ProofBobWC.Bytes] returns 12 parts, the same ten
    followed by U.X and U.Y at positions 10 and 11; [ProofBobFromBytes]
    succeeds exactly on arrays of 10 or of 12 non-empty parts and returns an
    error on every other array. *)
Theorem ProofBob_wire_encoding :
  forall (z zp t v w s s1 s2 t1 t2 : Z) (u : ECPoint),
    ProofBob_Bytes
      (Some (mkProofBob (Some z) (Some zp) (Some t) (Some v) (Some w)
                        (Some s) (Some s1) (Some s2) (Some t1) (Some t2)))
    = Returned [big_Bytes z; big_Bytes zp; big_Bytes t; big_Bytes v;
                big_Bytes w; big_Bytes s; big_Bytes s1; big_Bytes s2;
                big_Bytes t1; big_Bytes t2] /\
    ProofBobWC_Bytes
      (Some (mkProofBobWC
               (Some (mkProofBob (Some z) (Some zp) (Some t) (Some v) (Some w)
                                 (Some s) (Some s1) (Some s2) (Some t1) (Some t2)))
               (Some u)))
    = Returned [big_Bytes z; big_Bytes zp; big_Bytes t; big_Bytes v;
                big_Bytes w; big_Bytes s; big_Bytes s1; big_Bytes s2;
                big_Bytes t1; big_Bytes t2;
                big_Bytes (coordX u); big_Bytes (coordY u)] /\
    (forall bzs : list (list Byte.byte),
        (exists pf, ProofBobFromBytes bzs = Returned (Ok pf)) <->
        (nonEmptyParts 10 bzs \/ nonEmptyParts 12 bzs)) /\
    (forall bzs : list (list Byte.byte),
        ~ (nonEmptyParts 10 bzs \/ nonEmptyParts 12 bzs) ->
        exists e, ProofBobFromBytes bzs = Returned (Err e)).
Proof.
  intros. split; [reflexivity|]. split; [reflexivity|]. split.
  - apply ProofBobFromBytes_shape.
  - apply ProofBobFromBytes_error.
Qed.

Section Roundtrip.

Context {curve : Curve}.

(** C8. For a [ProofBobWC] whose ten integers are strictly positive and
    whose [U] is a point of the curve with strictly positive coordinates,
    [Bytes] yields 12 parts on which [ProofBobWCFromBytes] succeeds and
    returns the same ten integers and the same point. *)
Theorem ProofBobWC_roundtrip :
  forall (z zp t v w s s1 s2 t1 t2 ux uy : Z),
    0 < z -> 0 < zp -> 0 < t -> 0 < v -> 0 < w -> 0 < s ->
    0 < s1 -> 0 < s2 -> 0 < t1 -> 0 < t2 ->
    0 < ux -> 0 < uy -> isOnCurve ux uy = true ->
    let pf := mkProofBobWC
                (Some (mkProofBob (Some z) (Some zp) (Some t) (Some v) (Some w)
                                  (Some s) (Some s1) (Some s2) (Some t1) (Some t2)))
                (Some (mkECPoint ux uy)) in
    exists bzs,
      ProofBobWC_Bytes (Some pf) = Returned bzs /\
      List.length bzs = 12%nat /\
      ProofBobWCFromBytes bzs = Returned (Ok pf).
Proof.
  intros z zp t v w s s1 s2 t1 t2 ux uy Hz Hzp Ht Hv Hw Hs Hs1 Hs2 Ht1 Ht2 Hux Huy Hon pf.
  exists [big_Bytes z; big_Bytes zp; big_Bytes t; big_Bytes v;
          big_Bytes w; big_Bytes s; big_Bytes s1; big_Bytes s2;
          big_Bytes t1; big_Bytes t2; big_Bytes ux; big_Bytes uy].
  split; [reflexivity|]. split; [reflexivity|].
  unfold ProofBobWCFromBytes, ProofBobFromBytes.
  assert (H12 : NonEmptyMultiBytes
                  [big_Bytes z; big_Bytes zp; big_Bytes t; big_Bytes v;
                   big_Bytes w; big_Bytes s; big_Bytes s1; big_Bytes s2;
                   big_Bytes t1; big_Bytes t2; big_Bytes ux; big_Bytes uy]
                  ProofBobWCBytesParts = true).
  { apply (NonEmptyMultiBytes_iff _ 12); [lia|]. split; [reflexivity|].
    repeat (apply Forall_cons; [apply Bytes_nonempty; lia|]). apply Forall_nil. }
  rewrite H12. rewrite andb_false_r.
  cbn [index nth_error deref obind coordX coordY].
  rewrite !SetBytes_Bytes.
  rewrite !Z.abs_eq by lia.
  unfold NewECPoint. rewrite Hon. reflexivity.
Qed.

End Roundtrip.

Lemma ProofBobWC_roundtrip_witness :
  exists bzs,
    ProofBobWC_Bytes
      (Some (mkProofBobWC
               (Some (mkProofBob (Some 37) (Some 37) (Some 9) (Some 16) (Some 36)
                                 (Some 8) (Some 21) (Some 39) (Some 35) (Some 40)))
               (Some (mkECPoint 5 4)))) = Returned bzs /\
    List.length bzs = 12%nat /\
    ProofBobWCFromBytes (curve := Small.curve) bzs
    = Returned
        (Ok (mkProofBobWC
               (Some (mkProofBob (Some 37) (Some 37) (Some 9) (Some 16) (Some 36)
                                 (Some 8) (Some 21) (Some 39) (Some 35) (Some 40)))
               (Some (mkECPoint 5 4)))).
Proof.
  apply (ProofBobWC_roundtrip (curve := Small.curve)
           37 37 9 16 36 8 21 39 35 40 5 4); try lia; reflexivity.
Defined.

End proofs_wire.

Module proofs_bob.

Import mta statements.

Section Prover.

Context {curve : Curve} {hash : Hash} {rnd : RandSource}.

(** With no nil argument the prover draws its seven nonces and returns the
    proof built from them. *)
Lemma ProveBobWC_run (pk : PublicKey) (NTilde h1 h2 c1 c2 x y r : Z)
    (X : option ECPoint) (t : Tape) :
  exists (alpha rho sigma tau rhoPrm beta gamma : Z) (t1 t2 t3 t4 t5 t6 t7 : Tape),
    GetRandomPositiveInt (q * q * q) t = (alpha, t1) /\
    GetRandomPositiveInt (q * NTilde) t1 = (rho, t2) /\
    GetRandomPositiveInt (q * NTilde) t2 = (sigma, t3) /\
    GetRandomPositiveInt (q * q * q * NTilde) t3 = (tau, t4) /\
    GetRandomPositiveInt (q * q * q * NTilde) t4 = (rhoPrm, t5) /\
    GetRandomPositiveRelativelyPrimeInt (pkN pk) t5 = (beta, t6) /\
    GetRandomPositiveInt (q * q * q * (q * q * q) * q) t6 = (gamma, t7) /\
    let u := match X with
             | Some _ => ScalarBaseMult alpha
             | None => mkECPoint 0 0
             end in
    let z := ModInt_Mul NTilde (ModInt_Exp NTilde h1 x) (ModInt_Exp NTilde h2 rho) in
    let zPrm := ModInt_Mul NTilde (ModInt_Exp NTilde h1 alpha)
                                  (ModInt_Exp NTilde h2 rhoPrm) in
    let t' := ModInt_Mul NTilde (ModInt_Exp NTilde h1 y) (ModInt_Exp NTilde h2 sigma) in
    let v := ModInt_Mul (NSquare pk)
               (ModInt_Mul (NSquare pk) (ModInt_Exp (NSquare pk) c1 alpha)
                                        (ModInt_Exp (NSquare pk) (Gamma pk) gamma))
               (ModInt_Exp (NSquare pk) beta (pkN pk)) in
    let w := ModInt_Mul NTilde (ModInt_Exp NTilde h1 gamma) (ModInt_Exp NTilde h2 tau) in
    let e := challenge pk (option_map (fun X' => (X', u)) X) c1 c2 z zPrm t' v w in
    ProveBobWC (Some pk) (Some NTilde) (Some h1) (Some h2) (Some c1) (Some c2)
               (Some x) (Some y) (Some r) X t
    = Returned
        (Ok {| pf_ProofBob :=
                 Some {| pf_Z := Some z; pf_ZPrm := Some zPrm; pf_T := Some t';
                         pf_V := Some v; pf_W := Some w;
                         pf_S := Some (ModInt_Mul (pkN pk) (ModInt_Exp (pkN pk) r e) beta);
                         pf_S1 := Some (e * x + alpha);
                         pf_S2 := Some (e * rho + rhoPrm);
                         pf_T1 := Some (e * y + gamma);
                         pf_T2 := Some (e * sigma + tau) |};
               pf_U := Some u |}, t7).
Proof.
  unfold ProveBobWC, rbind, draw, rret.
  destruct (GetRandomPositiveInt (q * q * q) t) as [alpha t1] eqn:E1.
  destruct (GetRandomPositiveInt (q * NTilde) t1) as [rho t2] eqn:E2.
  destruct (GetRandomPositiveInt (q * NTilde) t2) as [sigma t3] eqn:E3.
  destruct (GetRandomPositiveInt (q * q * q * NTilde) t3) as [tau t4] eqn:E4.
  destruct (GetRandomPositiveInt (q * q * q * NTilde) t4) as [rhoPrm t5] eqn:E5.
  destruct (GetRandomPositiveRelativelyPrimeInt (pkN pk) t5) as [beta t6] eqn:E6.
  destruct (GetRandomPositiveInt (q * q * q * (q * q * q) * q) t6) as [gamma t7] eqn:E7.
  exists alpha, rho, sigma, tau, rhoPrm, beta, gamma, t1, t2, t3, t4, t5, t6, t7.
  repeat (split; [first [assumption | reflexivity]|]).
  reflexivity.
Qed.

Lemma ProveBobWC_nil (pk : option PublicKey) (NTilde h1 h2 c1 c2 x y r : option Z)
    (X : option ECPoint) (t : Tape) :
  anyNil pk NTilde h1 h2 c1 c2 x y r = true ->
  ProveBobWC pk NTilde h1 h2 c1 c2 x y r X t
  = Returned (Err "ProveBob() received a nil argument"%string, t).
Proof.
  unfold anyNil.
  destruct pk, NTilde, h1, h2, c1, c2, x, y, r; cbn; intros H;
    try discriminate; reflexivity.
Qed.

Lemma ProveBobWC_not_nil (pk : option PublicKey) (NTilde h1 h2 c1 c2 x y r : option Z)
    (X : option ECPoint) (t : Tape) :
  anyNil pk NTilde h1 h2 c1 c2 x y r = false ->
  exists pb u t',
    ProveBobWC pk NTilde h1 h2 c1 c2 x y r X t
    = Returned (Ok (mkProofBobWC (Some pb) (Some u)), t') /\
    (X = None -> u = mkECPoint 0 0).
Proof.
  unfold anyNil.
  destruct pk as [pk|], NTilde as [NTilde|], h1 as [h1|], h2 as [h2|],
           c1 as [c1|], c2 as [c2|], x as [x|], y as [y|], r as [r|];
    cbn [isNil orb]; intros H; try discriminate.
  destruct (ProveBobWC_run pk NTilde h1 h2 c1 c2 x y r X t)
    as (alpha & rho & sigma & tau & rhoPrm & beta & gamma &
        t1 & t2 & t3 & t4 & t5 & t6 & t7 & _ & _ & _ & _ & _ & _ & _ & Hrun).
  cbv zeta in Hrun. rewrite Hrun.
  do 3 eexists. split; [reflexivity|].
  intros ->. reflexivity.
Qed.

(** C6. [ProveBobWC], and with it [ProveBob], returns an error exactly when
    one of pk, NTilde, h1, h2, c1, c2, x, y, r is nil.  A nil [X] is not an
    error: the call then returns the proof without check, which is the one
    [ProveBob] hands out; its point [U] is (0, 0) and its response [S1] is
    built on the challenge that hashes neither [X] nor [u]. *)
Theorem ProveBobWC_nil_argument_policy :
  forall (pk : option PublicKey) (NTilde h1 h2 c1 c2 x y r : option Z)
         (X : option ECPoint) (t : Tape),
    ((exists e t', ProveBobWC pk NTilde h1 h2 c1 c2 x y r X t = Returned (Err e, t'))
     <-> anyNil pk NTilde h1 h2 c1 c2 x y r = true) /\
    ((exists e t', ProveBob pk NTilde h1 h2 c1 c2 x y r t = Returned (Err e, t'))
     <-> anyNil pk NTilde h1 h2 c1 c2 x y r = true) /\
    (anyNil pk NTilde h1 h2 c1 c2 x y r = false <->
     exists pb t',
       ProveBobWC pk NTilde h1 h2 c1 c2 x y r None t
       = Returned (Ok (mkProofBobWC (Some pb) (Some (mkECPoint 0 0))), t') /\
       ProveBob pk NTilde h1 h2 c1 c2 x y r t = Returned (Ok (Some pb), t')) /\
    (forall (pk' : PublicKey) (NTilde' h1' h2' c1' c2' x' y' r' : Z),
        exists pb t' z zPrm T V W,
          ProveBob (Some pk') (Some NTilde') (Some h1') (Some h2') (Some c1')
                   (Some c2') (Some x') (Some y') (Some r') t
          = Returned (Ok (Some pb), t') /\
          pf_Z pb = Some z /\ pf_ZPrm pb = Some zPrm /\ pf_T pb = Some T /\
          pf_V pb = Some V /\ pf_W pb = Some W /\
          pf_S1 pb
          = Some (challenge pk' None c1' c2' z zPrm T V W * x'
                  + fst (GetRandomPositiveInt (q * q * q) t))).
Proof.
  intros.
  assert (Hwc : forall (pk' : PublicKey) (NTilde' h1' h2' c1' c2' x' y' r' : Z),
        exists pb t' z zPrm T V W,
          ProveBob (Some pk') (Some NTilde') (Some h1') (Some h2') (Some c1')
                   (Some c2') (Some x') (Some y') (Some r') t
          = Returned (Ok (Some pb), t') /\
          pf_Z pb = Some z /\ pf_ZPrm pb = Some zPrm /\ pf_T pb = Some T /\
          pf_V pb = Some V /\ pf_W pb = Some W /\
          pf_S1 pb
          = Some (challenge pk' None c1' c2' z zPrm T V W * x'
                  + fst (GetRandomPositiveInt (q * q * q) t))).
  { intros.
    destruct (ProveBobWC_run pk' NTilde' h1' h2' c1' c2' x' y' r' None t)
      as (alpha & rho & sigma & tau & rhoPrm & beta & gamma &
          t1 & t2 & t3 & t4 & t5 & t6 & t7 & E1 & _ & _ & _ & _ & _ & _ & Hrun).
    cbv zeta in Hrun. unfold ProveBob, rbind. rewrite Hrun, E1.
    cbn [pf_ProofBob option_map fst].
    do 7 eexists. repeat split; reflexivity. }
  split; [|split; [|split; [|exact Hwc]]]; clear Hwc.
  all: destruct (anyNil pk NTilde h1 h2 c1 c2 x y r) eqn:E.
  all: try (pose proof (ProveBobWC_nil pk NTilde h1 h2 c1 c2 x y r X t E) as HX;
            pose proof (ProveBobWC_nil pk NTilde h1 h2 c1 c2 x y r None t E) as HN).
  all: try (destruct (ProveBobWC_not_nil pk NTilde h1 h2 c1 c2 x y r X t E)
              as (pb & u & t' & HX & _);
            destruct (ProveBobWC_not_nil pk NTilde h1 h2 c1 c2 x y r None t E)
              as (pb0 & u0 & t0 & HN & Hu);
            rewrite (Hu eq_refl) in HN).
  - split; [reflexivity|]. intros _. do 2 eexists. exact HX.
  - split; [|discriminate]. intros (e & t'' & H). rewrite HX in H. discriminate.
  - split; [reflexivity|]. intros _. unfold ProveBob, rbind. rewrite HN.
    do 2 eexists. reflexivity.
  - split; [|discriminate]. intros (e & t'' & H).
    unfold ProveBob, rbind in H. rewrite HN in H. discriminate.
  - split; [discriminate|]. intros (pb & t' & H & _). rewrite HN in H. discriminate.
  - split; [|reflexivity]. intros _. exists pb0, t0. split; [exact HN|].
    unfold ProveBob, rbind. rewrite HN. reflexivity.
Qed.

End Prover.

Section Verifier.

Context {curve : Curve} {hash : Hash}.

(** C5 fails on the code: [ProofBobWC.Verify] reads [pf.Z] before any check
    of its receiver, so a nil receiver, or a receiver whose embedded
    [ProofBob] is nil, panics as soon as the six arguments are present.  The
    sibling [ProofBob.Verify] does test its receiver and returns false. *)
Theorem ProofBobWC_Verify_panics_on_nil :
  forall (pk : PublicKey) (NTilde h1 h2 c1 c2 : Z) (X U : option ECPoint),
    ProofBobWC_Verify None (Some pk) (Some NTilde) (Some h1) (Some h2)
                      (Some c1) (Some c2) X = Panicked /\
    ProofBobWC_Verify (Some (mkProofBobWC None U)) (Some pk) (Some NTilde)
                      (Some h1) (Some h2) (Some c1) (Some c2) X = Panicked /\
    ProofBob_Verify None (Some pk) (Some NTilde) (Some h1) (Some h2)
                    (Some c1) (Some c2) = Returned false.
Proof.
  intros. repeat split; reflexivity.
Qed.

End Verifier.

End proofs_bob.

(* ================================================================== *)
(** * Verification: the MtA driver *)
(* ================================================================== *)

Module proofs_driver.

Import mta statements proofs_bob.

Section Driver.

Context {curve : Curve} {hash : Hash} {rnd : RandSource}
        {paillier : Paillier} {rps : RangeProofSystem}.

Lemma ProveBob_total (pk : option PublicKey) (NTilde h1 h2 c1 c2 x y r : option Z)
    (t : Tape) :
  exists res t', ProveBob pk NTilde h1 h2 c1 c2 x y r t = Returned (res, t').
Proof.
  unfold ProveBob, rbind.
  destruct (anyNil pk NTilde h1 h2 c1 c2 x y r) eqn:E.
  - rewrite (ProveBobWC_nil _ _ _ _ _ _ _ _ _ None t E). do 2 eexists. reflexivity.
  - destruct (ProveBobWC_not_nil _ _ _ _ _ _ _ _ _ None t E) as (pb & u & t' & H & _).
    rewrite H. do 2 eexists. reflexivity.
Qed.

Lemma q5_is_fifth_power : q * q * (q * q) * q = q ^ 5.
Proof. ring. Qed.

(** C2. When Alice's range proof verifies and no Paillier operation fails,
    [BobMid] draws [betaPrm] with [GetRandomPositiveInt(q^5)], hence from
    [0, q^5); encrypts it under [pkA] into [(cBetaPrm, cRand)]; returns
    [cB = HomoAdd(HomoMult(b, cA), cBetaPrm)], [beta = (0 - betaPrm) mod q],
    an element of [0, q), [betaPrm] itself, and as [piB] the result of
    [ProveBob] on the witness [(b, betaPrm, cRand)]. *)
Theorem BobMid_success_path :
  forall (RL : RandLaws) (Hq : 0 < q)
         (pk : PublicKey) (pf : option RangeProofAlice) (b cA : Z)
         (NTildeA h1A h2A NTildeB h1B h2B : option Z)
         (t t1 t2 : Tape) (betaPrm cBetaPrm cRand c cB : Z),
    RangeProofAlice_Verify pf (Some pk) NTildeB h1B h2B (Some cA) = Returned true ->
    GetRandomPositiveInt (q ^ 5) t = (betaPrm, t1) ->
    EncryptAndReturnRandomness pk betaPrm t1 = Returned (Ok (cBetaPrm, cRand), t2) ->
    HomoMult pk b cA = Ok c ->
    HomoAdd pk c cBetaPrm = Ok cB ->
    0 <= betaPrm < q ^ 5 /\
    0 <= (0 - betaPrm) mod q < q /\
    exists res t3,
      ProveBob (Some pk) NTildeA h1A h2A (Some cA) (Some cB) (Some b)
               (Some betaPrm) (Some cRand) t2 = Returned (res, t3) /\
      BobMid (Some pk) pf (Some b) (Some cA) NTildeA h1A h2A NTildeB h1B h2B t
      = Returned
          ({| bm_beta := Some ((0 - betaPrm) mod q);
              bm_cB := Some cB;
              bm_betaPrm := Some betaPrm;
              bm_piB := match res with Ok piB => piB | Err _ => None end;
              bm_err := match res with Ok _ => None | Err err => Some err end |},
           t3).
Proof.
  intros RL Hq pk pf b cA NTildeA h1A h2A NTildeB h1B h2B t t1 t2
         betaPrm cBetaPrm cRand c cB HV Hdraw Henc Hmul Hadd.
  split.
  { pose proof (GetRandomPositiveInt_range (q ^ 5) t
                  (Z.pow_pos_nonneg q 5 Hq ltac:(lia))) as Hr.
    rewrite Hdraw in Hr. exact Hr. }
  split.
  { apply Z.mod_pos_bound. exact Hq. }
  destruct (ProveBob_total (Some pk) NTildeA h1A h2A (Some cA) (Some cB) (Some b)
              (Some betaPrm) (Some cRand) t2) as (res & t3 & HP).
  exists res, t3. split; [exact HP|].
  unfold BobMid, rbind, lift, draw, rret.
  rewrite HV. cbn [negb deref].
  rewrite q5_is_fifth_power, Hdraw, Henc, Hmul, Hadd, HP.
  unfold ModInt_Sub, zero.
  destruct res; reflexivity.
Qed.

(** C4. [BobMid] and [BobMidWC] return an error and none of their values when
    [RangeProofAlice.Verify] returns false; [AliceEnd] and [AliceEndWC] return
    an error and no share when Bob's proof fails [Verify].  Conversely a
    returned value or share implies that the peer's proof verified. *)
Theorem MtA_aborts_on_invalid_proof :
  forall (pkA : option PublicKey),
    (forall pf b cA NTildeA h1A h2A NTildeB h1B h2B t,
        RangeProofAlice_Verify pf pkA NTildeB h1B h2B cA = Returned false ->
        BobMid pkA pf b cA NTildeA h1A h2A NTildeB h1B h2B t
        = Returned (mkBobMidResult None None None None
                      (Some "RangeProofAlice.Verify() returned false"%string), t)) /\
    (forall pf b cA NTildeA h1A h2A NTildeB h1B h2B B t,
        RangeProofAlice_Verify pf pkA NTildeB h1B h2B cA = Returned false ->
        BobMidWC pkA pf b cA NTildeA h1A h2A NTildeB h1B h2B B t
        = Returned (mkBobMidWCResult None None None
                      (Some "RangeProofAlice.Verify() returned false"%string), t)) /\
    (forall pf h1A h2A cA cB NTildeA sk,
        ProofBob_Verify pf pkA NTildeA h1A h2A cA cB = Returned false ->
        AliceEnd pkA pf h1A h2A cA cB NTildeA sk
        = Returned (Err "ProofBob.Verify() returned false"%string)) /\
    (forall pf B cA cB NTildeA h1A h2A sk,
        ProofBobWC_Verify pf pkA NTildeA h1A h2A cA cB B = Returned false ->
        AliceEndWC pkA pf B cA cB NTildeA h1A h2A sk
        = Returned (Err "ProofBobWC.Verify() returned false"%string)) /\
    (forall pf b cA NTildeA h1A h2A NTildeB h1B h2B t res t',
        BobMid pkA pf b cA NTildeA h1A h2A NTildeB h1B h2B t = Returned (res, t') ->
        bm_beta res <> None \/ bm_cB res <> None \/
        bm_betaPrm res <> None \/ bm_piB res <> None ->
        RangeProofAlice_Verify pf pkA NTildeB h1B h2B cA = Returned true) /\
    (forall pf b cA NTildeA h1A h2A NTildeB h1B h2B B t res t',
        BobMidWC pkA pf b cA NTildeA h1A h2A NTildeB h1B h2B B t = Returned (res, t') ->
        bw_betaPrm res <> None \/ bw_cB res <> None \/ bw_piB res <> None ->
        RangeProofAlice_Verify pf pkA NTildeB h1B h2B cA = Returned true) /\
    (forall pf h1A h2A cA cB NTildeA sk alpha,
        AliceEnd pkA pf h1A h2A cA cB NTildeA sk = Returned (Ok alpha) ->
        ProofBob_Verify pf pkA NTildeA h1A h2A cA cB = Returned true) /\
    (forall pf B cA cB NTildeA h1A h2A sk mu,
        AliceEndWC pkA pf B cA cB NTildeA h1A h2A sk = Returned (Ok mu) ->
        ProofBobWC_Verify pf pkA NTildeA h1A h2A cA cB B = Returned true).
Proof.
  intros pkA. repeat split.
  - intros * HV. unfold BobMid, rbind, lift. rewrite HV. reflexivity.
  - intros * HV. unfold BobMidWC, rbind, lift. rewrite HV. reflexivity.
  - intros * HV. unfold AliceEnd. rewrite HV. reflexivity.
  - intros * HV. unfold AliceEndWC. rewrite HV. reflexivity.
  - intros * HB Hval. unfold BobMid, rbind, lift in HB.
    destruct (RangeProofAlice_Verify pf pkA NTildeB h1B h2B cA) as [[|]|];
      [reflexivity| |discriminate].
    cbn in HB. inversion HB; subst res. cbn in Hval.
    destruct Hval as [H|[H|[H|H]]]; congruence.
  - intros * HB Hval. unfold BobMidWC, rbind, lift in HB.
    destruct (RangeProofAlice_Verify pf pkA NTildeB h1B h2B cA) as [[|]|];
      [reflexivity| |discriminate].
    cbn in HB. inversion HB; subst res. cbn in Hval.
    destruct Hval as [H|[H|H]]; congruence.
  - intros * HA. unfold AliceEnd in HA.
    destruct (ProofBob_Verify pf pkA NTildeA h1A h2A cA cB) as [[|]|];
      [reflexivity|discriminate|discriminate].
  - intros * HA. unfold AliceEndWC in HA.
    destruct (ProofBobWC_Verify pf pkA NTildeA h1A h2A cA cB B) as [[|]|];
      [reflexivity|discriminate|discriminate].
Qed.

End Driver.

End proofs_driver.

(* ================================================================== *)
(** * The small instances satisfy the contracts *)
(* ================================================================== *)

Module small_laws.

Import Small.

Lemma inGroup_spec (n v : Z) :
  inGroup n v = true -> 0 < v < n /\ Z.gcd v n = 1.
Proof.
  unfold inGroup. rewrite !andb_true_iff.
  intros [[H1 H2] H3].
  apply Z.ltb_lt in H1. apply Z.leb_le in H2. apply Z.eqb_eq in H3. lia.
Qed.

Lemma drawUnit_spec (n : Z) (t : list Z) :
  1 < n -> 0 < fst (drawUnit n t) < n /\ Z.gcd (fst (drawUnit n t)) n = 1.
Proof.
  intros Hn. induction t as [|x t IH]; cbn [drawUnit].
  - cbn [fst]. split; [lia|]. apply Z.gcd_1_l.
  - destruct (inGroup n (x mod n)) eqn:E.
    + cbn [fst]. apply inGroup_spec. exact E.
    + exact IH.
Qed.

#[export] Instance rnd_laws : RandLaws (H := rnd).
Proof.
  split.
  - intros n t Hn. cbn. unfold drawBelow. destruct t as [|x t]; cbn [fst].
    + lia.
    + apply Z.mod_pos_bound. exact Hn.
  - intros n t Hn. apply drawUnit_spec. exact Hn.
Qed.

#[export] Instance hash_laws : HashLaws (H := hash).
Proof.
  split. intros q h Hq. cbn. apply Z.mod_pos_bound. exact Hq.
Qed.

Lemma in_range (n : nat) (m : Z) :
  0 <= m < Z.of_nat n -> In m (map Z.of_nat (seq 0 n)).
Proof.
  intros H. apply in_map_iff. exists (Z.to_nat m). split; [lia|].
  apply in_seq. lia.
Qed.

(** Decryption inverts encryption on every plaintext and every unit. *)
Lemma decrypt15_table :
  forallb (fun m =>
    forallb (fun r =>
      negb (Z.gcd r 15 =? 1) ||
      match decrypt sk15 (ciphertext pk15 m r) with
      | Ok m' => m' =? m
      | Err _ => false
      end) (map Z.of_nat (seq 0 15))) (map Z.of_nat (seq 0 15)) = true.
Proof. vm_compute. reflexivity. Qed.

Lemma decrypt15_correct (m r c : Z) :
  IsEncryption pk15 m r c -> decrypt sk15 c = Ok m.
Proof.
  intros (Hm & (Hr & Hg) & ->). cbn [pkN pk15] in *.
  pose proof decrypt15_table as T.
  rewrite forallb_forall in T.
  specialize (T m (in_range 15 m Hm)).
  rewrite forallb_forall in T.
  specialize (T r (in_range 15 r ltac:(lia))).
  rewrite Hg in T. cbn [Z.eqb negb orb] in T.
  destruct (decrypt sk15 (ciphertext pk15 m r)); [|discriminate].
  apply Z.eqb_eq in T. congruence.
Qed.

#[export] Instance paillier15_laws : PaillierLaws (H0 := paillier) pk15 sk15.
Proof.
  split.
  - cbn. lia.
  - intros m c r t t' H.
    unfold EncryptAndReturnRandomness, paillier, encrypt in H. cbn [pkN pk15] in H.
    destruct ((m <? 0) || (15 <=? m)) eqn:E; [discriminate|].
    apply orb_false_iff in E. destruct E as [E1 E2].
    apply Z.ltb_ge in E1. apply Z.leb_gt in E2.
    pose proof (drawUnit_spec 15 t ltac:(lia)) as Hu.
    destruct (drawUnit 15 t) as [r0 t0]. cbn [fst] in Hu.
    inversion H; subst. split; [cbn; lia|]. split; [exact Hu|reflexivity].
  - intros k c c' _ H. unfold HomoMult, paillier in H. inversion H. reflexivity.
  - intros c1 c2 c' H. unfold HomoAdd, paillier in H. inversion H. reflexivity.
  - intros m r c H. exact (decrypt15_correct m r c H).
Qed.

End small_laws.

(* ================================================================== *)
(** * Arithmetic behind the Paillier homomorphism *)
(* ================================================================== *)

Module arith.

(** The first two terms of the binomial expansion, modulo [n²]. *)
Lemma pow_shift_sq (y t n : Z) (m : nat) :
  exists k,
    (y + t * n) ^ Z.of_nat (S m)
    = y ^ Z.of_nat (S m) + Z.of_nat (S m) * t * n * y ^ Z.of_nat m + k * (n * n).
Proof.
  induction m as [|m [k IH]].
  - exists 0. change (Z.of_nat 1) with 1. change (Z.of_nat 0) with 0.
    rewrite !Z.pow_1_r, Z.pow_0_r. ring.
  - exists (k * (y + t * n) + Z.of_nat (S m) * t * t * y ^ Z.of_nat m).
    replace (Z.of_nat (S (S m))) with (Z.succ (Z.of_nat (S m))) by lia.
    rewrite !Z.pow_succ_r by lia.
    rewrite IH.
    replace (Z.of_nat (S m)) with (Z.succ (Z.of_nat m)) by lia.
    rewrite !Z.pow_succ_r by lia. ring.
Qed.

(** Congruent bases give [n]-th powers congruent modulo [n²]. *)
Lemma pow_congr_sq (x y n : Z) :
  0 < n -> x mod n = y mod n -> (x ^ n) mod (n * n) = (y ^ n) mod (n * n).
Proof.
  intros Hn Hxy.
  assert (Ht : exists t, x = y + t * n).
  { exists (x / n - y / n).
    pose proof (Z.div_mod x n ltac:(lia)). pose proof (Z.div_mod y n ltac:(lia)).
    rewrite Z.mul_sub_distr_r. lia. }
  destruct Ht as [t ->].
  destruct (pow_shift_sq y t n (Z.to_nat (n - 1))) as [k Hk].
  replace (Z.of_nat (S (Z.to_nat (n - 1)))) with n in Hk by lia.
  rewrite Hk.
  replace (y ^ n + n * t * n * y ^ Z.of_nat (Z.to_nat (n - 1)) + k * (n * n))
    with (y ^ n + (t * y ^ Z.of_nat (Z.to_nat (n - 1)) + k) * (n * n)) by ring.
  apply Z.mod_add. lia.
Qed.

Lemma unit_pow_mul_mod (r r' b n : Z) :
  1 < n -> 0 <= b -> Z.gcd r n = 1 -> Z.gcd r' n = 1 ->
  0 < (r ^ b * r') mod n < n /\ Z.gcd ((r ^ b * r') mod n) n = 1.
Proof.
  intros Hn Hb Hr Hr'.
  assert (Hg : Z.gcd ((r ^ b * r') mod n) n = 1).
  { apply Z.coprime_mod_l_iff. apply Z.coprime_mul_l.
    - apply Z.coprime_pow_l; [exact Hb|exact Hr].
    - exact Hr'. }
  split; [|exact Hg].
  pose proof (Z.mod_pos_bound (r ^ b * r') n ltac:(lia)) as Hm.
  destruct (Z.eq_dec ((r ^ b * r') mod n) 0) as [E|E]; [|lia].
  rewrite E in Hg. rewrite Z.gcd_0_l in Hg. lia.
Qed.

(** [(1 + n)^n] is 1 modulo [n²], so exponents of [1 + n] count modulo [n]. *)
Lemma succ_pow_self_sq (n : Z) : 0 < n -> ((n + 1) ^ n) mod (n * n) = 1 mod (n * n).
Proof.
  intros Hn. rewrite (pow_congr_sq (n + 1) 1 n Hn).
  - rewrite Z.pow_1_l by lia. reflexivity.
  - rewrite <- (Z.mul_1_l n) at 1. rewrite Z.add_comm. apply Z.mod_add. lia.
Qed.

Lemma succ_pow_mod_sq (n m : Z) :
  0 < n -> 0 <= m ->
  ((n + 1) ^ m) mod (n * n) = ((n + 1) ^ (m mod n)) mod (n * n).
Proof.
  intros Hn Hm.
  assert (Hn2 : 0 < n * n) by (apply Z.mul_pos_pos; lia).
  pose proof (Z.mod_pos_bound m n Hn) as Hr.
  assert (Hd : 0 <= m / n) by (apply Z.div_pos; lia).
  rewrite (Z.div_mod m n) at 1 by lia.
  rewrite Z.pow_add_r by (try apply Z.mul_nonneg_nonneg; lia).
  rewrite Z.pow_mul_r by lia.
  rewrite Z.mul_mod by lia.
  rewrite <- (Z.mod_pow_l ((n + 1) ^ n)), succ_pow_self_sq by lia.
  rewrite Z.mod_pow_l, Z.pow_1_l by lia.
  rewrite <- Z.mul_mod by lia.
  rewrite Z.mul_1_l. reflexivity.
Qed.


End arith.

(* ================================================================== *)
(** * Verification: MtA correctness *)
(* ================================================================== *)

Module proofs_mta.

Import mta statements proofs_bob proofs_driver arith.

(** Bob's ciphertext encrypts [a·b + β'] reduced modulo [N]. *)
Lemma MtA_ciphertext (pk : PublicKey) (a rA b beta r' : Z) :
  1 < pkN pk ->
  0 <= a -> 0 <= b -> 0 <= beta ->
  inZNstar (pkN pk) rA -> inZNstar (pkN pk) r' ->
  IsEncryption pk ((a * b + beta) mod pkN pk) ((rA ^ b * r') mod pkN pk)
    ((((ciphertext pk a rA) ^ b) mod NSquare pk * ciphertext pk beta r')
       mod NSquare pk).
Proof.
  intros HN Ha Hb Hbeta [HrA HgA] [Hr' Hg'].
  assert (Hab : 0 <= a * b) by (apply Z.mul_nonneg_nonneg; assumption).
  split; [apply Z.mod_pos_bound; lia|]. split.
  { apply unit_pow_mul_mod; assumption. }
  unfold ciphertext, NSquare, Gamma.
  assert (Hn2 : 0 < pkN pk * pkN pk) by (apply Z.mul_pos_pos; lia).
  rewrite Z.mod_pow_l.
  rewrite <- Z.mul_mod by lia.
  rewrite (Z.mul_mod ((pkN pk + 1) ^ ((a * b + beta) mod pkN pk))) by lia.
  rewrite <- succ_pow_mod_sq by lia.
  rewrite (pow_congr_sq ((rA ^ b * r') mod pkN pk) (rA ^ b * r') (pkN pk))
    by (try lia; apply Z.mod_mod; lia).
  rewrite <- Z.mul_mod by lia.
  f_equal.
  rewrite !Z.pow_mul_l.
  rewrite Z.pow_add_r by assumption.
  rewrite (Z.pow_mul_r (pkN pk + 1) a b) by assumption.
  rewrite <- !(Z.pow_mul_r rA) by lia.
  rewrite (Z.mul_comm (pkN pk) b). ring.
Qed.

Section Correctness.

Context {curve : Curve} {hash : Hash} {rnd : RandSource}
        {paillier : Paillier} {rps : RangeProofSystem}.

(** What a run of [BobMid] without error has computed. *)
Lemma BobMid_inv (pk : PublicKey) (pf : option RangeProofAlice) (b cA : Z)
    (NTildeA h1A h2A NTildeB h1B h2B : option Z) (t t' : Tape) (res : BobMidResult) :
  BobMid (Some pk) pf (Some b) (Some cA) NTildeA h1A h2A NTildeB h1B h2B t
    = Returned (res, t') ->
  bm_err res = None ->
  exists betaPrm cBetaPrm cRand c cB t1 t2,
    GetRandomPositiveInt (q ^ 5) t = (betaPrm, t1) /\
    EncryptAndReturnRandomness pk betaPrm t1 = Returned (Ok (cBetaPrm, cRand), t2) /\
    HomoMult pk b cA = Ok c /\
    HomoAdd pk c cBetaPrm = Ok cB /\
    bm_beta res = Some ((0 - betaPrm) mod q) /\
    bm_cB res = Some cB /\
    bm_betaPrm res = Some betaPrm.
Proof.
  unfold BobMid, rbind, lift, draw, rret. intros H Herr.
  destruct (RangeProofAlice_Verify pf (Some pk) NTildeB h1B h2B (Some cA))
    as [[|]|]; cbn [negb] in H; [| |discriminate].
  2: { inversion H; subst. discriminate. }
  rewrite q5_is_fifth_power in H.
  destruct (GetRandomPositiveInt (q ^ 5) t) as [betaPrm t1] eqn:Edraw.
  cbn [deref] in H.
  destruct (EncryptAndReturnRandomness pk betaPrm t1)
    as [[[[cBetaPrm cRand]|e] t2]|] eqn:Eenc; [| |discriminate].
  2: { inversion H; subst. discriminate. }
  destruct (HomoMult pk b cA) as [c|e] eqn:Emul.
  2: { inversion H; subst. discriminate. }
  destruct (HomoAdd pk c cBetaPrm) as [cB|e] eqn:Eadd.
  2: { inversion H; subst. discriminate. }
  destruct (ProveBob (Some pk) NTildeA h1A h2A (Some cA) (Some cB) (Some b)
              (Some betaPrm) (Some cRand) t2) as [[[piB|e] t3]|]; [| |discriminate].
  2: { inversion H; subst. discriminate. }
  inversion H; subst.
  exists betaPrm, cBetaPrm, cRand, c, cB, t1, t2.
  repeat split; first [assumption | reflexivity].
Qed.

(** The shares of a successful run, whatever the size of the modulus:
    Alice's is [a·b + betaPrm] reduced modulo [N], then modulo [q]; Bob's is
    [-betaPrm] modulo [q]. *)
Lemma MtA_shares (pkA : PublicKey) (skA : PrivateKey) (PL : PaillierLaws pkA skA)
    (Hq : 0 < q) (a b rA cA : Z) (pf : option RangeProofAlice)
    (NTildeA h1A h2A NTildeB h1B h2B : option Z)
    (t1 t2 : Tape) (res : BobMidResult) (alpha : Z) :
  IsEncryption pkA a rA cA ->
  0 <= b ->
  BobMid (Some pkA) pf (Some b) (Some cA)
         NTildeA h1A h2A NTildeB h1B h2B t1 = Returned (res, t2) ->
  bm_err res = None ->
  AliceEnd (Some pkA) (bm_piB res) h1A h2A (Some cA) (bm_cB res) NTildeA
           (Some skA) = Returned (Ok alpha) ->
  exists betaPrm,
    bm_betaPrm res = Some betaPrm /\
    0 <= betaPrm < pkN pkA /\
    bm_beta res = Some ((0 - betaPrm) mod q) /\
    alpha = ((a * b + betaPrm) mod pkN pkA) mod q.
Proof.
  intros HencA Hb HBob Herr HAlice.
  destruct (BobMid_inv _ _ _ _ _ _ _ _ _ _ _ _ _ HBob Herr)
    as (betaPrm & cBetaPrm & cRand & c & cB & ta & tb &
        Hdraw & Henc & Hmul & Hadd & Hb1 & Hb2 & Hb3).
  exists betaPrm.
  rewrite Hb2 in HAlice.
  apply encrypt_law in Henc.
  apply homoMult_law in Hmul; [|exact Hb].
  apply homoAdd_law in Hadd.
  destruct HencA as (Ha & HrA & HcA).
  destruct Henc as (Hbp & Hr' & Hcb).
  assert (HcB : IsEncryption pkA ((a * b + betaPrm) mod pkN pkA)
                  ((rA ^ b * cRand) mod pkN pkA) cB).
  { subst cB c cA cBetaPrm.
    apply MtA_ciphertext; try assumption; try lia.
    apply modulus_gt_1. }
  apply decrypt_law in HcB.
  unfold AliceEnd in HAlice.
  destruct (ProofBob_Verify (bm_piB res) (Some pkA) NTildeA h1A h2A (Some cA) (Some cB))
    as [[|]|]; cbn [obind negb deref] in HAlice; try discriminate.
  rewrite HcB in HAlice. unfold big_Mod in HAlice.
  destruct (q =? 0) eqn:Eq0; [discriminate|].
  cbn [obind] in HAlice. inversion HAlice; subst alpha.
  rewrite Z.abs_eq by lia.
  repeat split; try assumption; apply Hbp.
Qed.

(** C1, as amended.  For a curve order [q > 0], a Paillier key pair obeying
    the laws of spec 4.1, secrets [a] (encrypted in [cA]) and [b >= 0]: if
    [AliceInit], [BobMid] and [AliceEnd] succeed in sequence and
    [a·b + betaPrm] is below the Paillier modulus [N], then
    [alpha + beta ≡ a·b (mod q)]. *)
Theorem MtA_correctness_below_modulus :
  forall (pkA : PublicKey) (skA : PrivateKey)
         (PL : PaillierLaws pkA skA) (Hq : 0 < q)
         (a b rA cA : Z) (NTildeA h1A h2A NTildeB h1B h2B : option Z)
         (t0 t1 t2 : Tape) (piA : RangeProofAlice) (res : BobMidResult)
         (alpha beta betaPrm : Z),
    IsEncryption pkA a rA cA ->
    0 <= b ->
    AliceInit (Some pkA) (Some a) (Some cA) (Some rA) NTildeB h1B h2B t0
      = Returned (Ok piA, t1) ->
    BobMid (Some pkA) (Some piA) (Some b) (Some cA)
           NTildeA h1A h2A NTildeB h1B h2B t1 = Returned (res, t2) ->
    bm_err res = None ->
    bm_beta res = Some beta ->
    bm_betaPrm res = Some betaPrm ->
    AliceEnd (Some pkA) (bm_piB res) h1A h2A (Some cA) (bm_cB res) NTildeA
             (Some skA) = Returned (Ok alpha) ->
    a * b + betaPrm < pkN pkA ->
    (alpha + beta) mod q = (a * b) mod q.
Proof.
  intros pkA skA PL Hq a b rA cA NTildeA h1A h2A NTildeB h1B h2B t0 t1 t2
         piA res alpha beta betaPrm HencA Hb _ HBob Herr Hbeta HbetaPrm HAlice Hfit.
  destruct (MtA_shares pkA skA PL Hq a b rA cA (Some piA)
              NTildeA h1A h2A NTildeB h1B h2B t1 t2 res alpha
              HencA Hb HBob Herr HAlice)
    as (bp & Hbp & Hrange & Hb1 & Halpha).
  rewrite Hbp in HbetaPrm. inversion HbetaPrm; subst bp.
  rewrite Hb1 in Hbeta. inversion Hbeta; subst beta.
  destruct HencA as (Ha & _ & _).
  assert (Hab : 0 <= a * b) by (apply Z.mul_nonneg_nonneg; lia).
  rewrite (Z.mod_small (a * b + betaPrm) (pkN pkA)) in Halpha by lia. subst alpha.
  rewrite Zplus_mod_idemp_l, Zplus_mod_idemp_r.
  f_equal. lia.
Qed.

End Correctness.

End proofs_mta.

(* ================================================================== *)
(** * Verification: binding of the with-check point *)
(* ================================================================== *)

Module proofs_binding.

Import mta statements proofs_bob arith.

Ltac step_checks H :=
  repeat match type of H with
         | (if ?c then Returned false else _) = Returned true =>
             destruct c eqn:?; [discriminate|]
         end.

Ltac step_total :=
  repeat match goal with
         | |- exists b, (if ?c then Returned false else _) = Returned b =>
             destruct c; [exists false; reflexivity|]
         end.

Section Verifier.

Context {curve : Curve} {hash : Hash}.


(** With a non-nil receiver, non-nil fields and a non-zero curve order the
    verifier returns a boolean. *)
Lemma Verify_total (pk : PublicKey) (NTilde h1 h2 c1 c2 : Z) (X' : option ECPoint)
    (U : ECPoint) (z zPrm T V W S' S1 S2 T1 T2 : Z) :
  q <> 0 ->
  exists b,
    ProofBobWC_Verify
      (Some (mkProofBobWC
               (Some (mkProofBob (Some z) (Some zPrm) (Some T) (Some V) (Some W)
                                 (Some S') (Some S1) (Some S2) (Some T1) (Some T2)))
               (Some U)))
      (Some pk) (Some NTilde) (Some h1) (Some h2) (Some c1) (Some c2) X'
    = Returned b.
Proof.
  intros Hq.
  unfold ProofBobWC_Verify, IsInInterval, big_Mod.
  cbn [deref obind pf_ProofBob pf_U pf_Z pf_ZPrm pf_T pf_V pf_W pf_S
       pf_S1 pf_S2 pf_T1 pf_T2].
  step_total.
  destruct X' as [X'|]; cbn [deref obind].
  - apply Z.eqb_neq in Hq. rewrite Hq. cbn [obind].
    destruct (ECAdd (ScalarMult X' (challenge pk (Some (X', U)) c1 c2 z zPrm T V W)) U)
      as [xEU|err]; cbn [obind negb].
    + step_total. exists true. reflexivity.
    + exists false. reflexivity.
  - cbn [negb]. step_total. exists true. reflexivity.
Qed.

End Verifier.

(** The honest prover's first Pedersen equation, over the integers. *)
Lemma pedersen_response (n h1 h2 x rho alpha rhoPrm e : Z) :
  0 < n -> 0 <= x -> 0 <= rho -> 0 <= alpha -> 0 <= rhoPrm -> 0 <= e ->
  ModInt_Mul n (ModInt_Exp n h1 (e * x + alpha)) (ModInt_Exp n h2 (e * rho + rhoPrm))
  = ModInt_Mul n
      (ModInt_Exp n (ModInt_Mul n (ModInt_Exp n h1 x) (ModInt_Exp n h2 rho)) e)
      (ModInt_Mul n (ModInt_Exp n h1 alpha) (ModInt_Exp n h2 rhoPrm)).
Proof.
  intros Hn Hx Hrho Halpha HrhoPrm He.
  unfold ModInt_Mul, ModInt_Exp.
  rewrite <- (Z.mul_mod (h1 ^ x) (h2 ^ rho)) by lia.
  rewrite <- (Z.mul_mod (h1 ^ alpha) (h2 ^ rhoPrm)) by lia.
  rewrite Z.mod_pow_l.
  rewrite <- !Z.mul_mod by lia.
  f_equal.
  rewrite !Z.pow_add_r by (try apply Z.mul_nonneg_nonneg; lia).
  rewrite !Z.pow_mul_l.
  rewrite (Z.mul_comm e x), (Z.mul_comm e rho).
  rewrite !Z.pow_mul_r by lia. ring.
Qed.


Section Binding.

Context {curve : Curve} {hash : Hash} {rnd : RandSource}.


End Binding.

End proofs_binding.

(* ================================================================== *)
(** * The statements on the small instance *)
(* ================================================================== *)

Module examples.

Import mta statements Small small_laws.
Import proofs_bob proofs_driver proofs_mta proofs_binding.

Lemma q_small : 0 < q.
Proof. reflexivity. Defined.

Lemma cA_6_is_encryption : IsEncryption pk15 6 rA0 cA_6.
Proof. repeat split; try (cbn; lia); reflexivity. Defined.

Lemma cA_2_is_encryption : IsEncryption pk15 2 rA0 cA_2.
Proof. repeat split; try (cbn; lia); reflexivity. Defined.

Example run_6_3 : runMtA 6 3 tape0 = Some (bob_6_3, Returned (Ok 5)).
Proof. vm_compute. reflexivity. Qed.

Example run_2_2 : runMtA 2 2 tape0 = Some (bob_2_2, Returned (Ok 6)).
Proof. vm_compute. reflexivity. Qed.

(** C1 fails as stated: under the key N = 15 and the curve order q = 7, with
    a = 6 and b = 3, the three steps succeed with alpha = 5 and beta = 5,
    and 5 + 5 = 3 (mod 7) while 6·3 = 4 (mod 7). *)
Lemma MtA_correctness_unconditional_fails :
  ~ MtA_correctness_unconditional.
Proof.
  intros H. unfold MtA_correctness_unconditional in H.
  assert (F : (5 + 5) mod q = (6 * 3) mod q).
  { apply (H pk15 sk15 paillier15_laws 6 3 rA0 cA_6
             (Some NTilde77) (Some h1_77) (Some h2_77)
             (Some NTilde77) (Some h1_77) (Some h2_77)
             tape0 tapeBob [] piA_6 bob_6_3 5 5).
    - exact cA_6_is_encryption.
    - vm_compute. reflexivity.
    - vm_compute. reflexivity.
    - reflexivity.
    - reflexivity.
    - vm_compute. reflexivity. }
  vm_compute in F. discriminate.
Qed.

Lemma MtA_correctness_below_modulus_witness :
  (6 + 5) mod q = (2 * 2) mod q.
Proof.
  apply (MtA_correctness_below_modulus (paillier := paillier) (rps := rps)
           pk15 sk15 paillier15_laws q_small
           2 2 rA0 cA_2
           (Some NTilde77) (Some h1_77) (Some h2_77)
           (Some NTilde77) (Some h1_77) (Some h2_77)
           tape0 tapeBob [] piA_2 bob_2_2 6 5 9).
  - exact cA_2_is_encryption.
  - lia.
  - vm_compute. reflexivity.
  - vm_compute. reflexivity.
  - reflexivity.
  - reflexivity.
  - reflexivity.
  - vm_compute. reflexivity.
  - cbn. lia.
Defined.

Lemma BobMid_success_path_witness :
  0 <= 9 < q ^ 5 /\
  0 <= (0 - 9) mod q < q /\
  exists res t3,
    ProveBob (Some pk15) (Some NTilde77) (Some h1_77) (Some h2_77)
             (Some cA_6) (Some 206) (Some 3) (Some 9) (Some 7)
             [11; 12; 13; 14; 15; 2; 17] = Returned (res, t3) /\
    BobMid (Some pk15) (Some piA_6) (Some 3) (Some cA_6)
           (Some NTilde77) (Some h1_77) (Some h2_77)
           (Some NTilde77) (Some h1_77) (Some h2_77) tapeBob
    = Returned
        ({| bm_beta := Some ((0 - 9) mod q);
            bm_cB := Some 206;
            bm_betaPrm := Some 9;
            bm_piB := match res with Ok piB => piB | Err _ => None end;
            bm_err := match res with Ok _ => None | Err err => Some err end |},
         t3).
Proof.
  apply (BobMid_success_path (paillier := paillier) (rps := rps)
           rnd_laws q_small pk15 (Some piA_6) 3 cA_6
           (Some NTilde77) (Some h1_77) (Some h2_77)
           (Some NTilde77) (Some h1_77) (Some h2_77)
           tapeBob [3; 7; 11; 12; 13; 14; 15; 2; 17] [11; 12; 13; 14; 15; 2; 17]
           9 73 7 197 206).
  - vm_compute. reflexivity.
  - reflexivity.
  - vm_compute. reflexivity.
  - vm_compute. reflexivity.
  - vm_compute. reflexivity.
Defined.

Lemma MtA_aborts_on_invalid_proof_witness :
  BobMid (Some pk15) None (Some 3) (Some cA_6)
         (Some NTilde77) (Some h1_77) (Some h2_77)
         (Some NTilde77) (Some h1_77) (Some h2_77) tapeBob
  = Returned (mkBobMidResult None None None None
                (Some "RangeProofAlice.Verify() returned false"%string), tapeBob) /\
  AliceEnd (Some pk15) None (Some h1_77) (Some h2_77) (Some cA_6) (Some 206)
           (Some NTilde77) (Some sk15)
  = Returned (Err "ProofBob.Verify() returned false"%string).
Proof.
  destruct (MtA_aborts_on_invalid_proof (paillier := paillier) (rps := rps)
              (Some pk15)) as (HB & _ & HA & _).
  split.
  - apply HB. reflexivity.
  - apply HA. reflexivity.
Defined.

Example pfWC_is_proved :
  ProveBobWC (Some pk15) (Some NTilde77) (Some h1_77) (Some h2_77)
             (Some cA_4) (Some 14) (Some 5) (Some 9) (Some 7) (Some X5) tapeWC
  = Returned (Ok pfWC, []).
Proof. vm_compute. reflexivity. Qed.

Example pfWC_accepted_for_X5 :
  ProofBobWC_Verify (Some pfWC) (Some pk15) (Some NTilde77) (Some h1_77) (Some h2_77)
                    (Some cA_4) (Some 14) (Some X5) = Returned true.
Proof. vm_compute. reflexivity. Qed.




(** The nil point [U] of a proof panics the with-check verifier once the
    range checks have passed. *)
Example Verify_panics_on_nil_U :
  ProofBobWC_Verify (Some (mkProofBobWC (pf_ProofBob pfWC) None)) (Some pk15)
                    (Some NTilde77) (Some h1_77) (Some h2_77)
                    (Some cA_4) (Some 14) (Some X5) = Panicked.
Proof. vm_compute. reflexivity. Qed.

(** A proof whose field [Z] is nil panics [ProofBob.Verify]. *)
Example Verify_panics_on_nil_field :
  ProofBob_Verify
    (Some (mkProofBob None (Some 37) (Some 9) (Some 16) (Some 36)
                      (Some 14) (Some 16) (Some 27) (Some 26) (Some 27)))
    (Some pk15) (Some NTilde77) (Some h1_77) (Some h2_77) (Some cA_4) (Some 14)
  = Panicked.
Proof. vm_compute. reflexivity. Qed.

(** An honest proof accepted for two points: the challenges recomputed for
    [X3] and for [X3'] coincide (both are 2), and twice the point of order 2
    is neutral. *)
Example honest_proof_accepted_for_two_points :
  ProveBobWC (Some pk15) (Some NTilde77) (Some h1_77) (Some h2_77)
             (Some cA_4) (Some 116) (Some 3) (Some 9) (Some 7) (Some X3) tapeWC
  = Returned (Ok pfWC3, []) /\
  X3 = ScalarBaseMult 3 /\
  X3' = ed_add X3 (mkECPoint 0 28) /\
  isOnCurve (coordX X3') (coordY X3') = true /\
  challengeFor pk15 X3 cA_4 116 pfWC3 = Some 2 /\
  challengeFor pk15 X3' cA_4 116 pfWC3 = Some 2 /\
  ProofBobWC_Verify (Some pfWC3) (Some pk15) (Some NTilde77) (Some h1_77) (Some h2_77)
                    (Some cA_4) (Some 116) (Some X3) = Returned true /\
  ProofBobWC_Verify (Some pfWC3) (Some pk15) (Some NTilde77) (Some h1_77) (Some h2_77)
                    (Some cA_4) (Some 116) (Some X3') = Returned true.
Proof. repeat split; vm_compute; reflexivity. Qed.

(** The failure of C3 on the flat proof does not depend on the hash: under
    every hash whose rejection sampling lands in [0, q) the prover returns the
    same proof, and the verifier accepts it for the neutral point. *)
Section AnyHash.

Context (hash' : Hash) (HL : HashLaws (H := hash')).

Ltac name_challenge e He :=
  match goal with
  | |- context [challenge ?a ?b ?c ?d ?e1 ?f ?g ?h ?i] =>
      pose proof (RejectionSample_range q
                    (match b with
                     | None => SHA512_256i (AsInts a ++ [c; d; e1; f; g; h; i])
                     | Some (X, u) =>
                         SHA512_256i (AsInts a ++ [coordX X; coordY X; c; d;
                                                   coordX u; coordY u; e1; f; g; h; i])
                     end) eq_refl) as He;
      change (0 <= challenge a b c d e1 f g h i < 7) in He;
      set (e := challenge a b c d e1 f g h i) in *; clearbody e
  end.

Lemma pfFlat_is_proved_any_hash :
  ProveBobWC (curve := curve) (hash := hash') (rnd := rnd)
             (Some pk15) (Some NTilde77) (Some h1_77) (Some h2_77)
             (Some cA_4) (Some 1) (Some 0) (Some 0) (Some 1) (Some ed_G) tapeFlat
  = Returned (Ok pfFlat, []).
Proof.
  destruct (ProveBobWC_run (curve := curve) (hash := hash') (rnd := rnd)
              pk15 NTilde77 h1_77 h2_77 cA_4 1 0 0 1 (Some ed_G) tapeFlat)
    as (alpha & rho & sigma & tau & rhoPrm & beta & gamma &
        t1 & t2 & t3 & t4 & t5 & t6 & t7 &
        E1 & E2 & E3 & E4 & E5 & E6 & E7 & Hrun).
  vm_compute in E1. inversion E1; subst alpha t1; clear E1.
  vm_compute in E2. inversion E2; subst rho t2; clear E2.
  vm_compute in E3. inversion E3; subst sigma t3; clear E3.
  vm_compute in E4. inversion E4; subst tau t4; clear E4.
  vm_compute in E5. inversion E5; subst rhoPrm t5; clear E5.
  vm_compute in E6. inversion E6; subst beta t6; clear E6.
  vm_compute in E7. inversion E7; subst gamma t7; clear E7.
  cbv zeta in Hrun. rewrite Hrun. clear Hrun.
  name_challenge e He.
  rewrite !Z.mul_0_r.
  replace (ModInt_Exp (pkN pk15) 1 e) with 1
    by (unfold ModInt_Exp; rewrite Z.pow_1_l by lia; reflexivity).
  reflexivity.
Qed.

Lemma pfFlat_accepted_any_hash :
  ProofBobWC_Verify (curve := curve) (hash := hash')
                    (Some pfFlat) (Some pk15) (Some NTilde77) (Some h1_77)
                    (Some h2_77) (Some cA_4) (Some 1) (Some ed_neutral)
  = Returned true.
Proof.
  unfold ProofBobWC_Verify, pfFlat.
  cbn [deref obind pf_ProofBob pf_U pf_Z pf_ZPrm pf_T pf_V pf_W pf_S
       pf_S1 pf_S2 pf_T1 pf_T2].
  name_challenge e He.
  assert (Hcases : e = 0 \/ e = 1 \/ e = 2 \/ e = 3 \/ e = 4 \/ e = 5 \/ e = 6) by lia.
  destruct Hcases as [->|[->|[->|[->|[->|[->| ->]]]]]]; vm_compute; reflexivity.
Qed.

Lemma binding_fails_under_any_hash :
  ~ binding_unconditional (curve := curve) (hash := hash') (rnd := rnd).
Proof.
  intros H. unfold binding_unconditional in H.
  assert (F : ProofBobWC_Verify (curve := curve) (hash := hash')
                (Some pfFlat) (Some pk15) (Some NTilde77)
                (Some h1_77) (Some h2_77) (Some cA_4) (Some 1) (Some ed_neutral)
              = Returned false).
  { apply (H pk15 NTilde77 h1_77 h2_77 cA_4 1 0 0 1 ed_G ed_neutral tapeFlat [] pfFlat).
    - exact pfFlat_is_proved_any_hash.
    - reflexivity.
    - discriminate. }
  rewrite pfFlat_accepted_any_hash in F. discriminate.
Qed.

End AnyHash.

End examples.

(* ================================================================== *)
(** * The small curve and key satisfy the further contracts *)
(* ================================================================== *)

Module small_group.

Import contracts small_laws.

Import Small.

Lemma Equals_eq (P Q : ECPoint) : Equals P Q = true -> P = Q.
Proof.
  destruct P as [x1 y1], Q as [x2 y2]. unfold Equals. cbn [coordX coordY].
  rewrite andb_true_iff, !Z.eqb_eq. intros [-> ->]. reflexivity.
Qed.

Lemma ed_mul_iter (P : ECPoint) (n : nat) :
  ed_mul P (Z.of_nat n) = Nat.iter n (ed_add P) ed_neutral.
Proof.
  unfold ed_mul. rewrite Z.abs_eq by lia.
  rewrite iter_nat_of_Z by lia. rewrite Zabs2Nat.id. reflexivity.
Qed.

(** The addition table of the subgroup generated by [ed_G]: the sum of
    [i·G] and [j·G] is [((i + j) mod 7)·G], a point of the curve. *)
Lemma subgroup_table :
  forallb (fun i =>
    forallb (fun j =>
      let R := ed_add (ed_mul ed_G i) (ed_mul ed_G j) in
      Equals R (ed_mul ed_G ((i + j) mod 7)) && ed_onCurve (coordX R) (coordY R))
      (map Z.of_nat (seq 0 7))) (map Z.of_nat (seq 0 7)) = true.
Proof. vm_compute. reflexivity. Qed.

Lemma subgroup_add (i j : Z) :
  0 <= i < 7 -> 0 <= j < 7 ->
  ed_add (ed_mul ed_G i) (ed_mul ed_G j) = ed_mul ed_G ((i + j) mod 7) /\
  ed_onCurve (coordX (ed_add (ed_mul ed_G i) (ed_mul ed_G j)))
             (coordY (ed_add (ed_mul ed_G i) (ed_mul ed_G j))) = true.
Proof.
  intros Hi Hj. pose proof subgroup_table as T.
  rewrite forallb_forall in T. specialize (T i (in_range 7 i Hi)).
  rewrite forallb_forall in T. specialize (T j (in_range 7 j Hj)).
  cbv zeta in T. apply andb_true_iff in T. destruct T as [T1 T2].
  split; [apply Equals_eq; exact T1 | exact T2].
Qed.

(** Multiples of a point of the subgroup stay in the subgroup. *)
Lemma subgroup_mul (i : Z) (n : nat) :
  0 <= i < 7 ->
  ed_mul (ed_mul ed_G i) (Z.of_nat n) = ed_mul ed_G ((Z.of_nat n * i) mod 7).
Proof.
  intros Hi. rewrite ed_mul_iter. induction n as [|n IH].
  - reflexivity.
  - rewrite Nat.iter_succ, IH.
    destruct (subgroup_add i ((Z.of_nat n * i) mod 7) Hi
                (Z.mod_pos_bound _ 7 ltac:(lia))) as [E _].
    rewrite E. f_equal. rewrite Zplus_mod_idemp_r. f_equal. lia.
Qed.

Lemma base_period (k : Z) : 0 <= k -> ed_mul ed_G (k mod 7) = ed_mul ed_G k.
Proof.
  intros Hk.
  pose proof (subgroup_mul 1 (Z.to_nat k) ltac:(lia)) as H.
  rewrite Z2Nat.id in H by lia. rewrite Z.mul_1_r in H.
  change (ed_mul ed_G 1) with ed_G in H. symmetry. exact H.
Qed.

#[export] Instance curve_laws : CurveLaws (H := curve).
Proof.
  split.
  - intros k Hk. cbn. apply base_period. exact Hk.
  - intros x e Hx He. cbn.
    rewrite <- (base_period x Hx).
    pose proof (subgroup_mul (x mod 7) (Z.to_nat e) (Z.mod_pos_bound x 7 ltac:(lia))) as H.
    rewrite Z2Nat.id in H by lia. rewrite H.
    rewrite Zmult_mod_idemp_r. apply base_period.
    apply Z.mul_nonneg_nonneg; assumption.
  - intros a b Ha Hb. unfold ECAdd, ScalarBaseMult, curve. cbv zeta.
    rewrite <- (base_period a Ha), <- (base_period b Hb).
    destruct (subgroup_add (a mod 7) (b mod 7)
                (Z.mod_pos_bound a 7 ltac:(lia)) (Z.mod_pos_bound b 7 ltac:(lia)))
      as [E On].
    rewrite On. rewrite E. rewrite <- Zplus_mod. rewrite base_period by lia.
    reflexivity.
Qed.

(** [DecryptAndRecoverRandomness] returns the plaintext and the randomness
    of every encryption under the key N = 15. *)
Lemma recover15_table :
  forallb (fun m =>
    forallb (fun r =>
      negb (Z.gcd r 15 =? 1) ||
      match DecryptAndRecoverRandomness sk15 (ciphertext pk15 m r) with
      | Ok (m', r') => (m' =? m) && (r' =? r)
      | Err _ => false
      end) (map Z.of_nat (seq 0 15))) (map Z.of_nat (seq 0 15)) = true.
Proof. vm_compute. reflexivity. Qed.

#[export] Instance recover15_laws : RecoverLaws (H0 := paillier) pk15 sk15.
Proof.
  split. intros m r c (Hm & (Hr & Hg) & ->). cbn [pkN pk15] in *.
  pose proof recover15_table as T.
  rewrite forallb_forall in T.
  specialize (T m (in_range 15 m Hm)).
  rewrite forallb_forall in T.
  specialize (T r (in_range 15 r ltac:(lia))).
  rewrite Hg in T. cbn [Z.eqb negb orb] in T.
  destruct (@DecryptAndRecoverRandomness rnd paillier sk15 (ciphertext pk15 m r))
    as [[m' r']|]; [|discriminate].
  apply andb_true_iff in T. destruct T as [T1 T2].
  apply Z.eqb_eq in T1, T2. subst. reflexivity.
Qed.

End small_group.

(* ================================================================== *)
(** * Verification: completeness of Bob's proofs *)
(* ================================================================== *)

Module completeness.

Import mta statements contracts arith proofs_bob proofs_binding.

Lemma coprime_sq (a n : Z) : Z.gcd a n = 1 -> Z.gcd a (n * n) = 1.
Proof. intros H. apply Z.coprime_mul_r; exact H. Qed.

Lemma coprime_of_sq (a n : Z) : Z.gcd a (n * n) = 1 -> Z.gcd a n = 1.
Proof.
  intros H.
  assert (Hd : (Z.gcd a n | 1)).
  { rewrite <- H. apply Z.gcd_greatest.
    - apply Z.gcd_divide_l.
    - apply Z.divide_trans with n; [apply Z.gcd_divide_r|]. apply Z.divide_factor_l. }
  apply Z.divide_1_r_nonneg in Hd; [exact Hd|apply Z.gcd_nonneg].
Qed.

Lemma coprime_succ (n : Z) : Z.gcd (n + 1) n = 1.
Proof.
  rewrite Z.gcd_comm, Z.add_comm.
  rewrite <- (Z.mul_1_l n) at 2. rewrite Z.gcd_add_mult_diag_r. apply Z.gcd_1_r.
Qed.

Lemma unit_nonzero (a n : Z) : 1 < n -> Z.gcd a n = 1 -> a <> 0.
Proof. intros Hn H ->. rewrite Z.gcd_0_l in H. lia. Qed.

(** A Pedersen commitment to units is a unit in range. *)
Lemma commit_unit (n h1 h2 a b : Z) :
  0 < n -> Z.gcd h1 n = 1 -> Z.gcd h2 n = 1 -> 0 <= a -> 0 <= b ->
  let c := ModInt_Mul n (ModInt_Exp n h1 a) (ModInt_Exp n h2 b) in
  0 <= c < n /\ Z.gcd c n = 1.
Proof.
  intros Hn H1 H2 Ha Hb c. subst c. unfold ModInt_Mul, ModInt_Exp.
  split; [apply Z.mod_pos_bound; exact Hn|].
  apply Z.coprime_mod_l_iff. apply Z.coprime_mul_l;
    apply Z.coprime_mod_l_iff; apply Z.coprime_pow_l; assumption.
Qed.


(** The honest prover's Paillier equation (step 7 of the verifier). *)
Lemma paillier_response (n c1 c2 x y r alpha beta gamma e : Z) :
  0 < n -> 0 <= x -> 0 <= y -> 0 <= alpha -> 0 <= gamma -> 0 <= e ->
  c2 mod (n * n) = (c1 ^ x * ((n + 1) ^ y * r ^ n)) mod (n * n) ->
  ModInt_Mul (n * n)
    (ModInt_Mul (n * n) (ModInt_Exp (n * n) c1 (e * x + alpha))
       (ModInt_Exp (n * n) (ModInt_Mul n (ModInt_Exp n r e) beta) n))
    (ModInt_Exp (n * n) (n + 1) (e * y + gamma))
  = ModInt_Mul (n * n) (ModInt_Exp (n * n) c2 e)
      (ModInt_Mul (n * n)
         (ModInt_Mul (n * n) (ModInt_Exp (n * n) c1 alpha)
            (ModInt_Exp (n * n) (n + 1) gamma))
         (ModInt_Exp (n * n) beta n)).
Proof.
  intros Hn Hx Hy Ha Hg He Hc2.
  assert (Hn2 : 0 < n * n) by (apply Z.mul_pos_pos; lia).
  unfold ModInt_Mul, ModInt_Exp.
  rewrite (pow_congr_sq (((r ^ e) mod n * beta) mod n) (r ^ e * beta) n Hn)
    by (rewrite Z.mod_mod by lia; apply Z.mul_mod_idemp_l; lia).
  rewrite <- (Z.mod_pow_l c2), Hc2, Z.mod_pow_l.
  rewrite <- (Z.mul_mod (c1 ^ (e * x + alpha))) by lia.
  rewrite <- (Z.mul_mod (c1 ^ (e * x + alpha) * (r ^ e * beta) ^ n)) by lia.
  rewrite <- (Z.mul_mod (c1 ^ alpha)) by lia.
  rewrite <- (Z.mul_mod (c1 ^ alpha * (n + 1) ^ gamma)) by lia.
  rewrite <- (Z.mul_mod ((c1 ^ x * ((n + 1) ^ y * r ^ n)) ^ e)) by lia.
  f_equal.
  rewrite !Z.pow_add_r by (try apply Z.mul_nonneg_nonneg; lia).
  rewrite !Z.pow_mul_l.
  rewrite (Z.mul_comm e x), (Z.mul_comm e y).
  rewrite !Z.pow_mul_r by lia.
  rewrite <- (Z.pow_mul_r r n e), (Z.mul_comm n e), (Z.pow_mul_r r e n) by lia.
  ring.
Qed.


Section Accept.

Context {curve : Curve} {hash : Hash}.

Ltac pass_check :=
  match goal with
  | |- (if ?c then Returned false else _) = _ =>
      let E := fresh "E" in
      destruct c eqn:E;
      [ exfalso; unfold one, zero in E;
        rewrite ?negb_true_iff, ?andb_false_iff, ?Z.ltb_ge, ?Z.leb_gt,
                ?Z.eqb_neq, ?Z.eqb_eq in E; lia
      | clear E ]
  end.

(** The verifier accepts exactly on the bounds of [S1] and [T1] once the
    group-membership conditions and the four equations hold. *)
Lemma Verify_accepts (pk : PublicKey) (NTilde h1 h2 c1 c2 : Z)
    (Xu : option (ECPoint * ECPoint)) (U0 : option ECPoint)
    (z zPrm T V W S' S1 S2 T1 T2 : Z) :
  0 <= z < NTilde -> 0 <= zPrm < NTilde -> 0 <= T < NTilde ->
  0 <= V < NSquare pk -> 0 <= W < NTilde -> 0 <= S' < pkN pk ->
  Z.gcd z NTilde = 1 -> Z.gcd zPrm NTilde = 1 -> Z.gcd T NTilde = 1 ->
  Z.gcd V (NSquare pk) = 1 -> Z.gcd W NTilde = 1 ->
  S' <> 0 -> Z.gcd S' (pkN pk) = 1 -> V <> 0 -> Z.gcd V (pkN pk) = 1 ->
  q <> 0 ->
  let e := challenge pk Xu c1 c2 z zPrm T V W in
  (forall X' U', Xu = Some (X', U') ->
     exists P, ECAdd (ScalarMult X' e) U' = Ok P /\
               Equals (ScalarBaseMult (S1 mod Z.abs q)) P = true) ->
  ModInt_Mul NTilde (ModInt_Exp NTilde h1 S1) (ModInt_Exp NTilde h2 S2)
  = ModInt_Mul NTilde (ModInt_Exp NTilde z e) zPrm ->
  ModInt_Mul NTilde (ModInt_Exp NTilde h1 T1) (ModInt_Exp NTilde h2 T2)
  = ModInt_Mul NTilde (ModInt_Exp NTilde T e) W ->
  ModInt_Mul (NSquare pk)
    (ModInt_Mul (NSquare pk) (ModInt_Exp (NSquare pk) c1 S1)
       (ModInt_Exp (NSquare pk) S' (pkN pk)))
    (ModInt_Exp (NSquare pk) (Gamma pk) T1)
  = ModInt_Mul (NSquare pk) (ModInt_Exp (NSquare pk) c2 e) V ->
  ProofBobWC_Verify
    (Some (mkProofBobWC
             (Some (mkProofBob (Some z) (Some zPrm) (Some T) (Some V) (Some W)
                               (Some S') (Some S1) (Some S2) (Some T1) (Some T2)))
             (match Xu with Some (_, U') => Some U' | None => U0 end)))
    (Some pk) (Some NTilde) (Some h1) (Some h2) (Some c1) (Some c2)
    (option_map fst Xu)
  = Returned (negb (S1 >? q * (q * q)) &&
              negb (T1 >? q * (q * q) * (q * (q * q)) * q)).
Proof.
  intros Rz Rzp RT RV RW RS Gz Gzp GT GV GW NS GS NV GVN Hq e H4 H5 H6 H7.
  unfold ProofBobWC_Verify, IsInInterval.
  cbn [deref obind pf_ProofBob pf_U pf_Z pf_ZPrm pf_T pf_V pf_W pf_S
       pf_S1 pf_S2 pf_T1 pf_T2].
  do 15 pass_check.
  destruct (S1 >? q * (q * q)); [reflexivity|].
  destruct (T1 >? q * (q * q) * (q * (q * q)) * q); [reflexivity|].
  cbn [negb andb].
  destruct Xu as [[X' U']|]; cbn [deref obind option_map fst] in *.
  - unfold big_Mod. apply Z.eqb_neq in Hq. rewrite Hq. cbn [obind].
    destruct (H4 X' U' eq_refl) as (P & HP & HE).
    fold e. rewrite HP. cbn [obind]. rewrite HE. cbn [negb].
    rewrite H5, H6, H7, !Z.eqb_refl. reflexivity.
  - cbn [negb]. fold e. rewrite H5, H6, H7, !Z.eqb_refl. reflexivity.
Qed.

End Accept.

Lemma bound_check (a q0 : Z) (k : Z) (b : Z) :
  b = q0 ^ k -> negb (a >? b) = (a <=? q0 ^ k).
Proof.
  intros ->. rewrite Z.gtb_ltb, Z.leb_antisym. reflexivity.
Qed.

Section Honest.

Context {curve : Curve} {hash : Hash} {rnd : RandSource}.

(** The proof that the prover builds from its nonces satisfies everything the
    verifier checks except, possibly, the two bounds. *)
Lemma honest_accepted (pk : PublicKey) (NTilde h1 h2 c1 c2 x y r : Z)
    (alpha rho sigma tau rhoPrm beta gamma : Z)
    (Xu : option (ECPoint * ECPoint)) (U0 : option ECPoint) :
  unitParams pk NTilde h1 h2 c1 r ->
  bobStatement pk c1 c2 x y r ->
  0 < q -> 0 <= x -> 0 <= y ->
  0 <= alpha -> 0 <= rho -> 0 <= sigma -> 0 <= tau -> 0 <= rhoPrm -> 0 <= gamma ->
  Z.gcd beta (pkN pk) = 1 ->
  let z := ModInt_Mul NTilde (ModInt_Exp NTilde h1 x) (ModInt_Exp NTilde h2 rho) in
  let zPrm := ModInt_Mul NTilde (ModInt_Exp NTilde h1 alpha)
                                (ModInt_Exp NTilde h2 rhoPrm) in
  let t' := ModInt_Mul NTilde (ModInt_Exp NTilde h1 y) (ModInt_Exp NTilde h2 sigma) in
  let v := ModInt_Mul (NSquare pk)
             (ModInt_Mul (NSquare pk) (ModInt_Exp (NSquare pk) c1 alpha)
                                      (ModInt_Exp (NSquare pk) (Gamma pk) gamma))
             (ModInt_Exp (NSquare pk) beta (pkN pk)) in
  let w := ModInt_Mul NTilde (ModInt_Exp NTilde h1 gamma) (ModInt_Exp NTilde h2 tau) in
  let e := challenge pk Xu c1 c2 z zPrm t' v w in
  0 <= e ->
  (forall X' U', Xu = Some (X', U') ->
     exists P, ECAdd (ScalarMult X' e) U' = Ok P /\
               Equals (ScalarBaseMult ((e * x + alpha) mod Z.abs q)) P = true) ->
  ProofBobWC_Verify
    (Some (mkProofBobWC
             (Some (mkProofBob (Some z) (Some zPrm) (Some t') (Some v) (Some w)
                      (Some (ModInt_Mul (pkN pk) (ModInt_Exp (pkN pk) r e) beta))
                      (Some (e * x + alpha)) (Some (e * rho + rhoPrm))
                      (Some (e * y + gamma)) (Some (e * sigma + tau))))
             (match Xu with Some (_, U') => Some U' | None => U0 end)))
    (Some pk) (Some NTilde) (Some h1) (Some h2) (Some c1) (Some c2)
    (option_map fst Xu)
  = Returned ((e * x + alpha <=? q ^ 3) && (e * y + gamma <=? q ^ 7)).
Proof.
  intros (HN & HNT & Gh1 & Gh2 & Gc1 & Gr) Hst Hq Hx Hy Ha Hrho Hsig Htau Hrp Hg Gb
         z zPrm t' v w e He H4.
  assert (HN2 : 1 < NSquare pk) by (unfold NSquare; nia).
  destruct (commit_unit NTilde h1 h2 x rho HNT Gh1 Gh2 Hx Hrho) as [Rz Gz].
  destruct (commit_unit NTilde h1 h2 alpha rhoPrm HNT Gh1 Gh2 Ha Hrp) as [Rzp Gzp].
  destruct (commit_unit NTilde h1 h2 y sigma HNT Gh1 Gh2 Hy Hsig) as [Rt Gt].
  destruct (commit_unit NTilde h1 h2 gamma tau HNT Gh1 Gh2 Hg Htau) as [Rw Gw].
  assert (Rv : 0 <= v < NSquare pk) by (apply Z.mod_pos_bound; lia).
  assert (Gv : Z.gcd v (NSquare pk) = 1).
  { unfold v, ModInt_Mul, ModInt_Exp, NSquare, Gamma.
    apply Z.coprime_mod_l_iff. apply Z.coprime_mul_l.
    - apply Z.coprime_mod_l_iff. apply Z.coprime_mul_l;
        apply Z.coprime_mod_l_iff; apply Z.coprime_pow_l; try assumption;
        apply coprime_sq; [exact Gc1|apply coprime_succ].
    - apply Z.coprime_mod_l_iff. apply Z.coprime_pow_l; [lia|].
      apply coprime_sq. exact Gb. }
  set (s := ModInt_Mul (pkN pk) (ModInt_Exp (pkN pk) r e) beta).
  assert (Rs : 0 <= s < pkN pk) by (apply Z.mod_pos_bound; lia).
  assert (Gs : Z.gcd s (pkN pk) = 1).
  { unfold s, ModInt_Mul, ModInt_Exp.
    apply Z.coprime_mod_l_iff. apply Z.coprime_mul_l; [|exact Gb].
    apply Z.coprime_mod_l_iff. apply Z.coprime_pow_l; assumption. }
  rewrite <- (bound_check (e * x + alpha) q 3 (q * (q * q))) by ring.
  rewrite <- (bound_check (e * y + gamma) q 7 (q * (q * q) * (q * (q * q)) * q)) by ring.
  apply Verify_accepts; try assumption; try lia.
  - exact (unit_nonzero s (pkN pk) HN Gs).
  - exact (unit_nonzero v (NSquare pk) HN2 Gv).
  - apply coprime_of_sq. exact Gv.
  - apply pedersen_response; assumption.
  - apply pedersen_response; assumption.
  - apply paillier_response; try assumption; lia.
Qed.


Lemma draws_nonneg (RL : RandLaws) (pk : PublicKey) (NTilde : Z)
    (alpha rho sigma tau rhoPrm beta gamma : Z) (t t1 t2 t3 t4 t5 t6 t7 : Tape) :
  0 < q -> 0 < NTilde -> 1 < pkN pk ->
  GetRandomPositiveInt (q * q * q) t = (alpha, t1) ->
  GetRandomPositiveInt (q * NTilde) t1 = (rho, t2) ->
  GetRandomPositiveInt (q * NTilde) t2 = (sigma, t3) ->
  GetRandomPositiveInt (q * q * q * NTilde) t3 = (tau, t4) ->
  GetRandomPositiveInt (q * q * q * NTilde) t4 = (rhoPrm, t5) ->
  GetRandomPositiveRelativelyPrimeInt (pkN pk) t5 = (beta, t6) ->
  GetRandomPositiveInt (q * q * q * (q * q * q) * q) t6 = (gamma, t7) ->
  0 <= alpha /\ 0 <= rho /\ 0 <= sigma /\ 0 <= tau /\ 0 <= rhoPrm /\
  0 <= gamma /\ Z.gcd beta (pkN pk) = 1.
Proof.
  intros Hq HNT HN E1 E2 E3 E4 E5 E6 E7.
  assert (Hq3 : 0 < q * q * q) by (repeat apply Z.mul_pos_pos; exact Hq).
  assert (Hq7 : 0 < q * q * q * (q * q * q) * q) by (repeat apply Z.mul_pos_pos; assumption).
  pose proof (GetRandomPositiveInt_range _ t Hq3) as R1.
  pose proof (GetRandomPositiveInt_range _ t1 (Z.mul_pos_pos _ _ Hq HNT)) as R2.
  pose proof (GetRandomPositiveInt_range _ t2 (Z.mul_pos_pos _ _ Hq HNT)) as R3.
  pose proof (GetRandomPositiveInt_range _ t3 (Z.mul_pos_pos _ _ Hq3 HNT)) as R4.
  pose proof (GetRandomPositiveInt_range _ t4 (Z.mul_pos_pos _ _ Hq3 HNT)) as R5.
  pose proof (GetRandomPositiveRelativelyPrimeInt_unit _ t5 HN) as R6.
  pose proof (GetRandomPositiveInt_range _ t6 Hq7) as R7.
  rewrite E1 in R1. rewrite E2 in R2. rewrite E3 in R3. rewrite E4 in R4.
  rewrite E5 in R5. rewrite E6 in R6. rewrite E7 in R7.
  cbn [fst] in *. repeat split; try apply R1; try apply R2; try apply R3;
    try apply R4; try apply R5; try apply R6; try apply R7.
Qed.

(** The proof without check of an honest prover: the verifier answers the
    test of the two bounds. *)
Lemma ProveBobWC_nocheck_verified (RL : RandLaws) (HL : HashLaws) (Hq : 0 < q)
    (pk : PublicKey) (NTilde h1 h2 c1 c2 x y r : Z) (t t' : Tape) (pf : ProofBobWC) :
  unitParams pk NTilde h1 h2 c1 r ->
  bobStatement pk c1 c2 x y r ->
  0 <= x -> 0 <= y ->
  ProveBobWC (Some pk) (Some NTilde) (Some h1) (Some h2) (Some c1) (Some c2)
             (Some x) (Some y) (Some r) None t = Returned (Ok pf, t') ->
  exists pb s1 t1,
    pf_ProofBob pf = Some pb /\ pf_S1 pb = Some s1 /\ pf_T1 pb = Some t1 /\
    0 <= s1 /\ 0 <= t1 /\
    ProofBob_Verify (Some pb) (Some pk) (Some NTilde) (Some h1) (Some h2)
                    (Some c1) (Some c2)
    = Returned ((s1 <=? q ^ 3) && (t1 <=? q ^ 7)).
Proof.
  intros HU Hst Hx Hy Hprove.
  destruct (ProveBobWC_run pk NTilde h1 h2 c1 c2 x y r None t)
    as (alpha & rho & sigma & tau & rhoPrm & beta & gamma &
        t1 & t2 & t3 & t4 & t5 & t6 & t7 &
        E1 & E2 & E3 & E4 & E5 & E6 & E7 & Hrun).
  cbv zeta in Hrun. rewrite Hrun in Hprove.
  inversion Hprove; subst pf t'. clear Hprove Hrun.
  destruct HU as (HN & HNT & HU).
  destruct (draws_nonneg RL pk NTilde alpha rho sigma tau rhoPrm beta gamma
              t t1 t2 t3 t4 t5 t6 t7 Hq HNT HN E1 E2 E3 E4 E5 E6 E7)
    as (Ha & Hrho & Hsig & Htau & Hrp & Hg & Gb).
  match goal with
  | |- context [challenge ?a ?b ?c ?d ?e1 ?f ?g ?h ?i] =>
      assert (He : 0 <= challenge a b c d e1 f g h i < q)
        by (apply RejectionSample_range; exact Hq)
  end.
  do 3 eexists. split; [reflexivity|]. split; [reflexivity|]. split; [reflexivity|].
  split; [apply Z.add_nonneg_nonneg; [apply Z.mul_nonneg_nonneg|]; lia|].
  split; [apply Z.add_nonneg_nonneg; [apply Z.mul_nonneg_nonneg|]; lia|].
  unfold ProofBob_Verify. cbn [option_map].
  apply (honest_accepted pk NTilde h1 h2 c1 c2 x y r
           alpha rho sigma tau rhoPrm beta gamma None None);
    try assumption.
  - repeat split; try assumption; apply HU.
  - apply RejectionSample_range. exact Hq.
  - intros X' U' HXU. discriminate.
Qed.

(** X1. Completeness of the proof without check, with its exact error.  Let
    the public parameters be units ([N > 1], [NTilde > 0], [h1], [h2]
    coprime to [NTilde], [c1] and [r] coprime to [N]), let
    [c2 = c1^x · Γ^y · r^N (mod N²)] with [x, y >= 0], let the samplers and
    the rejection sampling keep their ranges and [q > 0].  Then on every
    proof that [ProveBob] returns, [ProofBob.Verify] returns exactly the
    outcome of the two bound tests [S1 <= q³] and [T1 <= q⁷] (both
    responses are non-negative): the honest proof is accepted when, and
    only when, the responses did not overshoot the bounds. *)
Theorem ProveBob_accepted_iff_bounds :
  forall (RL : RandLaws) (HL : HashLaws) (Hq : 0 < q)
         (pk : PublicKey) (NTilde h1 h2 c1 c2 x y r : Z) (t t' : Tape)
         (pb : ProofBob),
    unitParams pk NTilde h1 h2 c1 r ->
    bobStatement pk c1 c2 x y r ->
    0 <= x -> 0 <= y ->
    ProveBob (Some pk) (Some NTilde) (Some h1) (Some h2) (Some c1) (Some c2)
             (Some x) (Some y) (Some r) t = Returned (Ok (Some pb), t') ->
    exists s1 t1,
      pf_S1 pb = Some s1 /\ pf_T1 pb = Some t1 /\
      0 <= s1 /\ 0 <= t1 /\
      ProofBob_Verify (Some pb) (Some pk) (Some NTilde) (Some h1) (Some h2)
                      (Some c1) (Some c2)
      = Returned ((s1 <=? q ^ 3) && (t1 <=? q ^ 7)).
Proof.
  intros RL HL Hq pk NTilde h1 h2 c1 c2 x y r t t' pb HU Hst Hx Hy Hprove.
  unfold ProveBob, rbind in Hprove.
  destruct (ProveBobWC (Some pk) (Some NTilde) (Some h1) (Some h2) (Some c1)
              (Some c2) (Some x) (Some y) (Some r) None t)
    as [[[pf|e] t0]|] eqn:Hwc; try discriminate.
  inversion Hprove; subst t0. clear Hprove.
  destruct (ProveBobWC_nocheck_verified RL HL Hq pk NTilde h1 h2 c1 c2 x y r
              t t' pf HU Hst Hx Hy Hwc)
    as (pb' & s1 & t1 & Hpb & Hs1 & Ht1 & Hs1' & Ht1' & HV).
  rewrite Hpb in H0. inversion H0; subst pb'.
  exists s1, t1.
  split; [exact Hs1|]. split; [exact Ht1|]. split; [exact Hs1'|].
  split; [exact Ht1'|]. rewrite ?Hpb. exact HV.
Qed.

Section WithCheck.

Context {CL : CurveLaws}.

Lemma Equals_refl (P : ECPoint) : Equals P P = true.
Proof. unfold Equals. rewrite !Z.eqb_refl. reflexivity. Qed.

(** The proof with check of an honest prover for the point [x·G]: the
    verifier answers the test of the two bounds. *)
Lemma ProveBobWC_check_verified :
  forall (RL : RandLaws) (HL : HashLaws) (Hq : 0 < q)
         (pk : PublicKey) (NTilde h1 h2 c1 c2 x y r : Z) (t t' : Tape)
         (pf : ProofBobWC),
    unitParams pk NTilde h1 h2 c1 r ->
    bobStatement pk c1 c2 x y r ->
    0 <= x -> 0 <= y ->
    ProveBobWC (Some pk) (Some NTilde) (Some h1) (Some h2) (Some c1) (Some c2)
               (Some x) (Some y) (Some r) (Some (ScalarBaseMult x)) t
    = Returned (Ok pf, t') ->
    exists pb s1 t1,
      pf_ProofBob pf = Some pb /\ pf_S1 pb = Some s1 /\ pf_T1 pb = Some t1 /\
      ProofBobWC_Verify (Some pf) (Some pk) (Some NTilde) (Some h1) (Some h2)
                        (Some c1) (Some c2) (Some (ScalarBaseMult x))
      = Returned ((s1 <=? q ^ 3) && (t1 <=? q ^ 7)).
Proof.
  intros RL HL Hq pk NTilde h1 h2 c1 c2 x y r t t' pf HU Hst Hx Hy Hprove.
  destruct (ProveBobWC_run pk NTilde h1 h2 c1 c2 x y r (Some (ScalarBaseMult x)) t)
    as (alpha & rho & sigma & tau & rhoPrm & beta & gamma &
        t1 & t2 & t3 & t4 & t5 & t6 & t7 &
        E1 & E2 & E3 & E4 & E5 & E6 & E7 & Hrun).
  cbv zeta in Hrun. rewrite Hrun in Hprove.
  inversion Hprove; subst pf t'. clear Hprove Hrun.
  destruct HU as (HN & HNT & HU).
  destruct (draws_nonneg RL pk NTilde alpha rho sigma tau rhoPrm beta gamma
              t t1 t2 t3 t4 t5 t6 t7 Hq HNT HN E1 E2 E3 E4 E5 E6 E7)
    as (Ha & Hrho & Hsig & Htau & Hrp & Hg & Gb).
  do 3 eexists. split; [reflexivity|]. split; [reflexivity|]. split; [reflexivity|].
  cbn [option_map].
  apply (honest_accepted pk NTilde h1 h2 c1 c2 x y r
           alpha rho sigma tau rhoPrm beta gamma
           (Some (ScalarBaseMult x, ScalarBaseMult alpha)) None);
    try assumption.
  - repeat split; try assumption; apply HU.
  - apply RejectionSample_range. exact Hq.
  - intros X' U' HXU. inversion HXU; subst X' U'. clear HXU.
    match goal with
    | |- context [challenge ?a ?b ?c ?d ?e1 ?f ?g ?h ?i] =>
        set (e := challenge a b c d e1 f g h i)
    end.
    assert (He : 0 <= e < q) by (apply RejectionSample_range; exact Hq).
    exists (ScalarBaseMult (e * x + alpha)). split.
    + rewrite scalar_mult_base by lia. apply add_base; [|exact Ha].
      apply Z.mul_nonneg_nonneg; lia.
    + rewrite Z.abs_eq by lia. rewrite base_mult_mod.
      * apply Equals_refl.
      * assert (0 <= e * x) by (apply Z.mul_nonneg_nonneg; lia). lia.
Qed.

(** X2. Completeness of the proof with check.  For unit parameters, a
    ciphertext [c2 = c1^x · Γ^y · r^N (mod N²)] with [x, y >= 0], samplers
    and rejection sampling in range, [q > 0] and a curve obeying the group
    laws, for the point [X = x·G]: on every
    proof that [ProveBobWC] returns for [X], [ProofBobWC.Verify] called
    with [X] returns exactly the outcome of the bound tests [S1 <= q³] and
    [T1 <= q⁷]; in particular the point equation
    [(S1 mod q)·G = e·X + U] holds for the honest proof. *)
Theorem ProveBobWC_accepted_iff_bounds :
  forall (RL : RandLaws) (HL : HashLaws) (Hq : 0 < q)
         (pk : PublicKey) (NTilde h1 h2 c1 c2 x y r : Z) (X : ECPoint)
         (t t' : Tape) (pf : ProofBobWC),
    unitParams pk NTilde h1 h2 c1 r ->
    bobStatement pk c1 c2 x y r ->
    0 <= x -> 0 <= y ->
    X = ScalarBaseMult x ->
    ProveBobWC (Some pk) (Some NTilde) (Some h1) (Some h2) (Some c1) (Some c2)
               (Some x) (Some y) (Some r) (Some X) t
    = Returned (Ok pf, t') ->
    exists pb s1 t1,
      pf_ProofBob pf = Some pb /\ pf_S1 pb = Some s1 /\ pf_T1 pb = Some t1 /\
      ProofBobWC_Verify (Some pf) (Some pk) (Some NTilde) (Some h1) (Some h2)
                        (Some c1) (Some c2) (Some X)
      = Returned ((s1 <=? q ^ 3) && (t1 <=? q ^ 7)).
Proof.
  intros RL HL Hq pk NTilde h1 h2 c1 c2 x y r X t t' pf HU Hst Hx Hy -> Hprove.
  exact (ProveBobWC_check_verified RL HL Hq pk NTilde h1 h2 c1 c2 x y r t t' pf
           HU Hst Hx Hy Hprove).
Qed.

End WithCheck.

End Honest.

End completeness.

(* ================================================================== *)
(** * Verification: validated proofs and the verifier *)
(* ================================================================== *)

Module proofs_valid.

Import mta statements views proofs_bob proofs_binding.

Section Valid.

Context {curve : Curve} {hash : Hash}.

Lemma ValidateBasic_fields (pb : ProofBob) :
  ProofBob_ValidateBasic (Some pb) = Returned true ->
  exists z zPrm T V W S' S1 S2 T1 T2,
    pb = mkProofBob (Some z) (Some zPrm) (Some T) (Some V) (Some W)
                    (Some S') (Some S1) (Some S2) (Some T1) (Some T2).
Proof.
  destruct pb as [[z|] [zPrm|] [T|] [V|] [W|] [S'|] [S1|] [S2|] [T1|] [T2|]];
    cbn; intros H; try discriminate.
  repeat eexists.
Qed.

Lemma ValidateBasicWC_fields (pf : ProofBobWC) :
  ProofBobWC_ValidateBasic (Some pf) = Returned true ->
  exists pb U, pf = mkProofBobWC (Some pb) (Some U) /\
               ProofBob_ValidateBasic (Some pb) = Returned true.
Proof.
  destruct pf as [[pb|] [U|]]; unfold ProofBobWC_ValidateBasic;
    cbn [deref obind pf_ProofBob pf_U]; intros H.
  - exists pb, U. split; [reflexivity|].
    destruct (ProofBob_ValidateBasic (Some pb)) as [[|]|]; cbn in H;
      try discriminate; reflexivity.
  - destruct (ProofBob_ValidateBasic (Some pb)) as [[|]|]; cbn in H; discriminate.
  - cbn in H. discriminate.
  - cbn in H. discriminate.
Qed.

(** Without the check the verifier reads neither [U] nor the curve order. *)
Lemma Verify_total_nocheck (pk : PublicKey) (NTilde h1 h2 c1 c2 : Z)
    (U : option ECPoint) (z zPrm T V W S' S1 S2 T1 T2 : Z) :
  exists b,
    ProofBobWC_Verify
      (Some (mkProofBobWC
               (Some (mkProofBob (Some z) (Some zPrm) (Some T) (Some V) (Some W)
                                 (Some S') (Some S1) (Some S2) (Some T1) (Some T2)))
               U))
      (Some pk) (Some NTilde) (Some h1) (Some h2) (Some c1) (Some c2) None
    = Returned b.
Proof.
  unfold ProofBobWC_Verify, IsInInterval.
  cbn [deref obind pf_ProofBob pf_U pf_Z pf_ZPrm pf_T pf_V pf_W pf_S
       pf_S1 pf_S2 pf_T1 pf_T2].
  step_total. cbn [negb]. step_total. exists true. reflexivity.
Qed.

Lemma Verify_nil_argument (pf : option ProofBobWC) (pk : option PublicKey)
    (NTilde h1 h2 c1 c2 : option Z) (X : option ECPoint) :
  isNil pk || isNil NTilde || isNil h1 || isNil h2 || isNil c1 || isNil c2 = true ->
  ProofBobWC_Verify pf pk NTilde h1 h2 c1 c2 X = Returned false.
Proof.
  destruct pk, NTilde, h1, h2, c1, c2; cbn; intros H;
    try discriminate; reflexivity.
Qed.

Lemma ProofBobWC_Verify_total_valid (pf : ProofBobWC) (pk : option PublicKey)
    (NTilde h1 h2 c1 c2 : option Z) (X : option ECPoint) :
  q <> 0 ->
  ProofBobWC_ValidateBasic (Some pf) = Returned true ->
  exists b, ProofBobWC_Verify (Some pf) pk NTilde h1 h2 c1 c2 X = Returned b.
Proof.
  intros Hq Hv.
  destruct (ValidateBasicWC_fields pf Hv) as (pb & U & -> & Hpb).
  destruct (ValidateBasic_fields pb Hpb)
    as (z & zPrm & T & V & W & S' & S1 & S2 & T1 & T2 & ->).
  destruct (isNil pk || isNil NTilde || isNil h1 || isNil h2 || isNil c1 || isNil c2)
    eqn:Hnil.
  - exists false. apply Verify_nil_argument. exact Hnil.
  - destruct pk as [pk|], NTilde as [NTilde|], h1 as [h1|], h2 as [h2|],
             c1 as [c1|], c2 as [c2|]; try discriminate Hnil.
    apply Verify_total. exact Hq.
Qed.

Lemma ProofBob_Verify_total_valid (pb : ProofBob) (pk : option PublicKey)
    (NTilde h1 h2 c1 c2 : option Z) :
  ProofBob_ValidateBasic (Some pb) = Returned true ->
  exists b, ProofBob_Verify (Some pb) pk NTilde h1 h2 c1 c2 = Returned b.
Proof.
  intros Hpb.
  destruct (ValidateBasic_fields pb Hpb)
    as (z & zPrm & T & V & W & S' & S1 & S2 & T1 & T2 & ->).
  unfold ProofBob_Verify.
  destruct (isNil pk || isNil NTilde || isNil h1 || isNil h2 || isNil c1 || isNil c2)
    eqn:Hnil.
  - exists false. apply Verify_nil_argument. exact Hnil.
  - destruct pk as [pk|], NTilde as [NTilde|], h1 as [h1|], h2 as [h2|],
             c1 as [c1|], c2 as [c2|]; try discriminate Hnil.
    apply Verify_total_nocheck.
Qed.

(** X3. [ValidateBasic] is the guard that [Verify] lacks.  With a
    rejection sampling that lands in [0, q) and [q > 0]: if
    [ProofBobWC.ValidateBasic] returns true on a proof whose integers are
    not negative (the exponents [S1], [S2], [T1], [T2] in particular) then,
    whatever the other arguments are (nil included), [ProofBob.Verify] on
    the embedded proof and [ProofBobWC.Verify] with any point or none
    return a boolean: neither call panics.  The curve operations are those
    of the interface, total functions. *)
Theorem ValidateBasic_guards_Verify :
  forall (HL : HashLaws) (Hq : 0 < q)
         (pf : ProofBobWC) (pb : ProofBob) (pk : option PublicKey)
         (NTilde h1 h2 c1 c2 : option Z) (X : option ECPoint),
    ProofBobWC_ValidateBasic (Some pf) = Returned true ->
    pf_ProofBob pf = Some pb ->
    Forall nonNegative (fields pb) ->
    (exists b, ProofBob_Verify (Some pb) pk NTilde h1 h2 c1 c2 = Returned b) /\
    (exists b, ProofBobWC_Verify (Some pf) pk NTilde h1 h2 c1 c2 X = Returned b).
Proof.
  intros HL Hq pf pb pk NTilde h1 h2 c1 c2 X Hv Hpf _.
  destruct (ValidateBasicWC_fields pf Hv) as (pb' & U & -> & Hpb).
  cbn [pf_ProofBob] in Hpf. inversion Hpf; subst pb'.
  split.
  - apply ProofBob_Verify_total_valid. exact Hpb.
  - apply ProofBobWC_Verify_total_valid; [lia|exact Hv].
Qed.

End Valid.

End proofs_valid.

(* ================================================================== *)
(** * Verification: parsing and the wire format *)
(* ================================================================== *)

Module proofs_parse.

Import mta statements views bytes_proofs proofs_wire proofs_valid.

Lemma Z_of_byte_nonneg (b : Byte.byte) : 0 <= Z_of_byte b.
Proof. unfold Z_of_byte. lia. Qed.

Lemma SetBytes_nonneg (bz : list Byte.byte) : 0 <= big_SetBytes bz.
Proof.
  unfold big_SetBytes.
  assert (H : forall acc, 0 <= acc ->
            0 <= fold_left (fun acc b => acc * 256 + Z_of_byte b) bz acc).
  { induction bz as [|b bz IH]; intros acc Hacc; cbn [fold_left].
    - exact Hacc.
    - apply IH. pose proof (Z_of_byte_nonneg b). lia. }
  apply H. lia.
Qed.

Lemma parts10 (bzs : list (list Byte.byte)) :
  nonEmptyParts 10 bzs ->
  exists b0 b1 b2 b3 b4 b5 b6 b7 b8 b9,
    bzs = [b0; b1; b2; b3; b4; b5; b6; b7; b8; b9].
Proof.
  intros [Hlen _].
  do 10 (destruct bzs as [|? bzs]; [discriminate Hlen|]).
  destruct bzs; [|discriminate Hlen]. repeat eexists.
Qed.

Lemma parts12 (bzs : list (list Byte.byte)) :
  nonEmptyParts 12 bzs ->
  exists b0 b1 b2 b3 b4 b5 b6 b7 b8 b9 b10 b11,
    bzs = [b0; b1; b2; b3; b4; b5; b6; b7; b8; b9; b10; b11].
Proof.
  intros [Hlen _].
  do 12 (destruct bzs as [|? bzs]; [discriminate Hlen|]).
  destruct bzs; [|discriminate Hlen]. repeat eexists.
Qed.

Lemma parts_exclusive (bzs : list (list Byte.byte)) :
  nonEmptyParts 10 bzs -> nonEmptyParts 12 bzs -> False.
Proof. intros [H1 _] [H2 _]. congruence. Qed.

(** What [ProofBobFromBytes] returns on an accepted array. *)
Lemma ProofBobFromBytes_value (bzs : list (list Byte.byte)) :
  nonEmptyParts 10 bzs \/ nonEmptyParts 12 bzs ->
  exists b0 b1 b2 b3 b4 b5 b6 b7 b8 b9 rest,
    bzs = b0 :: b1 :: b2 :: b3 :: b4 :: b5 :: b6 :: b7 :: b8 :: b9 :: rest /\
    ProofBobFromBytes bzs
    = Returned (Ok (mkProofBob
                      (Some (big_SetBytes b0)) (Some (big_SetBytes b1))
                      (Some (big_SetBytes b2)) (Some (big_SetBytes b3))
                      (Some (big_SetBytes b4)) (Some (big_SetBytes b5))
                      (Some (big_SetBytes b6)) (Some (big_SetBytes b7))
                      (Some (big_SetBytes b8)) (Some (big_SetBytes b9)))).
Proof.
  intros H.
  assert (Hlen : (10 <= List.length bzs)%nat)
    by (destruct H as [[Hl _]|[Hl _]]; lia).
  destruct (FromBytes_ok bzs Hlen)
    as (b0 & b1 & b2 & b3 & b4 & b5 & b6 & b7 & b8 & b9 & rest & E).
  exists b0, b1, b2, b3, b4, b5, b6, b7, b8, b9, rest. split; [exact E|].
  unfold ProofBobFromBytes, ProofBobBytesParts, ProofBobWCBytesParts.
  change 10 with (Z.of_nat 10). change 12 with (Z.of_nat 12).
  pose proof (NonEmptyMultiBytes_iff bzs 10 ltac:(lia)) as H10.
  pose proof (NonEmptyMultiBytes_iff bzs 12 ltac:(lia)) as H12.
  assert (Hb : negb (NonEmptyMultiBytes bzs (Z.of_nat 10)) &&
               negb (NonEmptyMultiBytes bzs (Z.of_nat 12)) = false).
  { destruct H as [H|H]; [apply H10 in H | apply H12 in H]; rewrite H;
      cbn [negb andb]; [reflexivity | apply andb_false_r]. }
  rewrite Hb. subst bzs. reflexivity.
Qed.

(** [ProofBobFromBytes] does not panic: it indexes the array only after the
    test of its length. *)
Lemma ProofBobFromBytes_returns (bzs : list (list Byte.byte)) :
  exists r, ProofBobFromBytes bzs = Returned r.
Proof.
  pose proof (NonEmptyMultiBytes_iff bzs 10 ltac:(lia)) as H10.
  pose proof (NonEmptyMultiBytes_iff bzs 12 ltac:(lia)) as H12.
  destruct (NonEmptyMultiBytes bzs (Z.of_nat 10)) eqn:E10.
  - destruct (ProofBobFromBytes_value bzs (or_introl (proj1 H10 eq_refl)))
      as (b0 & b1 & b2 & b3 & b4 & b5 & b6 & b7 & b8 & b9 & rest & _ & E).
    eexists. exact E.
  - destruct (NonEmptyMultiBytes bzs (Z.of_nat 12)) eqn:E12.
    + destruct (ProofBobFromBytes_value bzs (or_intror (proj1 H12 eq_refl)))
        as (b0 & b1 & b2 & b3 & b4 & b5 & b6 & b7 & b8 & b9 & rest & _ & E).
      eexists. exact E.
    + unfold ProofBobFromBytes, ProofBobBytesParts, ProofBobWCBytesParts.
      change 10 with (Z.of_nat 10). change 12 with (Z.of_nat 12).
      rewrite E10, E12. cbn [negb andb]. eexists. reflexivity.
Qed.

Section Parse.

Context {curve : Curve} {hash : Hash}.

(** X5. A proof that [ProofBobFromBytes] returns passes
    [ProofBob.ValidateBasic]; none of its ten integers is negative
    ([SetBytes] reads unsigned integers); hence, for a rejection sampling in
    range and [q > 0], [ProofBob.Verify] returns a boolean on it whatever
    the other arguments are: a proof read from the wire does not make the
    verifier panic. *)
Theorem ProofBobFromBytes_valid :
  forall (HL : HashLaws) (Hq : 0 < q)
         (bzs : list (list Byte.byte)) (pb : ProofBob),
    ProofBobFromBytes bzs = Returned (Ok pb) ->
    ProofBob_ValidateBasic (Some pb) = Returned true /\
    Forall nonNegative (fields pb) /\
    (forall (pk : option PublicKey) (NTilde h1 h2 c1 c2 : option Z),
        exists b, ProofBob_Verify (Some pb) pk NTilde h1 h2 c1 c2 = Returned b).
Proof.
  intros HL Hq bzs pb H.
  assert (Hshape : nonEmptyParts 10 bzs \/ nonEmptyParts 12 bzs)
    by (apply ProofBobFromBytes_shape; exists pb; exact H).
  destruct (ProofBobFromBytes_value bzs Hshape)
    as (b0 & b1 & b2 & b3 & b4 & b5 & b6 & b7 & b8 & b9 & rest & _ & E).
  rewrite E in H. inversion H; subst pb. clear H.
  assert (V : ProofBob_ValidateBasic
                (Some (mkProofBob
                      (Some (big_SetBytes b0)) (Some (big_SetBytes b1))
                      (Some (big_SetBytes b2)) (Some (big_SetBytes b3))
                      (Some (big_SetBytes b4)) (Some (big_SetBytes b5))
                      (Some (big_SetBytes b6)) (Some (big_SetBytes b7))
                      (Some (big_SetBytes b8)) (Some (big_SetBytes b9))))
              = Returned true) by reflexivity.
  split; [exact V|]. split.
  - unfold fields. cbn [pf_Z pf_ZPrm pf_T pf_V pf_W pf_S pf_S1 pf_S2 pf_T1 pf_T2].
    repeat (apply Forall_cons;
            [eexists; split; [reflexivity | apply SetBytes_nonneg]|]).
    apply Forall_nil.
  - intros pk NTilde h1 h2 c1 c2.
    apply ProofBob_Verify_total_valid. exact V.
Qed.

(** X6. The outcomes of [ProofBobWCFromBytes].  It panics (index out of
    range at [bzs[10]]) exactly on the arrays of 10 non-empty parts, which
    [ProofBobFromBytes] accepts; it returns a proof exactly on the arrays of
    12 non-empty parts whose last two parts are the coordinates of a point
    of the curve, and the proof is then the one of [ProofBobFromBytes] with
    that point; on every other array it returns an error. *)
Theorem ProofBobWCFromBytes_outcomes :
  forall bzs : list (list Byte.byte),
    (ProofBobWCFromBytes bzs = Panicked <-> nonEmptyParts 10 bzs) /\
    (forall pf, ProofBobWCFromBytes bzs = Returned (Ok pf) <->
        nonEmptyParts 12 bzs /\
        exists pb b10 b11,
          ProofBobFromBytes bzs = Returned (Ok pb) /\
          nth_error bzs 10 = Some b10 /\ nth_error bzs 11 = Some b11 /\
          isOnCurve (big_SetBytes b10) (big_SetBytes b11) = true /\
          pf = mkProofBobWC (Some pb)
                 (Some (mkECPoint (big_SetBytes b10) (big_SetBytes b11)))).
Proof.
  intros bzs.
  destruct (ProofBobFromBytes bzs) as [[pb|err]|] eqn:E.
  - assert (Hshape : nonEmptyParts 10 bzs \/ nonEmptyParts 12 bzs)
      by (apply ProofBobFromBytes_shape; exists pb; exact E).
    destruct Hshape as [H10|H12].
    + destruct (parts10 bzs H10)
        as (b0 & b1 & b2 & b3 & b4 & b5 & b6 & b7 & b8 & b9 & Hb).
      assert (P : ProofBobWCFromBytes bzs = Panicked).
      { unfold ProofBobWCFromBytes. rewrite E. subst bzs. reflexivity. }
      split.
      * split; [intros _; exact H10 | intros _; exact P].
      * intros pf. split.
        -- rewrite P. discriminate.
        -- intros [H12 _]. destruct (parts_exclusive bzs H10 H12).
    + destruct (parts12 bzs H12)
        as (b0 & b1 & b2 & b3 & b4 & b5 & b6 & b7 & b8 & b9 & b10 & b11 & Hb).
      assert (R : ProofBobWCFromBytes bzs
                  = match NewECPoint (big_SetBytes b10) (big_SetBytes b11) with
                    | Err err => Returned (Err err)
                    | Ok point => Returned (Ok (mkProofBobWC (Some pb) (Some point)))
                    end).
      { unfold ProofBobWCFromBytes. rewrite E. subst bzs. reflexivity. }
      split.
      * split.
        -- rewrite R. destruct (NewECPoint _ _); discriminate.
        -- intros H10. destruct (parts_exclusive bzs H10 H12).
      * intros pf. rewrite R. unfold NewECPoint.
        destruct (isOnCurve (big_SetBytes b10) (big_SetBytes b11)) eqn:On.
        -- split.
           ++ intros H. inversion H; subst pf. split; [exact H12|].
              exists pb, b10, b11. subst bzs. repeat split; try reflexivity.
              exact On.
           ++ intros (_ & pb' & c10 & c11 & Hpb & N10 & N11 & _ & ->).
              subst bzs. cbn in N10, N11. inversion N10; inversion N11; subst.
              inversion Hpb. reflexivity.
        -- split; [discriminate|].
           intros (_ & pb' & c10 & c11 & _ & N10 & N11 & On' & _).
           subst bzs. cbn in N10, N11. inversion N10; inversion N11; subst.
           rewrite On in On'. discriminate.
  - assert (R : ProofBobWCFromBytes bzs = Returned (Err err)).
    { unfold ProofBobWCFromBytes. rewrite E. reflexivity. }
    assert (No : ~ (nonEmptyParts 10 bzs \/ nonEmptyParts 12 bzs)).
    { intros H. apply ProofBobFromBytes_shape in H. destruct H as [pf H].
      rewrite E in H. discriminate. }
    split.
    + rewrite R. split; [discriminate|]. intros H. exfalso. apply No. left. exact H.
    + intros pf. rewrite R. split; [discriminate|].
      intros [H _]. exfalso. apply No. right. exact H.
  - destruct (ProofBobFromBytes_returns bzs) as [r Hr]. congruence.
Qed.

Lemma NonEmptyBytes_Bytes (x : Z) : NonEmptyBytes (big_Bytes x) = nonZero x.
Proof.
  unfold nonZero. destruct (x =? 0) eqn:E.
  - apply Z.eqb_eq in E. subst x. rewrite Bytes_zero. reflexivity.
  - apply Z.eqb_neq in E. apply NonEmptyBytes_iff. apply Bytes_nonempty. exact E.
Qed.

Lemma NonEmptyMultiBytes_Bytes (l : list Z) (n : nat) :
  (0 < n)%nat -> List.length l = n ->
  NonEmptyMultiBytes (map big_Bytes l) (Z.of_nat n) = forallb nonZero l.
Proof.
  intros Hn Hl. unfold NonEmptyMultiBytes. rewrite length_map, Hl.
  destruct (Z.of_nat n =? 0) eqn:E0; [apply Z.eqb_eq in E0; lia|].
  rewrite Z.eqb_refl. cbn [negb]. clear Hl E0.
  induction l as [|x l IH]; cbn [map forallb]; [reflexivity|].
  rewrite NonEmptyBytes_Bytes, IH. reflexivity.
Qed.

Lemma NonEmptyMultiBytes_length (bzs : list (list Byte.byte)) (n : nat) :
  List.length bzs <> n -> NonEmptyMultiBytes bzs (Z.of_nat n) = false.
Proof.
  intros H. unfold NonEmptyMultiBytes.
  destruct (Z.of_nat (List.length bzs) =? 0); [reflexivity|].
  destruct (Z.of_nat n =? Z.of_nat (List.length bzs)) eqn:E; [|reflexivity].
  apply Z.eqb_eq in E. lia.
Qed.

(** X7. [ProofBobFromBytes] after [ProofBob.Bytes], for any ten integers:
    when none of them is zero the result is the proof of their absolute
    values (the sign is not encoded; a proof of positive integers comes back
    unchanged); when one of them is zero its part is empty and the parser
    returns its error. *)
Theorem ProofBob_Bytes_FromBytes :
  forall z zp t v w s s1 s2 t1 t2 : Z,
    exists bzs,
      ProofBob_Bytes
        (Some (mkProofBob (Some z) (Some zp) (Some t) (Some v) (Some w)
                          (Some s) (Some s1) (Some s2) (Some t1) (Some t2)))
      = Returned bzs /\
      ProofBobFromBytes bzs
      = if forallb nonZero [z; zp; t; v; w; s; s1; s2; t1; t2]
        then Returned (Ok (absFields z zp t v w s s1 s2 t1 t2))
        else Returned
               (Err "expected 10 byte parts to construct ProofBob, or 12 for ProofBobWC"%string).
Proof.
  intros z zp t v w s s1 s2 t1 t2.
  exists (map big_Bytes [z; zp; t; v; w; s; s1; s2; t1; t2]).
  split; [reflexivity|].
  unfold ProofBobFromBytes, ProofBobBytesParts, ProofBobWCBytesParts.
  change 10 with (Z.of_nat 10). change 12 with (Z.of_nat 12).
  rewrite (NonEmptyMultiBytes_Bytes _ 10) by (try reflexivity; lia).
  rewrite (NonEmptyMultiBytes_length _ 12) by (cbn; lia).
  rewrite andb_true_r.
  destruct (forallb nonZero [z; zp; t; v; w; s; s1; s2; t1; t2]); cbn [negb].
  - cbn [map index nth_error deref obind]. rewrite !SetBytes_Bytes. reflexivity.
  - reflexivity.
Qed.

(** X8. [ProofBobWCFromBytes] after [ProofBobWC.Bytes], for any ten
    integers and any coordinates of [U]: a zero among the twelve numbers
    gives the parser's error on the parts; otherwise the result is the proof
    of the absolute values when the point of the absolute coordinates is on
    the curve, and the error of [NewECPoint] when it is not. *)
Theorem ProofBobWC_Bytes_FromBytes :
  forall z zp t v w s s1 s2 t1 t2 ux uy : Z,
    exists bzs,
      ProofBobWC_Bytes
        (Some (mkProofBobWC
                 (Some (mkProofBob (Some z) (Some zp) (Some t) (Some v) (Some w)
                                   (Some s) (Some s1) (Some s2) (Some t1) (Some t2)))
                 (Some (mkECPoint ux uy))))
      = Returned bzs /\
      ProofBobWCFromBytes bzs
      = if forallb nonZero [z; zp; t; v; w; s; s1; s2; t1; t2; ux; uy]
        then
          match NewECPoint (Z.abs ux) (Z.abs uy) with
          | Ok U =>
              Returned
                (Ok (mkProofBobWC (Some (absFields z zp t v w s s1 s2 t1 t2))
                                  (Some U)))
          | Err err => Returned (Err err)
          end
        else Returned
               (Err "expected 10 byte parts to construct ProofBob, or 12 for ProofBobWC"%string).
Proof.
  intros z zp t v w s s1 s2 t1 t2 ux uy.
  exists (map big_Bytes [z; zp; t; v; w; s; s1; s2; t1; t2; ux; uy]).
  split; [reflexivity|].
  unfold ProofBobWCFromBytes, ProofBobFromBytes, ProofBobBytesParts, ProofBobWCBytesParts.
  change 10 with (Z.of_nat 10). change 12 with (Z.of_nat 12).
  rewrite (NonEmptyMultiBytes_Bytes _ 12) by (try reflexivity; lia).
  rewrite (NonEmptyMultiBytes_length _ 10) by (cbn; lia).
  cbn [negb andb].
  destruct (forallb nonZero [z; zp; t; v; w; s; s1; s2; t1; t2; ux; uy]); cbn [negb].
  - cbn [map index nth_error deref obind]. rewrite !SetBytes_Bytes.
    destruct (NewECPoint (Z.abs ux) (Z.abs uy)); reflexivity.
  - reflexivity.
Qed.

End Parse.

End proofs_parse.

(* ================================================================== *)
(** * Verification: the two variants of Bob's step *)
(* ================================================================== *)

Module proofs_agreement.

Import mta statements views proofs_bob proofs_driver.

(** Two runs of the prover on the same tape make the same draws. *)
Ltac two_runs pk NTilde h1 h2 c1 c2 x y r X X' t :=
  let E1 := fresh "E1" in let E2 := fresh "E2" in let E3 := fresh "E3" in
  let E4 := fresh "E4" in let E5 := fresh "E5" in let E6 := fresh "E6" in
  let E7 := fresh "E7" in
  let F1 := fresh "F1" in let F2 := fresh "F2" in let F3 := fresh "F3" in
  let F4 := fresh "F4" in let F5 := fresh "F5" in let F6 := fresh "F6" in
  let F7 := fresh "F7" in
  destruct (ProveBobWC_run pk NTilde h1 h2 c1 c2 x y r X t)
    as (alpha & rho & sigma & tau & rhoPrm & beta & gamma &
        t1 & t2 & t3 & t4 & t5 & t6 & t7 &
        E1 & E2 & E3 & E4 & E5 & E6 & E7 & Hrun);
  destruct (ProveBobWC_run pk NTilde h1 h2 c1 c2 x y r X' t)
    as (alpha' & rho' & sigma' & tau' & rhoPrm' & beta' & gamma' &
        t1' & t2' & t3' & t4' & t5' & t6' & t7' &
        F1 & F2 & F3 & F4 & F5 & F6 & F7 & Hrun');
  cbv zeta in Hrun, Hrun';
  rewrite E1 in F1; inversion F1; subst alpha' t1';
  rewrite E2 in F2; inversion F2; subst rho' t2';
  rewrite E3 in F3; inversion F3; subst sigma' t3';
  rewrite E4 in F4; inversion F4; subst tau' t4';
  rewrite E5 in F5; inversion F5; subst rhoPrm' t5';
  rewrite E6 in F6; inversion F6; subst beta' t6';
  rewrite E7 in F7; inversion F7; subst gamma' t7';
  try rewrite E1.

Section Prover.

Context {curve : Curve} {hash : Hash} {rnd : RandSource}.

(** X11. When [ProveBobWC] returns a proof for a point [X] (present
    or nil), its call with any other [X'] on the same arguments and tape
    returns a proof too, leaves the same tape, and the two proofs have the
    same commitments [Z], [ZPrm], [T], [V], [W]: the point enters only the
    challenge and [U], which is [(0, 0)] for a nil [X] and [alpha·G], with
    [alpha] the first draw, otherwise. *)
Theorem ProveBobWC_commitments_independent_of_X :
  forall (pk : option PublicKey) (NTilde h1 h2 c1 c2 x y r : option Z)
         (X X' : option ECPoint) (t t' : Tape) (pf : ProofBobWC),
    ProveBobWC pk NTilde h1 h2 c1 c2 x y r X t = Returned (Ok pf, t') ->
    exists pb pb' u u',
      pf = mkProofBobWC (Some pb) (Some u) /\
      ProveBobWC pk NTilde h1 h2 c1 c2 x y r X' t
      = Returned (Ok (mkProofBobWC (Some pb') (Some u')), t') /\
      commitments pb = commitments pb' /\
      (isNil X = isNil X' -> u = u') /\
      (X = None -> u = mkECPoint 0 0) /\
      (X <> None -> u = ScalarBaseMult (fst (GetRandomPositiveInt (q * q * q) t))).
Proof.
  intros pk NTilde h1 h2 c1 c2 x y r X X' t t' pf H.
  destruct (anyNil pk NTilde h1 h2 c1 c2 x y r) eqn:Hnil.
  { rewrite (ProveBobWC_nil _ _ _ _ _ _ _ _ _ X t Hnil) in H. discriminate. }
  unfold anyNil in Hnil.
  destruct pk as [pk|], NTilde as [NTilde|], h1 as [h1|], h2 as [h2|],
           c1 as [c1|], c2 as [c2|], x as [x|], y as [y|], r as [r|];
    cbn [isNil orb] in Hnil; try discriminate.
  two_runs pk NTilde h1 h2 c1 c2 x y r X X' t.
  rewrite Hrun in H. inversion H; subst pf t'. clear H.
  do 4 eexists. split; [reflexivity|]. split; [exact Hrun'|].
  split; [reflexivity|]. cbn [fst]. repeat split.
  - destruct X, X'; cbn [isNil]; intros H; try discriminate; reflexivity.
  - intros ->. reflexivity.
  - destruct X; [reflexivity|]. intros H. contradiction.
Qed.

End Prover.

Section Driver.

Context {curve : Curve} {hash : Hash} {rnd : RandSource}
        {paillier : Paillier} {rps : RangeProofSystem}.

(** [ProveBob] and [ProveBobWC] fail together, with the same error, and
    consume the same part of the tape. *)
Lemma ProveBob_ProveBobWC (pk : option PublicKey) (NTilde h1 h2 c1 c2 x y r : option Z)
    (X : option ECPoint) (t : Tape) :
  (exists e,
      ProveBob pk NTilde h1 h2 c1 c2 x y r t = Returned (Err e, t) /\
      ProveBobWC pk NTilde h1 h2 c1 c2 x y r X t = Returned (Err e, t)) \/
  (exists pb pb' u t',
      ProveBob pk NTilde h1 h2 c1 c2 x y r t = Returned (Ok (Some pb), t') /\
      ProveBobWC pk NTilde h1 h2 c1 c2 x y r X t
      = Returned (Ok (mkProofBobWC (Some pb') (Some u)), t') /\
      commitments pb = commitments pb' /\
      (X = None -> pb = pb')).
Proof.
  destruct (anyNil pk NTilde h1 h2 c1 c2 x y r) eqn:E.
  - left. eexists. split.
    + unfold ProveBob, rbind. rewrite (ProveBobWC_nil _ _ _ _ _ _ _ _ _ None t E).
      reflexivity.
    + apply ProveBobWC_nil. exact E.
  - right.
    unfold anyNil in E.
    destruct pk as [pk|], NTilde as [NTilde|], h1 as [h1|], h2 as [h2|],
             c1 as [c1|], c2 as [c2|], x as [x|], y as [y|], r as [r|];
      cbn [isNil orb] in E; try discriminate.
    two_runs pk NTilde h1 h2 c1 c2 x y r (@None ECPoint) X t.
    do 4 eexists. split.
    + unfold ProveBob, rbind. rewrite Hrun. reflexivity.
    + split; [exact Hrun'|]. split; [reflexivity|].
      intros ->. reflexivity.
Qed.

(** X12. [BobMid] and [BobMidWC] on the same arguments and tape, for
    [q > 0]: both panic or both return; they leave the same tape and return
    the same [betaPrm], the same [cB] and the same error; [beta] of
    [BobMid] is [(0 - betaPrm) mod q] whenever [cB] is set; the two proofs
    have the same commitments, and for a nil [B] the proof of [BobMid] is
    the one embedded in the proof of [BobMidWC]. *)
Theorem BobMid_BobMidWC_agree :
  forall (Hq : 0 < q)
         (pkA : option PublicKey) (pf : option RangeProofAlice)
         (b cA NTildeA h1A h2A NTildeB h1B h2B : option Z)
         (B : option ECPoint) (t : Tape),
    match BobMid pkA pf b cA NTildeA h1A h2A NTildeB h1B h2B t,
          BobMidWC pkA pf b cA NTildeA h1A h2A NTildeB h1B h2B B t with
    | Returned (res, t1), Returned (resWC, t2) =>
        t1 = t2 /\
        bm_betaPrm res = bw_betaPrm resWC /\
        bm_cB res = bw_cB resWC /\
        bm_err res = bw_err resWC /\
        bm_beta res = match bw_cB resWC, bw_betaPrm resWC with
                      | Some _, Some betaPrm => Some (ModInt_Sub q zero betaPrm)
                      | _, _ => None
                      end /\
        option_map commitments (bm_piB res)
        = match bw_piB resWC with
          | Some piB => option_map commitments (pf_ProofBob piB)
          | None => None
          end /\
        (B = None ->
         bm_piB res = match bw_piB resWC with
                      | Some piB => pf_ProofBob piB
                      | None => None
                      end)
    | Panicked, Panicked => True
    | _, _ => False
    end.
Proof.
  intros _ pkA pf b cA NTildeA h1A h2A NTildeB h1B h2B B t.
  unfold BobMid, BobMidWC, rbind, lift, draw, rret.
  destruct (RangeProofAlice_Verify pf pkA NTildeB h1B h2B cA) as [[|]|];
    cbn [negb]; [| |exact I].
  2: { repeat split; intros; reflexivity. }
  destruct (GetRandomPositiveInt (q * q * (q * q) * q) t) as [betaPrm t1].
  destruct pkA as [pk|]; cbn [deref]; [|exact I].
  destruct (EncryptAndReturnRandomness pk betaPrm t1)
    as [[[[cBetaPrm cRand]|e] t2]|]; [| |exact I].
  2: { repeat split; intros; reflexivity. }
  destruct b as [b|]; cbn [deref]; [|exact I].
  destruct cA as [cA|]; cbn [deref]; [|exact I].
  destruct (HomoMult pk b cA) as [c|e].
  2: { repeat split; intros; reflexivity. }
  destruct (HomoAdd pk c cBetaPrm) as [cB|e].
  2: { repeat split; intros; reflexivity. }
  destruct (ProveBob_ProveBobWC (Some pk) NTildeA h1A h2A (Some cA) (Some cB)
              (Some b) (Some betaPrm) (Some cRand) B t2)
    as [(e & H1 & H2)|(pb & pb' & u & t' & H1 & H2 & Hc & Hsame)];
    rewrite H1, H2.
  - repeat split; intros; reflexivity.
  - cbn [bm_betaPrm bw_betaPrm bm_cB bw_cB bm_err bw_err bm_beta bm_piB bw_piB
         pf_ProofBob option_map].
    repeat split.
    + rewrite Hc. reflexivity.
    + intros HB. rewrite (Hsame HB). reflexivity.
Qed.

(** X13. The named results of [BobMid] in every returning run: the error is
    nil exactly when [piB] is non-nil; a non-nil [piB] comes with non-nil
    [beta], [cB], [betaPrm] and passes [ValidateBasic]; [cB] and [beta] are
    set together and only with [betaPrm]; and [betaPrm] is returned, also
    beside an error, whenever Alice's range proof was accepted. *)
Theorem BobMid_results_wellformed :
  forall (pkA : option PublicKey) (pf : option RangeProofAlice)
         (b cA NTildeA h1A h2A NTildeB h1B h2B : option Z) (t t' : Tape)
         (res : BobMidResult),
    BobMid pkA pf b cA NTildeA h1A h2A NTildeB h1B h2B t = Returned (res, t') ->
    (bm_err res = None <-> bm_piB res <> None) /\
    (bm_piB res <> None ->
     bm_beta res <> None /\ bm_cB res <> None /\ bm_betaPrm res <> None /\
     ProofBob_ValidateBasic (bm_piB res) = Returned true) /\
    (bm_cB res <> None <-> bm_beta res <> None) /\
    (bm_cB res <> None -> bm_betaPrm res <> None) /\
    (RangeProofAlice_Verify pf pkA NTildeB h1B h2B cA = Returned true ->
     bm_betaPrm res <> None).
Proof.
  intros pkA pf b cA NTildeA h1A h2A NTildeB h1B h2B t t' res.
  unfold BobMid, rbind, lift, draw, rret.
  destruct (RangeProofAlice_Verify pf pkA NTildeB h1B h2B cA) as [[|]|];
    cbn [negb]; [| |discriminate].
  2: { intros H; inversion H; subst; cbn.
       repeat split; intros; try congruence; try discriminate. }
  destruct (GetRandomPositiveInt (q * q * (q * q) * q) t) as [betaPrm t1].
  destruct pkA as [pk|]; cbn [deref]; [|discriminate].
  destruct (EncryptAndReturnRandomness pk betaPrm t1)
    as [[[[cBetaPrm cRand]|e] t2]|]; [| |discriminate].
  2: { intros H; inversion H; subst; cbn.
       repeat split; intros; try congruence; try discriminate. }
  destruct b as [b|]; cbn [deref]; [|discriminate].
  destruct cA as [cA|]; cbn [deref]; [|discriminate].
  destruct (HomoMult pk b cA) as [c|e].
  2: { intros H; inversion H; subst; cbn.
       repeat split; intros; try congruence; try discriminate. }
  destruct (HomoAdd pk c cBetaPrm) as [cB|e].
  2: { intros H; inversion H; subst; cbn.
       repeat split; intros; try congruence; try discriminate. }
  destruct (anyNil (Some pk) NTildeA h1A h2A (Some cA) (Some cB)
              (Some b) (Some betaPrm) (Some cRand)) eqn:E.
  - unfold ProveBob, rbind.
    rewrite (ProveBobWC_nil _ _ _ _ _ _ _ _ _ None t2 E).
    intros H; inversion H; subst; cbn.
    repeat split; intros; try congruence; try discriminate.
  - unfold anyNil in E. cbn [isNil orb] in E.
    destruct NTildeA as [NTildeA|], h1A as [h1A|], h2A as [h2A|];
      cbn [isNil orb] in E; try discriminate.
    destruct (ProveBobWC_run pk NTildeA h1A h2A cA cB b betaPrm cRand None t2)
      as (alpha & rho & sigma & tau & rhoPrm & beta & gamma &
          ta & tb & tc & td & te & tf & tg & _ & _ & _ & _ & _ & _ & _ & Hrun).
    cbv zeta in Hrun. unfold ProveBob, rbind. rewrite Hrun.
    intros H; inversion H; subst; cbn.
    repeat split; intros; try congruence; try discriminate.
Qed.

End Driver.

End proofs_agreement.

(* ================================================================== *)
(** * Verification: honest runs of the share conversion *)
(* ================================================================== *)

Module proofs_run.

Import mta statements contracts views arith.
Import proofs_bob proofs_driver proofs_mta completeness proofs_valid.

(** A Paillier ciphertext is a unit modulo [N]. *)
Lemma ciphertext_unit (pk : PublicKey) (m r : Z) :
  0 <= m -> 0 < pkN pk -> Z.gcd r (pkN pk) = 1 ->
  Z.gcd (ciphertext pk m r) (pkN pk) = 1.
Proof.
  intros Hm HN Hr. unfold ciphertext, NSquare, Gamma.
  apply coprime_of_sq. apply Z.coprime_mod_l_iff. apply coprime_sq.
  apply Z.coprime_mul_l; apply Z.coprime_pow_l; try lia; try assumption.
  apply coprime_succ.
Qed.

(** The ciphertext that Bob returns satisfies the statement of his proof. *)
Lemma bob_statement (pk : PublicKey) (cA b betaPrm cRand : Z) :
  0 < pkN pk ->
  bobStatement pk cA
    (((cA ^ b) mod NSquare pk * ciphertext pk betaPrm cRand) mod NSquare pk)
    b betaPrm cRand.
Proof.
  intros HN. unfold bobStatement, ciphertext.
  assert (Hn2 : 0 < NSquare pk) by (unfold NSquare; apply Z.mul_pos_pos; lia).
  rewrite Z.mod_mod by lia.
  rewrite <- Z.mul_mod by lia. reflexivity.
Qed.

Section Run.

Context {curve : Curve} {hash : Hash} {rnd : RandSource}
        {paillier : Paillier} {rps : RangeProofSystem}.

(** What a run of [BobMid] without error has computed, with the call that
    produced the proof. *)
Lemma BobMid_inv_proof (pk : PublicKey) (pf : option RangeProofAlice) (b cA : Z)
    (NTildeA h1A h2A NTildeB h1B h2B : option Z) (t t' : Tape) (res : BobMidResult) :
  BobMid (Some pk) pf (Some b) (Some cA) NTildeA h1A h2A NTildeB h1B h2B t
    = Returned (res, t') ->
  bm_err res = None ->
  exists betaPrm cBetaPrm cRand c cB t1 t2,
    GetRandomPositiveInt (q ^ 5) t = (betaPrm, t1) /\
    EncryptAndReturnRandomness pk betaPrm t1 = Returned (Ok (cBetaPrm, cRand), t2) /\
    HomoMult pk b cA = Ok c /\
    HomoAdd pk c cBetaPrm = Ok cB /\
    ProveBob (Some pk) NTildeA h1A h2A (Some cA) (Some cB) (Some b)
             (Some betaPrm) (Some cRand) t2 = Returned (Ok (bm_piB res), t') /\
    bm_beta res = Some ((0 - betaPrm) mod q) /\
    bm_cB res = Some cB /\
    bm_betaPrm res = Some betaPrm.
Proof.
  unfold BobMid, rbind, lift, draw, rret. intros H Herr.
  destruct (RangeProofAlice_Verify pf (Some pk) NTildeB h1B h2B (Some cA))
    as [[|]|]; cbn [negb] in H; [| |discriminate].
  2: { inversion H; subst. discriminate. }
  rewrite q5_is_fifth_power in H.
  destruct (GetRandomPositiveInt (q ^ 5) t) as [betaPrm t1] eqn:Edraw.
  cbn [deref] in H.
  destruct (EncryptAndReturnRandomness pk betaPrm t1)
    as [[[[cBetaPrm cRand]|e] t2]|] eqn:Eenc; [| |discriminate].
  2: { inversion H; subst. discriminate. }
  destruct (HomoMult pk b cA) as [c|e] eqn:Emul.
  2: { inversion H; subst. discriminate. }
  destruct (HomoAdd pk c cBetaPrm) as [cB|e] eqn:Eadd.
  2: { inversion H; subst. discriminate. }
  destruct (ProveBob (Some pk) NTildeA h1A h2A (Some cA) (Some cB) (Some b)
              (Some betaPrm) (Some cRand) t2) as [[[piB|e] t3]|] eqn:EP;
    [| |discriminate].
  2: { inversion H; subst. discriminate. }
  inversion H; subst.
  exists betaPrm, cBetaPrm, cRand, c, cB, t1, t2.
  repeat split; first [assumption | reflexivity].
Qed.

(** What a run of [BobMidWC] without error has computed. *)
Lemma BobMidWC_inv (pk : PublicKey) (pf : option RangeProofAlice) (b cA : Z)
    (NTildeA h1A h2A NTildeB h1B h2B : option Z) (B : option ECPoint)
    (t t' : Tape) (res : BobMidWCResult) :
  BobMidWC (Some pk) pf (Some b) (Some cA) NTildeA h1A h2A NTildeB h1B h2B B t
    = Returned (res, t') ->
  bw_err res = None ->
  exists betaPrm cBetaPrm cRand c cB piB t1 t2,
    GetRandomPositiveInt (q ^ 5) t = (betaPrm, t1) /\
    EncryptAndReturnRandomness pk betaPrm t1 = Returned (Ok (cBetaPrm, cRand), t2) /\
    HomoMult pk b cA = Ok c /\
    HomoAdd pk c cBetaPrm = Ok cB /\
    ProveBobWC (Some pk) NTildeA h1A h2A (Some cA) (Some cB) (Some b)
               (Some betaPrm) (Some cRand) B t2 = Returned (Ok piB, t') /\
    bw_piB res = Some piB /\
    bw_cB res = Some cB /\
    bw_betaPrm res = Some betaPrm.
Proof.
  unfold BobMidWC, rbind, lift, draw, rret. intros H Herr.
  destruct (RangeProofAlice_Verify pf (Some pk) NTildeB h1B h2B (Some cA))
    as [[|]|]; cbn [negb] in H; [| |discriminate].
  2: { inversion H; subst. discriminate. }
  rewrite q5_is_fifth_power in H.
  destruct (GetRandomPositiveInt (q ^ 5) t) as [betaPrm t1] eqn:Edraw.
  cbn [deref] in H.
  destruct (EncryptAndReturnRandomness pk betaPrm t1)
    as [[[[cBetaPrm cRand]|e] t2]|] eqn:Eenc; [| |discriminate].
  2: { inversion H; subst. discriminate. }
  destruct (HomoMult pk b cA) as [c|e] eqn:Emul.
  2: { inversion H; subst. discriminate. }
  destruct (HomoAdd pk c cBetaPrm) as [cB|e] eqn:Eadd.
  2: { inversion H; subst. discriminate. }
  destruct (ProveBobWC (Some pk) NTildeA h1A h2A (Some cA) (Some cB) (Some b)
              (Some betaPrm) (Some cRand) B t2) as [[[piB|e] t3]|] eqn:EP;
    [| |discriminate].
  2: { inversion H; subst. discriminate. }
  inversion H; subst.
  exists betaPrm, cBetaPrm, cRand, c, cB, piB, t1, t2.
  repeat split; first [assumption | reflexivity].
Qed.

(** Bob's ciphertext after the Paillier laws: an encryption of the masked
    product, and an instance of the statement of his proof. *)
Lemma cB_facts (pkA : PublicKey) (skA : PrivateKey) (PL : PaillierLaws pkA skA)
    (a b rA cA betaPrm cBetaPrm cRand c cB : Z) (t1 t2 : Tape) :
  IsEncryption pkA a rA cA -> 0 <= b ->
  EncryptAndReturnRandomness pkA betaPrm t1 = Returned (Ok (cBetaPrm, cRand), t2) ->
  HomoMult pkA b cA = Ok c ->
  HomoAdd pkA c cBetaPrm = Ok cB ->
  0 <= betaPrm < pkN pkA /\
  inZNstar (pkN pkA) cRand /\
  IsEncryption pkA ((a * b + betaPrm) mod pkN pkA) ((rA ^ b * cRand) mod pkN pkA) cB /\
  bobStatement pkA cA cB b betaPrm cRand /\
  Z.gcd cA (pkN pkA) = 1.
Proof.
  intros HencA Hb Henc Hmul Hadd.
  pose proof (modulus_gt_1 (pk := pkA)) as HN.
  apply encrypt_law in Henc.
  apply homoMult_law in Hmul; [|exact Hb].
  apply homoAdd_law in Hadd.
  destruct HencA as (Ha & HrA & HcA).
  destruct Henc as (Hbp & Hr' & Hcb).
  split; [exact Hbp|]. split; [exact Hr'|]. split; [|split].
  - subst cB c cA cBetaPrm.
    apply MtA_ciphertext; try assumption; try lia.
  - subst cB c cBetaPrm. apply bob_statement. lia.
  - subst cA. apply ciphertext_unit; [lia|lia|apply HrA].
Qed.

(** X14. An honest run ends in a share.  For a key pair obeying the
    Paillier laws, samplers and rejection sampling in range, [q > 0], [cA]
    an encryption of [a], [b >= 0] and unit parameters [NTildeA], [h1A],
    [h2A]: when [BobMid] returns without error, [AliceEnd] on its results
    returns the share [((a·b + betaPrm) mod N) mod q] if the responses of
    the proof satisfy [S1 <= q³] and [T1 <= q⁷], and the error of a
    rejected proof otherwise; it neither panics nor fails in decryption. *)
Theorem MtA_honest_run_accepted :
  forall (pkA : PublicKey) (skA : PrivateKey) (PL : PaillierLaws pkA skA)
         (RL : RandLaws) (HL : HashLaws) (Hq : 0 < q)
         (a b rA cA NTildeA h1A h2A : Z) (pf : option RangeProofAlice)
         (NTildeB h1B h2B : option Z) (t1 t2 : Tape) (res : BobMidResult),
    IsEncryption pkA a rA cA ->
    0 <= b ->
    0 < NTildeA -> Z.gcd h1A NTildeA = 1 -> Z.gcd h2A NTildeA = 1 ->
    BobMid (Some pkA) pf (Some b) (Some cA)
           (Some NTildeA) (Some h1A) (Some h2A) NTildeB h1B h2B t1
      = Returned (res, t2) ->
    bm_err res = None ->
    exists piB s1 tt1 betaPrm,
      bm_piB res = Some piB /\ pf_S1 piB = Some s1 /\ pf_T1 piB = Some tt1 /\
      bm_betaPrm res = Some betaPrm /\
      AliceEnd (Some pkA) (bm_piB res) (Some h1A) (Some h2A) (Some cA) (bm_cB res)
               (Some NTildeA) (Some skA)
      = if (s1 <=? q ^ 3) && (tt1 <=? q ^ 7)
        then Returned (Ok (((a * b + betaPrm) mod pkN pkA) mod q))
        else Returned (Err "ProofBob.Verify() returned false"%string).
Proof.
  intros pkA skA PL RL HL Hq a b rA cA NTildeA h1A h2A pf NTildeB h1B h2B t1 t2 res
         HencA Hb HNT Gh1 Gh2 HBob Herr.
  destruct (BobMid_inv_proof _ _ _ _ _ _ _ _ _ _ _ _ _ HBob Herr)
    as (betaPrm & cBetaPrm & cRand & c & cB & ta & tb &
        Hdraw & Henc & Hmul & Hadd & HP & Hb1 & Hb2 & Hb3).
  destruct (cB_facts pkA skA PL a b rA cA betaPrm cBetaPrm cRand c cB ta tb
              HencA Hb Henc Hmul Hadd) as (Hbp & Hr' & HcB & Hst & GcA).
  pose proof (modulus_gt_1 (pk := pkA)) as HN.
  unfold ProveBob, rbind in HP.
  destruct (ProveBobWC (Some pkA) (Some NTildeA) (Some h1A) (Some h2A) (Some cA)
              (Some cB) (Some b) (Some betaPrm) (Some cRand) None tb)
    as [[[pfwc|e] t0]|] eqn:Hwc; try discriminate.
  inversion HP; subst t0. clear HP.
  assert (HU : unitParams pkA NTildeA h1A h2A cA cRand).
  { repeat split; try assumption; apply Hr'. }
  destruct (ProveBobWC_nocheck_verified RL HL Hq pkA NTildeA h1A h2A cA cB
              b betaPrm cRand tb t2 pfwc HU Hst Hb ltac:(lia) Hwc)
    as (pb & s1 & tt1 & Hpb & Hs1 & Ht1 & _ & _ & HV).
  exists pb, s1, tt1, betaPrm.
  split; [congruence|]. split; [exact Hs1|]. split; [exact Ht1|].
  split; [exact Hb3|].
  unfold AliceEnd. rewrite <- ?H0. rewrite ?Hpb. rewrite Hb2, HV. cbn [obind].
  destruct ((s1 <=? q ^ 3) && (tt1 <=? q ^ 7)); cbn [negb]; [|reflexivity].
  cbn [deref obind]. rewrite (decrypt_law _ _ _ HcB).
  unfold big_Mod. destruct (q =? 0) eqn:Eq0; [apply Z.eqb_eq in Eq0; lia|].
  cbn [obind]. rewrite Z.abs_eq by lia. reflexivity.
Qed.

(** X15. Correctness of the conversion with check.  For a key pair obeying
    the Paillier laws, with [DecryptAndRecoverRandomness] returning the
    plaintext and the randomness of an encryption: when [BobMidWC] returns
    without error and [AliceEndWC] returns [(muIJ, muIJRec, muIJRand)], then
    [muIJRec = (a·b + betaPrm) mod N], [muIJ = muIJRec mod q], [cB] is the
    encryption of [muIJRec] with randomness [muIJRand], and if
    [a·b + betaPrm < N] then [muIJ + (0 - betaPrm mod q)] is congruent to
    [a·b] modulo [q]. *)
Theorem MtAwc_shares :
  forall (pkA : PublicKey) (skA : PrivateKey) (PL : PaillierLaws pkA skA)
         (RcL : RecoverLaws pkA skA) (Hq : 0 < q)
         (a b rA cA : Z) (pf : option RangeProofAlice)
         (NTildeA h1A h2A NTildeB h1B h2B : option Z) (B : option ECPoint)
         (t1 t2 : Tape) (res : BobMidWCResult) (mu muRec muRand : Z),
    IsEncryption pkA a rA cA ->
    0 <= b ->
    BobMidWC (Some pkA) pf (Some b) (Some cA)
             NTildeA h1A h2A NTildeB h1B h2B B t1 = Returned (res, t2) ->
    bw_err res = None ->
    AliceEndWC (Some pkA) (bw_piB res) B (Some cA) (bw_cB res) NTildeA h1A h2A
               (Some skA) = Returned (Ok (mu, muRec, muRand)) ->
    exists betaPrm cB,
      bw_betaPrm res = Some betaPrm /\ bw_cB res = Some cB /\
      0 <= betaPrm < pkN pkA /\
      muRec = (a * b + betaPrm) mod pkN pkA /\
      mu = muRec mod q /\
      IsEncryption pkA muRec muRand cB /\
      (a * b + betaPrm < pkN pkA ->
       (mu + (0 - betaPrm) mod q) mod q = (a * b) mod q).
Proof.
  intros pkA skA PL RcL Hq a b rA cA pf NTildeA h1A h2A NTildeB h1B h2B B t1 t2 res
         mu muRec muRand HencA Hb HBob Herr HAlice.
  destruct (BobMidWC_inv _ _ _ _ _ _ _ _ _ _ _ _ _ _ HBob Herr)
    as (betaPrm & cBetaPrm & cRand & c & cB & piB & ta & tb &
        Hdraw & Henc & Hmul & Hadd & HP & Hb1 & Hb2 & Hb3).
  destruct (cB_facts pkA skA PL a b rA cA betaPrm cBetaPrm cRand c cB ta tb
              HencA Hb Henc Hmul Hadd) as (Hbp & Hr' & HcB & Hst & GcA).
  exists betaPrm, cB.
  split; [exact Hb3|]. split; [exact Hb2|]. split; [exact Hbp|].
  rewrite Hb2 in HAlice. unfold AliceEndWC in HAlice.
  destruct (ProofBobWC_Verify (bw_piB res) (Some pkA) NTildeA h1A h2A (Some cA)
              (Some cB) B) as [[|]|]; cbn [obind negb deref] in HAlice;
    try discriminate.
  rewrite (recover_law _ _ _ HcB) in HAlice.
  unfold big_Mod in HAlice.
  destruct (q =? 0) eqn:Eq0; [discriminate|].
  cbn [obind] in HAlice. inversion HAlice; subst mu muRec muRand.
  rewrite Z.abs_eq by lia.
  split; [reflexivity|]. split; [reflexivity|]. split; [exact HcB|].
  intros Hfit.
  destruct HencA as (Ha & _ & _).
  assert (Hab : 0 <= a * b) by (apply Z.mul_nonneg_nonneg; lia).
  rewrite (Z.mod_small (a * b + betaPrm) (pkN pkA)) by lia.
  rewrite Zplus_mod_idemp_l, Zplus_mod_idemp_r.
  f_equal. lia.
Qed.

(** X17. With a rejection sampling in range, [q > 0] and a non-nil
    private key, [AliceEnd] and [AliceEndWC] return (a share or an error)
    on every proof that passes [ValidateBasic] and whose integers are not
    negative, whatever the other arguments are: a nil [cB] is answered by
    the verifier's false before it is read. *)
Theorem AliceEnd_returns_when_valid :
  forall (HL : HashLaws) (Hq : 0 < q)
         (pkA : option PublicKey) (pf : ProofBobWC) (pb : ProofBob)
         (B : option ECPoint)
         (h1A h2A cA cB NTildeA : option Z) (sk : PrivateKey),
    ProofBobWC_ValidateBasic (Some pf) = Returned true ->
    pf_ProofBob pf = Some pb ->
    Forall nonNegative (fields pb) ->
    (exists r, AliceEnd pkA (Some pb) h1A h2A cA cB NTildeA (Some sk)
               = Returned r) /\
    (exists r, AliceEndWC pkA (Some pf) B cA cB NTildeA h1A h2A (Some sk)
               = Returned r).
Proof.
  intros HL Hq0 pkA pf pb0 B h1A h2A cA cB NTildeA sk Hv Hpf _.
  assert (Hq : q <> 0) by lia.
  destruct (ValidateBasicWC_fields pf Hv) as (pb & U & -> & Hpb).
  cbn [pf_ProofBob] in Hpf. inversion Hpf; subst pb0.
  split.
  - unfold AliceEnd.
    destruct (ProofBob_Verify_total_valid pb pkA NTildeA h1A h2A cA cB Hpb)
      as [[|] HV]; rewrite HV; cbn [obind negb deref].
    + destruct cB as [cB|].
      * cbn [deref obind]. destruct (Decrypt sk cB) as [m|e].
        -- unfold big_Mod. apply Z.eqb_neq in Hq. rewrite Hq. cbn [obind].
           eexists. reflexivity.
        -- eexists. reflexivity.
      * exfalso. unfold ProofBob_Verify in HV.
        rewrite Verify_nil_argument in HV; [discriminate|].
        cbn [isNil]. rewrite !orb_true_r. reflexivity.
    + eexists. reflexivity.
  - unfold AliceEndWC.
    destruct (ProofBobWC_Verify_total_valid (mkProofBobWC (Some pb) (Some U))
                pkA NTildeA h1A h2A cA cB B Hq Hv)
      as [[|] HV]; rewrite HV; cbn [obind negb deref].
    + destruct cB as [cB|].
      * cbn [deref obind].
        destruct (DecryptAndRecoverRandomness sk cB) as [[m r]|e].
        -- unfold big_Mod. apply Z.eqb_neq in Hq. rewrite Hq. cbn [obind].
           eexists. reflexivity.
        -- eexists. reflexivity.
      * exfalso.
        rewrite Verify_nil_argument in HV; [discriminate|].
        cbn [isNil]. rewrite !orb_true_r. reflexivity.
    + eexists. reflexivity.
Qed.

End Run.

End proofs_run.

(* ================================================================== *)
(** * Verification: honest runs with check *)
(* ================================================================== *)

Module proofs_run_wc.

Import mta statements contracts arith.
Import proofs_bob proofs_driver proofs_mta completeness proofs_run.

Section RunWC.

Context {curve : Curve} {hash : Hash} {rnd : RandSource}
        {paillier : Paillier} {rps : RangeProofSystem}.

(** X16. An honest run with check ends in a share.  For a key pair obeying
    the Paillier laws and the contract of [DecryptAndRecoverRandomness], a
    curve obeying the group laws, samplers and rejection sampling in range,
    [q > 0], [cA] an encryption of [a], [b >= 0], unit parameters
    [NTildeA], [h1A], [h2A] and the point [B = b·G]: when [BobMidWC]
    returns without error, [AliceEndWC] on its results returns
    [((a·b + betaPrm) mod N) mod q], [(a·b + betaPrm) mod N] and the
    randomness of [cB] if the responses satisfy the two bounds, and the
    error of a rejected proof otherwise. *)
Theorem MtAwc_honest_run_accepted :
  forall (pkA : PublicKey) (skA : PrivateKey) (PL : PaillierLaws pkA skA)
         (RcL : RecoverLaws pkA skA) (CL : CurveLaws)
         (RL : RandLaws) (HL : HashLaws) (Hq : 0 < q)
         (a b rA cA NTildeA h1A h2A : Z) (pf : option RangeProofAlice)
         (NTildeB h1B h2B : option Z) (t1 t2 : Tape) (res : BobMidWCResult),
    IsEncryption pkA a rA cA ->
    0 <= b ->
    0 < NTildeA -> Z.gcd h1A NTildeA = 1 -> Z.gcd h2A NTildeA = 1 ->
    BobMidWC (Some pkA) pf (Some b) (Some cA)
             (Some NTildeA) (Some h1A) (Some h2A) NTildeB h1B h2B
             (Some (ScalarBaseMult b)) t1
      = Returned (res, t2) ->
    bw_err res = None ->
    exists piB pb s1 tt1 betaPrm cB muRand,
      bw_piB res = Some piB /\ pf_ProofBob piB = Some pb /\
      pf_S1 pb = Some s1 /\ pf_T1 pb = Some tt1 /\
      bw_betaPrm res = Some betaPrm /\ bw_cB res = Some cB /\
      IsEncryption pkA ((a * b + betaPrm) mod pkN pkA) muRand cB /\
      AliceEndWC (Some pkA) (bw_piB res) (Some (ScalarBaseMult b)) (Some cA)
                 (bw_cB res) (Some NTildeA) (Some h1A) (Some h2A) (Some skA)
      = if (s1 <=? q ^ 3) && (tt1 <=? q ^ 7)
        then Returned (Ok (((a * b + betaPrm) mod pkN pkA) mod q,
                           (a * b + betaPrm) mod pkN pkA, muRand))
        else Returned (Err "ProofBobWC.Verify() returned false"%string).
Proof.
  intros pkA skA PL RcL CL RL HL Hq a b rA cA NTildeA h1A h2A pf NTildeB h1B h2B
         t1 t2 res HencA Hb HNT Gh1 Gh2 HBob Herr.
  destruct (BobMidWC_inv _ _ _ _ _ _ _ _ _ _ _ _ _ _ HBob Herr)
    as (betaPrm & cBetaPrm & cRand & c & cB & piB & ta & tb &
        Hdraw & Henc & Hmul & Hadd & HP & Hb1 & Hb2 & Hb3).
  destruct (cB_facts pkA skA PL a b rA cA betaPrm cBetaPrm cRand c cB ta tb
              HencA Hb Henc Hmul Hadd) as (Hbp & Hr' & HcB & Hst & GcA).
  pose proof (modulus_gt_1 (pk := pkA)) as HN.
  assert (HU : unitParams pkA NTildeA h1A h2A cA cRand).
  { repeat split; try assumption; apply Hr'. }
  destruct (ProveBobWC_check_verified RL HL Hq pkA NTildeA h1A h2A cA cB
              b betaPrm cRand tb t2 piB HU Hst Hb ltac:(lia) HP)
    as (pb & s1 & tt1 & Hpb & Hs1 & Ht1 & HV).
  exists piB, pb, s1, tt1, betaPrm, cB, ((rA ^ b * cRand) mod pkN pkA).
  split; [exact Hb1|]. split; [exact Hpb|]. split; [exact Hs1|].
  split; [exact Ht1|]. split; [exact Hb3|]. split; [exact Hb2|].
  split; [exact HcB|].
  unfold AliceEndWC. rewrite Hb1, Hb2, HV. cbn [obind].
  destruct ((s1 <=? q ^ 3) && (tt1 <=? q ^ 7)); cbn [negb]; [|reflexivity].
  cbn [deref obind]. rewrite (recover_law _ _ _ HcB).
  unfold big_Mod. destruct (q =? 0) eqn:Eq0; [apply Z.eqb_eq in Eq0; lia|].
  cbn [obind]. rewrite Z.abs_eq by lia. reflexivity.
Qed.

End RunWC.

End proofs_run_wc.

(* ================================================================== *)
(** * Verification: the prover's output on the wire *)
(* ================================================================== *)

Module proofs_wire_prover.

Import mta statements views bytes_proofs proofs_wire proofs_bob proofs_binding.
Import completeness proofs_parse.

Section Wire.

Context {curve : Curve} {hash : Hash} {rnd : RandSource}.

(** X4. Every proof that [ProveBobWC] returns passes
    [ProofBobWC.ValidateBasic]; on the same arguments and tape [ProveBob]
    returns a proof that passes [ProofBob.ValidateBasic] and leaves the same
    tape, and when [X] is nil it is the proof embedded in the one of
    [ProveBobWC]. *)
Theorem ProveBobWC_output_valid :
  forall (pk : option PublicKey) (NTilde h1 h2 c1 c2 x y r : option Z)
         (X : option ECPoint) (t t' : Tape) (pf : ProofBobWC),
    ProveBobWC pk NTilde h1 h2 c1 c2 x y r X t = Returned (Ok pf, t') ->
    ProofBobWC_ValidateBasic (Some pf) = Returned true /\
    exists piB,
      ProveBob pk NTilde h1 h2 c1 c2 x y r t = Returned (Ok (Some piB), t') /\
      ProofBob_ValidateBasic (Some piB) = Returned true /\
      (X = None -> pf_ProofBob pf = Some piB).
Proof.
  intros pk NTilde h1 h2 c1 c2 x y r X t t' pf H.
  destruct (anyNil pk NTilde h1 h2 c1 c2 x y r) eqn:E.
  { rewrite (ProveBobWC_nil _ _ _ _ _ _ _ _ _ X t E) in H. discriminate. }
  unfold anyNil in E.
  destruct pk as [pk|], NTilde as [NTilde|], h1 as [h1|], h2 as [h2|],
           c1 as [c1|], c2 as [c2|], x as [x|], y as [y|], r as [r|];
    cbn [isNil orb] in E; try discriminate.
  destruct (ProveBobWC_run pk NTilde h1 h2 c1 c2 x y r X t)
    as (alpha & rho & sigma & tau & rhoPrm & beta & gamma &
        t1 & t2 & t3 & t4 & t5 & t6 & t7 &
        E1 & E2 & E3 & E4 & E5 & E6 & E7 & Hrun).
  destruct (ProveBobWC_run pk NTilde h1 h2 c1 c2 x y r None t)
    as (alpha' & rho' & sigma' & tau' & rhoPrm' & beta' & gamma' &
        t1' & t2' & t3' & t4' & t5' & t6' & t7' &
        F1 & F2 & F3 & F4 & F5 & F6 & F7 & Hrun').
  cbv zeta in Hrun, Hrun'.
  rewrite E1 in F1; inversion F1; subst alpha' t1'.
  rewrite E2 in F2; inversion F2; subst rho' t2'.
  rewrite E3 in F3; inversion F3; subst sigma' t3'.
  rewrite E4 in F4; inversion F4; subst tau' t4'.
  rewrite E5 in F5; inversion F5; subst rhoPrm' t5'.
  rewrite E6 in F6; inversion F6; subst beta' t6'.
  rewrite E7 in F7; inversion F7; subst gamma' t7'.
  rewrite Hrun in H. inversion H; subst pf t'. clear H.
  split; [reflexivity|].
  eexists. split; [unfold ProveBob, rbind; rewrite Hrun'; reflexivity|].
  split; [reflexivity|].
  intros ->. reflexivity.
Qed.

(** X9. The proof that [ProveBobWC] returns for a nil [X] carries the point
    [U = (0, 0)]; [ProofBobWC.Bytes] encodes it in 12 parts of which the
    last two are empty, and both [ProofBobWCFromBytes] and
    [ProofBobFromBytes] answer this array with the error on the parts: a
    proof without check travels only in its 10-part encoding. *)
Theorem nocheck_proof_rejected_on_12_parts :
  forall (pk : option PublicKey) (NTilde h1 h2 c1 c2 x y r : option Z)
         (t t' : Tape) (pf : ProofBobWC),
    ProveBobWC pk NTilde h1 h2 c1 c2 x y r None t = Returned (Ok pf, t') ->
    exists bzs e,
      ProofBobWC_Bytes (Some pf) = Returned bzs /\
      List.length bzs = 12%nat /\
      nth_error bzs 10 = Some [] /\ nth_error bzs 11 = Some [] /\
      ProofBobWCFromBytes bzs = Returned (Err e) /\
      ProofBobFromBytes bzs = Returned (Err e).
Proof.
  intros pk NTilde h1 h2 c1 c2 x y r t t' pf H.
  destruct (anyNil pk NTilde h1 h2 c1 c2 x y r) eqn:E.
  { rewrite (ProveBobWC_nil _ _ _ _ _ _ _ _ _ None t E) in H. discriminate. }
  unfold anyNil in E.
  destruct pk as [pk|], NTilde as [NTilde|], h1 as [h1|], h2 as [h2|],
           c1 as [c1|], c2 as [c2|], x as [x|], y as [y|], r as [r|];
    cbn [isNil orb] in E; try discriminate.
  destruct (ProveBobWC_run pk NTilde h1 h2 c1 c2 x y r None t)
    as (alpha & rho & sigma & tau & rhoPrm & beta & gamma &
        t1 & t2 & t3 & t4 & t5 & t6 & t7 & _ & _ & _ & _ & _ & _ & _ & Hrun).
  cbv zeta in Hrun. rewrite Hrun in H. inversion H; subst pf t'. clear H Hrun.
  match goal with
  | |- context [mkProofBob (Some ?z) (Some ?zp) (Some ?t0) (Some ?v) (Some ?w)
                           (Some ?s) (Some ?s1) (Some ?s2) (Some ?tt1) (Some ?tt2)] =>
      exists (map big_Bytes [z; zp; t0; v; w; s; s1; s2; tt1; tt2; 0; 0])
  end.
  eexists.
  split; [reflexivity|]. split; [reflexivity|].
  split; [reflexivity|]. split; [reflexivity|].
  assert (F : forall l, ProofBobFromBytes (map big_Bytes (l ++ [0; 0]))
              = Returned (Err "expected 10 byte parts to construct ProofBob, or 12 for ProofBobWC"%string)
              \/ List.length l <> 10%nat).
  { intros l. destruct (Nat.eq_dec (List.length l) 10) as [Hl|Hl]; [left|right; exact Hl].
    unfold ProofBobFromBytes, ProofBobBytesParts, ProofBobWCBytesParts.
    change 10 with (Z.of_nat 10). change 12 with (Z.of_nat 12).
    rewrite (NonEmptyMultiBytes_Bytes _ 12)
      by (try lia; rewrite length_app, Hl; reflexivity).
    rewrite (NonEmptyMultiBytes_length _ 10)
      by (rewrite length_map, length_app, Hl; cbn; lia).
    rewrite forallb_app. cbn [forallb nonZero Z.eqb negb andb].
    rewrite andb_false_r. reflexivity. }
  match goal with
  | |- context [map big_Bytes [?z; ?zp; ?t0; ?v; ?w; ?s; ?s1; ?s2; ?tt1; ?tt2; 0; 0]] =>
      destruct (F [z; zp; t0; v; w; s; s1; s2; tt1; tt2]) as [HF|HF];
        [|cbn in HF; congruence]
  end.
  cbn [app] in HF. split; [|exact HF].
  unfold ProofBobWCFromBytes. rewrite HF. reflexivity.
Qed.

End Wire.

Section Accepted.

Context {curve : Curve} {hash : Hash}.

Ltac open_field H :=
  match type of H with
  | context [deref ?p] =>
      is_var p; destruct p; cbn [deref obind] in H; [|discriminate H]
  end.

(** What an accepting run of the verifier without check has established
    about the ten integers of the proof. *)
Lemma ProofBob_Verify_true_inv (pb : ProofBob) (pk : PublicKey)
    (NTilde h1 h2 c1 c2 : Z) :
  ProofBob_Verify (Some pb) (Some pk) (Some NTilde) (Some h1) (Some h2)
                  (Some c1) (Some c2) = Returned true ->
  exists z zPrm T V W S' S1 S2 T1 T2,
    pb = mkProofBob (Some z) (Some zPrm) (Some T) (Some V) (Some W)
                    (Some S') (Some S1) (Some S2) (Some T1) (Some T2) /\
    0 <= z < NTilde /\ 0 <= zPrm < NTilde /\ 0 <= T < NTilde /\
    0 <= V < NSquare pk /\ 0 <= W < NTilde /\ 0 <= S' < pkN pk /\
    Z.gcd z NTilde = 1 /\ Z.gcd zPrm NTilde = 1 /\ Z.gcd T NTilde = 1 /\
    Z.gcd W NTilde = 1 /\
    S' <> 0 /\ V <> 0 /\ S1 <= q ^ 3 /\ T1 <= q ^ 7.
Proof.
  destruct pb as [p1 p2 p3 p4 p5 p6 p7 p8 p9 p10].
  unfold ProofBob_Verify, ProofBobWC_Verify, IsInInterval.
  cbn [deref obind pf_ProofBob pf_U pf_Z pf_ZPrm pf_T pf_V pf_W pf_S
       pf_S1 pf_S2 pf_T1 pf_T2].
  intros H.
  repeat first [ progress step_checks H | open_field H ].
  cbn [negb] in H. repeat first [ progress step_checks H | open_field H ].
  do 10 eexists. split; [reflexivity|].
  repeat match goal with
         | E : negb _ = false |- _ => apply negb_false_iff in E
         end.
  repeat match goal with
         | E : (_ && _) = true |- _ => apply andb_true_iff in E; destruct E
         | E : (_ <? _) = true |- _ => apply Z.ltb_lt in E
         | E : (_ <=? _) = true |- _ => apply Z.leb_le in E
         | E : (_ =? _) = true |- _ => apply Z.eqb_eq in E
         | E : (_ =? _) = false |- _ => apply Z.eqb_neq in E
         | E : (_ >? _) = false |- _ => rewrite Z.gtb_ltb in E; apply Z.ltb_ge in E
         end.
  unfold one, zero in *.
  assert (Q3 : q * (q * q) = q ^ 3) by ring.
  assert (Q7 : q * (q * q) * (q * (q * q)) * q = q ^ 7) by ring.
  rewrite Q3 in *. rewrite Q7 in *.
  repeat split; assumption.
Qed.

(** X10. A proof that [ProofBob.Verify] accepts for [NTilde > 1], and whose
    responses [S1], [S2], [T1], [T2] are positive, is encoded by
    [ProofBob.Bytes] in 10 non-empty parts from which [ProofBobFromBytes]
    returns the same proof. *)
Theorem accepted_proof_survives_the_wire :
  forall (pb : ProofBob) (pk : PublicKey) (NTilde h1 h2 c1 c2 : Z)
         (s1 s2 t1 t2 : Z),
    1 < NTilde ->
    ProofBob_Verify (Some pb) (Some pk) (Some NTilde) (Some h1) (Some h2)
                    (Some c1) (Some c2) = Returned true ->
    pf_S1 pb = Some s1 -> pf_S2 pb = Some s2 ->
    pf_T1 pb = Some t1 -> pf_T2 pb = Some t2 ->
    0 < s1 -> 0 < s2 -> 0 < t1 -> 0 < t2 ->
    exists bzs,
      ProofBob_Bytes (Some pb) = Returned bzs /\
      nonEmptyParts 10 bzs /\
      ProofBobFromBytes bzs = Returned (Ok pb).
Proof.
  intros pb pk NTilde h1 h2 c1 c2 s1 s2 t1 t2 HNT HV Hs1 Hs2 Ht1 Ht2 P1 P2 P3 P4.
  destruct (ProofBob_Verify_true_inv pb pk NTilde h1 h2 c1 c2 HV)
    as (z & zPrm & T & V & W & S' & S1 & S2 & T1 & T2 & -> &
        Rz & Rzp & RT & RV & RW & RS & Gz & Gzp & GT & GW & NS & NV & _ & _).
  cbn [pf_S1 pf_S2 pf_T1 pf_T2] in Hs1, Hs2, Ht1, Ht2.
  inversion Hs1; inversion Hs2; inversion Ht1; inversion Ht2; subst S1 S2 T1 T2.
  assert (Nz : z <> 0) by (apply (unit_nonzero z NTilde); assumption).
  assert (Nzp : zPrm <> 0) by (apply (unit_nonzero zPrm NTilde); assumption).
  assert (NT : T <> 0) by (apply (unit_nonzero T NTilde); assumption).
  assert (NW : W <> 0) by (apply (unit_nonzero W NTilde); assumption).
  exists (map big_Bytes [z; zPrm; T; V; W; S'; s1; s2; t1; t2]).
  split; [reflexivity|].
  assert (NZ : forallb nonZero [z; zPrm; T; V; W; S'; s1; s2; t1; t2] = true).
  { cbn [forallb]. unfold nonZero.
    repeat (apply andb_true_iff; split);
      try reflexivity; apply negb_true_iff; apply Z.eqb_neq; lia. }
  split.
  - apply (NonEmptyMultiBytes_iff _ 10); [lia|].
    rewrite (NonEmptyMultiBytes_Bytes _ 10) by (try reflexivity; lia). exact NZ.
  - unfold ProofBobFromBytes, ProofBobBytesParts, ProofBobWCBytesParts.
    change 10 with (Z.of_nat 10). change 12 with (Z.of_nat 12).
    rewrite (NonEmptyMultiBytes_Bytes _ 10) by (try reflexivity; lia).
    rewrite NZ. cbn [negb andb map index nth_error deref obind].
    rewrite !SetBytes_Bytes. rewrite !Z.abs_eq by lia. reflexivity.
Qed.

End Accepted.

End proofs_wire_prover.

(* ================================================================== *)
(** * Verification: committees and constructors of tss/params.go *)
(* ================================================================== *)

Module tss_committees.

Import tss tss_proofs.

Lemma existsb_sameKey (me : PartyID) (ids : list PartyID) :
  existsb (sameKey me) ids = true <-> exists Pj, In Pj ids /\ Key Pj = Key me.
Proof.
  rewrite existsb_exists. unfold sameKey. split.
  - intros [Pj [Hin HK]]. apply Z.eqb_eq in HK. exists Pj. split; [exact Hin|]. lia.
  - intros [Pj [Hin HK]]. exists Pj. split; [exact Hin|]. apply Z.eqb_eq. lia.
Qed.

Lemma committee_scan (me : option PartyID) (ids : list PartyID) :
  match ids with
  | [] => Returned false
  | _ :: _ => (m <- deref me ;; Returned (existsb (sameKey m) ids))%outcome
  end
  = match me with
    | Some m => Returned (existsb (sameKey m) ids)
    | None => match ids with [] => Returned false | _ :: _ => Panicked end
    end.
Proof. destruct ids, me; reflexivity. Qed.

(** X18. [IsOldCommittee] and [IsNewCommittee] compare keys only.  With a
    party identity present, each returns true exactly when some party of
    its committee has the party's key, whatever its moniker and index, and
    false exactly when none has.  With a nil party identity each returns
    false on an empty committee and panics on a non-empty one. *)
Theorem committee_membership_by_key :
  forall (rg : ReSharingParameters) (p : Parameters) (ctx newCtx : PeerContext),
    Parameters_ rg = Some p ->
    parties p = Some ctx ->
    newParties rg = Some newCtx ->
    (forall me : PartyID, partyID p = Some me ->
        (IsOldCommittee (Some rg) = Returned true <->
         exists Pj, In Pj (partyIDs ctx) /\ Key Pj = Key me) /\
        (IsOldCommittee (Some rg) = Returned false <->
         forall Pj, In Pj (partyIDs ctx) -> Key Pj <> Key me) /\
        (IsNewCommittee (Some rg) = Returned true <->
         exists Pj, In Pj (partyIDs newCtx) /\ Key Pj = Key me) /\
        (IsNewCommittee (Some rg) = Returned false <->
         forall Pj, In Pj (partyIDs newCtx) -> Key Pj <> Key me)) /\
    (partyID p = None ->
        (IsOldCommittee (Some rg) = Returned false <-> partyIDs ctx = []) /\
        (IsOldCommittee (Some rg) = Panicked <-> partyIDs ctx <> []) /\
        (IsNewCommittee (Some rg) = Returned false <-> partyIDs newCtx = []) /\
        (IsNewCommittee (Some rg) = Panicked <-> partyIDs newCtx <> [])).
Proof.
  intros rg p ctx newCtx Hp Hctx Hnew.
  assert (HO : IsOldCommittee (Some rg)
               = match partyID p with
                 | Some m => Returned (existsb (sameKey m) (partyIDs ctx))
                 | None => match partyIDs ctx with
                           | [] => Returned false | _ :: _ => Panicked end
                 end).
  { unfold IsOldCommittee, IDs. cbn [deref obind]. rewrite Hp. cbn [deref obind].
    rewrite Hctx. cbn [deref obind]. apply committee_scan. }
  assert (HNw : IsNewCommittee (Some rg)
               = match partyID p with
                 | Some m => Returned (existsb (sameKey m) (partyIDs newCtx))
                 | None => match partyIDs newCtx with
                           | [] => Returned false | _ :: _ => Panicked end
                 end).
  { unfold IsNewCommittee, IDs. cbn [deref obind]. rewrite Hp. cbn [deref obind].
    rewrite Hnew. cbn [deref obind]. apply committee_scan. }
  assert (Hno : forall me ids,
             existsb (sameKey me) ids = false <->
             forall Pj, In Pj ids -> Key Pj <> Key me).
  { intros me ids. split.
    - intros H Pj Hin HK.
      assert (T : existsb (sameKey me) ids = true)
        by (apply existsb_sameKey; exists Pj; auto).
      congruence.
    - intros H. destruct (existsb (sameKey me) ids) eqn:E; [|reflexivity].
      apply existsb_sameKey in E. destruct E as [Pj [Hin HK]].
      destruct (H Pj Hin HK). }
  split.
  - intros me Hme. rewrite HO, HNw, Hme. repeat split.
    + intros H. apply existsb_sameKey. congruence.
    + intros H. apply existsb_sameKey in H. congruence.
    + intros H. apply Hno. congruence.
    + intros H. apply Hno in H. congruence.
    + intros H. apply existsb_sameKey. congruence.
    + intros H. apply existsb_sameKey in H. congruence.
    + intros H. apply Hno. congruence.
    + intros H. apply Hno in H. congruence.
  - intros Hme. rewrite HO, HNw, Hme.
    destruct (partyIDs ctx), (partyIDs newCtx); repeat split;
      intros; try reflexivity; try discriminate; try congruence.
Qed.

Lemma In_twice_key (me : PartyID) (l1 l2 : list PartyID) :
  existsb (sameKey me) l1 = true -> existsb (sameKey me) l2 = true ->
  exists u v w P P',
    l1 ++ l2 = u ++ P :: v ++ P' :: w /\ Key P = Key me /\ Key P' = Key me.
Proof.
  intros H1 H2.
  apply existsb_sameKey in H1, H2.
  destruct H1 as [P [H1 K1]]. destruct H2 as [P' [H2 K2]].
  apply in_split in H1. destruct H1 as [u [v1 ->]].
  apply in_split in H2. destruct H2 as [v2 [w ->]].
  exists u, (v1 ++ v2), w, P, P'. split; [|split; assumption].
  rewrite <- ?app_assoc. simpl. rewrite <- ?app_assoc. reflexivity.
Qed.

(** X19. When [IsOldCommittee] and [IsNewCommittee] both return true, the
    list of [OldAndNewParties] holds the party's key at two positions, one
    in the old and one in the new committee. *)
Theorem both_committees_listed_twice :
  forall (rg : ReSharingParameters),
    IsOldCommittee (Some rg) = Returned true ->
    IsNewCommittee (Some rg) = Returned true ->
    exists (p : Parameters) (me : PartyID) (u v w : list PartyID) (P P' : PartyID),
      Parameters_ rg = Some p /\ partyID p = Some me /\
      OldAndNewParties (Some rg) = Returned (u ++ P :: v ++ P' :: w) /\
      Key P = Key me /\ Key P' = Key me.
Proof.
  intros rg HO HNw.
  unfold IsOldCommittee, IDs in HO. unfold IsNewCommittee, IDs in HNw.
  cbn [deref obind] in HO, HNw.
  destruct (Parameters_ rg) as [p|] eqn:Hp; [|discriminate].
  cbn [deref obind] in HO, HNw.
  destruct (parties p) as [ctx|] eqn:Hctx; [|discriminate].
  destruct (newParties rg) as [newCtx|] eqn:Hnew; [|discriminate].
  cbn [deref obind] in HO, HNw.
  rewrite committee_scan in HO, HNw.
  destruct (partyID p) as [me|] eqn:Hme.
  2: { destruct (partyIDs ctx); discriminate. }
  inversion HO as [HO']. inversion HNw as [HN'].
  destruct (In_twice_key me _ _ HO' HN') as (u & v & w & P & P' & E & K & K').
  exists p, me, u, v, w, P, P'.
  split; [reflexivity|]. split; [exact Hme|]. split; [|split; assumption].
  unfold OldAndNewParties, OldParties, NewParties, Parties, IDs.
  cbn [deref obind]. rewrite Hp. cbn [deref obind]. rewrite Hctx. cbn [deref obind].
  rewrite Hnew. cbn [deref obind]. rewrite E. reflexivity.
Qed.

(** X20. [NewReSharingParameters] never panics, and the getters of its
    result return the constructor's arguments; the safe-prime timeout is
    the default of 5 minutes, which the constructor offers no way to
    change, and the unsafe flag is off.  [OldAndNewPartyCount] adds the two
    counts given, and [OldAndNewParties] panics when a peer context is
    nil. *)
Theorem NewReSharingParameters_getters :
  forall (ctx newCtx : option PeerContext) (pid : option PartyID)
         (n t n' t' : Z),
    exists rg,
      NewReSharingParameters ctx newCtx pid n t n' t' = Returned (Some rg) /\
      OldParties (Some rg) = Returned ctx /\
      NewParties (Some rg) = Returned newCtx /\
      PartyID_ (Parameters_ rg) = Returned pid /\
      OldPartyCount (Some rg) = Returned n /\
      PartyCount (Parameters_ rg) = Returned n /\
      Threshold (Parameters_ rg) = Returned t /\
      NewPartyCount (Some rg) = Returned n' /\
      NewThreshold (Some rg) = Returned t' /\
      SafePrimeGenTimeout (Parameters_ rg) = Returned (5 * Minute) /\
      UNSAFE_KGIgnoreH1H2Dupes (Parameters_ rg) = Returned false /\
      OldAndNewPartyCount (Some rg) = Returned (int_add n n') /\
      OldAndNewParties (Some rg)
      = match ctx, newCtx with
        | Some c, Some c' => Returned (partyIDs c ++ partyIDs c')
        | _, _ => Panicked
        end.
Proof.
  intros ctx newCtx pid n t n' t'.
  eexists. split; [reflexivity|].
  repeat (split; [reflexivity|]).
  destruct ctx, newCtx; reflexivity.
Qed.

Lemma wrap_int_range (z : Z) : in_int (wrap_int z).
Proof.
  unfold in_int, wrap_int, int_min, int_max.
  pose proof (Z.mod_pos_bound (z + 2 ^ 63) (2 ^ 64) ltac:(lia)). lia.
Qed.

Lemma wrap_int_overflow (z : Z) :
  int_max < z <= int_max + 2 ^ 64 -> wrap_int z = z - 2 ^ 64.
Proof.
  unfold wrap_int, int_max. intros H.
  replace (z + 2 ^ 63) with ((z - 2 ^ 63) + 1 * 2 ^ 64) by lia.
  rewrite Z.mod_add by lia. rewrite Z.mod_small by lia. lia.
Qed.

(** X21. [OldAndNewPartyCount] is the Go [int] sum of the two counts given
    to the constructor, which are not compared with the peer contexts: the
    result lies in the range of [int], is the exact sum when that fits,
    and wraps around by [2^64] (to a negative number on overflow) when it
    does not; it equals the length of [OldAndNewParties] when the two
    counts are the lengths of the two committees and their sum fits. *)
Theorem OldAndNewPartyCount_wraps :
  forall (ctx newCtx : PeerContext) (pid : option PartyID) (n t n' t' : Z),
    in_int n -> in_int n' ->
    exists rg ids k,
      NewReSharingParameters (Some ctx) (Some newCtx) pid n t n' t'
      = Returned (Some rg) /\
      OldAndNewParties (Some rg) = Returned ids /\
      List.length ids = (List.length (partyIDs ctx) + List.length (partyIDs newCtx))%nat /\
      OldAndNewPartyCount (Some rg) = Returned k /\
      in_int k /\
      (in_int (n + n') -> k = n + n') /\
      (int_max < n + n' -> k = n + n' - 2 ^ 64 /\ k < 0) /\
      (n + n' < int_min -> k = n + n' + 2 ^ 64 /\ 0 <= k) /\
      (n = Z.of_nat (List.length (partyIDs ctx)) ->
       n' = Z.of_nat (List.length (partyIDs newCtx)) ->
       in_int (n + n') ->
       k = Z.of_nat (List.length ids)).
Proof.
  intros ctx newCtx pid n t n' t' Hn Hn'.
  exists {| Parameters_ := Some {| partyID := pid; parties := Some ctx;
                                   partyCount := n; threshold := t;
                                   safePrimeGenTimeout := defaultSafePrimeGenTimeout;
                                   unsafeKGIgnoreH1H2Dupes := false |};
            newParties := Some newCtx; newPartyCount := n'; newThreshold := t' |},
         (partyIDs ctx ++ partyIDs newCtx), (int_add n n').
  split; [reflexivity|]. split; [reflexivity|].
  split; [apply length_app|]. split; [reflexivity|].
  split; [apply wrap_int_range|].
  split; [apply int_add_exact|].
  unfold in_int, int_min, int_max in Hn, Hn'.
  split; [|split].
  - intros H. unfold int_add. rewrite wrap_int_overflow.
    + unfold int_max in H. split; [reflexivity|]. lia.
    + unfold int_max in *. lia.
  - intros H. unfold int_add, wrap_int, int_min in *.
    replace (n + n' + 2 ^ 63) with ((n + n' + 2 ^ 63 + 2 ^ 64) + (-1) * 2 ^ 64) by lia.
    rewrite Z.mod_add by lia. rewrite Z.mod_small by lia. lia.
  - intros H1 H2 Hfit. rewrite length_app, Nat2Z.inj_add, <- H1, <- H2.
    apply int_add_exact. exact Hfit.
Qed.

(** X22. [NewParameters] panics exactly when more than one optional timeout
    is passed; otherwise it returns non-nil parameters whose getters return
    the arguments, whose timeout is the optional one if present and the
    default otherwise, and whose unsafe flag is off. *)
Theorem NewParameters_outcomes :
  forall (ctx : option PeerContext) (pid : option PartyID) (n t : Z)
         (opt : list Duration),
    (NewParameters ctx pid n t opt = Panicked <-> (1 < List.length opt)%nat) /\
    (forall r, NewParameters ctx pid n t opt = Returned r ->
       exists p,
         r = Some p /\
         Parties (Some p) = Returned ctx /\
         PartyID_ (Some p) = Returned pid /\
         PartyCount (Some p) = Returned n /\
         Threshold (Some p) = Returned t /\
         SafePrimeGenTimeout (Some p) = Returned (hd defaultSafePrimeGenTimeout opt) /\
         UNSAFE_KGIgnoreH1H2Dupes (Some p) = Returned false).
Proof.
  intros ctx pid n t opt.
  destruct opt as [|d [|d' opt]].
  - split.
    + split; [discriminate|]. cbn. lia.
    + intros r H. cbn in H. inversion H; subst r.
      eexists. repeat split.
  - split.
    + split; [discriminate|]. cbn. lia.
    + intros r H. cbn in H. inversion H; subst r.
      eexists. repeat split.
  - assert (P : NewParameters ctx pid n t (d :: d' :: opt) = Panicked).
    { unfold NewParameters.
      assert (E0 : (0 <? Z.of_nat (List.length (d :: d' :: opt))) = true)
        by (apply Z.ltb_lt; cbn [List.length]; lia).
      assert (E1 : (1 <? Z.of_nat (List.length (d :: d' :: opt))) = true)
        by (apply Z.ltb_lt; cbn [List.length]; lia).
      rewrite E0, E1. reflexivity. }
    split.
    + split; [intros _; cbn [List.length]; lia | intros _; exact P].
    + intros r H. rewrite P in H. discriminate.
Qed.

(** X23. After [UNSAFE_setKGIgnoreH1H2Dupes(flag)] the getter returns
    [flag]; every other getter returns what it returned before, a later
    call of the setter overrides the earlier one, and setting the value the
    flag already has changes nothing. *)
Theorem UNSAFE_flag_set_then_get :
  forall (p : Parameters) (flag : bool),
    exists p',
      UNSAFE_setKGIgnoreH1H2Dupes (Some p) flag = Returned p' /\
      UNSAFE_KGIgnoreH1H2Dupes (Some p') = Returned flag /\
      Parties (Some p') = Parties (Some p) /\
      PartyID_ (Some p') = PartyID_ (Some p) /\
      PartyCount (Some p') = PartyCount (Some p) /\
      Threshold (Some p') = Threshold (Some p) /\
      SafePrimeGenTimeout (Some p') = SafePrimeGenTimeout (Some p) /\
      (forall flag', UNSAFE_setKGIgnoreH1H2Dupes (Some p') flag'
                     = UNSAFE_setKGIgnoreH1H2Dupes (Some p) flag') /\
      (flag = unsafeKGIgnoreH1H2Dupes p -> p' = p).
Proof.
  intros p flag. eexists. split; [reflexivity|].
  repeat (split; [reflexivity|]).
  intros ->. destruct p; reflexivity.
Qed.

End tss_committees.

(* ================================================================== *)
(** * Instances of the further theorems *)
(* ================================================================== *)

Module further_examples.

Import mta statements contracts views Small fixtures small_laws small_group.
Import tss proofs_bob proofs_driver completeness proofs_valid proofs_parse.
Import proofs_agreement proofs_run proofs_run_wc proofs_wire_prover tss_committees.

Lemma q_is_7 : 0 < q.
Proof. reflexivity. Defined.

Lemma units_6 : unitParams pk15 NTilde77 h1_77 h2_77 cA_6 7.
Proof. repeat split. Defined.

Lemma units_4 : unitParams pk15 NTilde77 h1_77 h2_77 cA_4 7.
Proof. repeat split. Defined.

Lemma cA_2_encrypts_2 : IsEncryption pk15 2 rA0 cA_2.
Proof. repeat split; try (cbn; lia); reflexivity. Defined.

Lemma ProveBob_accepted_iff_bounds_witness :
  exists s1 t1,
    pf_S1 piB_6_3 = Some s1 /\ pf_T1 piB_6_3 = Some t1 /\
    0 <= s1 /\ 0 <= t1 /\
    ProofBob_Verify (Some piB_6_3) (Some pk15) (Some NTilde77) (Some h1_77)
                    (Some h2_77) (Some cA_6) (Some 206)
    = Returned ((s1 <=? q ^ 3) && (t1 <=? q ^ 7)).
Proof.
  apply (ProveBob_accepted_iff_bounds (curve := curve) (hash := hash) (rnd := rnd)
           rnd_laws hash_laws q_is_7
           pk15 NTilde77 h1_77 h2_77 cA_6 206 3 9 7
           [11; 12; 13; 14; 15; 2; 17] [] piB_6_3).
  - exact units_6.
  - vm_compute. reflexivity.
  - lia.
  - lia.
  - vm_compute. reflexivity.
Defined.

Lemma ProveBobWC_accepted_iff_bounds_witness :
  exists pb s1 t1,
    pf_ProofBob pfWC = Some pb /\ pf_S1 pb = Some s1 /\ pf_T1 pb = Some t1 /\
    ProofBobWC_Verify (Some pfWC) (Some pk15) (Some NTilde77) (Some h1_77)
                      (Some h2_77) (Some cA_4) (Some 14) (Some X5)
    = Returned ((s1 <=? q ^ 3) && (t1 <=? q ^ 7)).
Proof.
  apply (ProveBobWC_accepted_iff_bounds (curve := curve) (hash := hash) (rnd := rnd)
           (CL := curve_laws) rnd_laws hash_laws q_is_7
           pk15 NTilde77 h1_77 h2_77 cA_4 14 5 9 7 X5 tapeWC [] pfWC).
  - exact units_4.
  - vm_compute. reflexivity.
  - lia.
  - lia.
  - vm_compute. reflexivity.
  - vm_compute. reflexivity.
Defined.

Lemma pfWC_fields_nonneg :
  forall pb, pf_ProofBob pfWC = Some pb -> Forall nonNegative (fields pb).
Proof.
  intros pb H. inversion H; subst pb.
  repeat (apply Forall_cons; [eexists; split; [reflexivity | lia]|]).
  apply Forall_nil.
Defined.

Lemma ValidateBasic_guards_Verify_witness :
  exists pb,
    pf_ProofBob pfWC = Some pb /\
    (exists b, ProofBob_Verify (Some pb) (Some pk15) (Some NTilde77)
                 (Some h1_77) (Some h2_77) (Some cA_4) (Some 14) = Returned b) /\
    (exists b, ProofBobWC_Verify (Some pfWC) (Some pk15) (Some NTilde77)
                 (Some h1_77) (Some h2_77) (Some cA_4) (Some 14) (Some ed_G)
               = Returned b).
Proof.
  eexists. split; [reflexivity|].
  apply (ValidateBasic_guards_Verify (curve := curve) (hash := hash)
           hash_laws q_is_7 pfWC).
  - reflexivity.
  - reflexivity.
  - apply pfWC_fields_nonneg. reflexivity.
Defined.

Lemma ProveBobWC_output_valid_witness :
  ProofBobWC_ValidateBasic (Some pfWC) = Returned true /\
  exists piB,
    ProveBob (Some pk15) (Some NTilde77) (Some h1_77) (Some h2_77)
             (Some cA_4) (Some 14) (Some 5) (Some 9) (Some 7) tapeWC
    = Returned (Ok (Some piB), []) /\
    ProofBob_ValidateBasic (Some piB) = Returned true /\
    (Some X5 = None -> pf_ProofBob pfWC = Some piB).
Proof.
  apply (ProveBobWC_output_valid (curve := curve) (hash := hash) (rnd := rnd)
           (Some pk15) (Some NTilde77) (Some h1_77) (Some h2_77)
           (Some cA_4) (Some 14) (Some 5) (Some 9) (Some 7) (Some X5) tapeWC [] pfWC).
  vm_compute. reflexivity.
Defined.

Lemma ProofBobFromBytes_valid_witness :
  ProofBob_ValidateBasic (Some piB_6_3) = Returned true /\
  Forall nonNegative (fields piB_6_3) /\
  (forall (pk : option PublicKey) (NTilde h1 h2 c1 c2 : option Z),
      exists b, ProofBob_Verify (Some piB_6_3) pk NTilde h1 h2 c1 c2 = Returned b).
Proof.
  apply (ProofBobFromBytes_valid (curve := curve) (hash := hash)
           hash_laws q_is_7 piB_6_3_parts piB_6_3).
  vm_compute. reflexivity.
Defined.

Lemma nocheck_proof_rejected_on_12_parts_witness :
  exists bzs e,
    ProofBobWC_Bytes (Some (mkProofBobWC (Some piB_6_3) (Some (mkECPoint 0 0))))
    = Returned bzs /\
    List.length bzs = 12%nat /\
    nth_error bzs 10 = Some [] /\ nth_error bzs 11 = Some [] /\
    ProofBobWCFromBytes (curve := curve) bzs = Returned (Err e) /\
    ProofBobFromBytes bzs = Returned (Err e).
Proof.
  apply (nocheck_proof_rejected_on_12_parts (curve := curve) (hash := hash) (rnd := rnd)
           (Some pk15) (Some NTilde77) (Some h1_77) (Some h2_77)
           (Some cA_6) (Some 206) (Some 3) (Some 9) (Some 7)
           [11; 12; 13; 14; 15; 2; 17] []).
  vm_compute. reflexivity.
Defined.

Lemma accepted_proof_survives_the_wire_witness :
  exists bzs,
    ProofBob_Bytes (Some piB_6_3) = Returned bzs /\
    nonEmptyParts 10 bzs /\
    ProofBobFromBytes bzs = Returned (Ok piB_6_3).
Proof.
  apply (accepted_proof_survives_the_wire (curve := curve) (hash := hash)
           piB_6_3 pk15 NTilde77 h1_77 h2_77 cA_6 206 23 63 53 66);
    first [reflexivity | lia | (vm_compute; reflexivity)].
Defined.

Lemma ProveBobWC_commitments_independent_of_X_witness :
  exists pb pb' u u',
    pfWC = mkProofBobWC (Some pb) (Some u) /\
    ProveBobWC (Some pk15) (Some NTilde77) (Some h1_77) (Some h2_77)
               (Some cA_4) (Some 14) (Some 5) (Some 9) (Some 7) None tapeWC
    = Returned (Ok (mkProofBobWC (Some pb') (Some u')), []) /\
    commitments pb = commitments pb' /\
    (isNil (Some X5) = isNil (@None ECPoint) -> u = u') /\
    (Some X5 = None -> u = mkECPoint 0 0) /\
    (Some X5 <> None -> u = ScalarBaseMult (fst (GetRandomPositiveInt (q * q * q) tapeWC))).
Proof.
  apply (ProveBobWC_commitments_independent_of_X
           (curve := curve) (hash := hash) (rnd := rnd)
           (Some pk15) (Some NTilde77) (Some h1_77) (Some h2_77)
           (Some cA_4) (Some 14) (Some 5) (Some 9) (Some 7) (Some X5) None tapeWC []).
  vm_compute. reflexivity.
Defined.

Lemma BobMid_BobMidWC_agree_witness :
  match BobMid (Some pk15) (Some piA_2) (Some 2) (Some cA_2)
               (Some NTilde77) (Some h1_77) (Some h2_77)
               (Some NTilde77) (Some h1_77) (Some h2_77) tapeBob,
        BobMidWC (Some pk15) (Some piA_2) (Some 2) (Some cA_2)
                 (Some NTilde77) (Some h1_77) (Some h2_77)
                 (Some NTilde77) (Some h1_77) (Some h2_77) (Some G2) tapeBob with
  | Returned (res, t1), Returned (resWC, t2) =>
      t1 = t2 /\
      bm_betaPrm res = bw_betaPrm resWC /\
      bm_cB res = bw_cB resWC /\
      bm_err res = bw_err resWC /\
      bm_beta res = match bw_cB resWC, bw_betaPrm resWC with
                    | Some _, Some betaPrm => Some (ModInt_Sub q zero betaPrm)
                    | _, _ => None
                    end /\
      option_map commitments (bm_piB res)
      = match bw_piB resWC with
        | Some piB => option_map commitments (pf_ProofBob piB)
        | None => None
        end /\
      (Some G2 = None ->
       bm_piB res = match bw_piB resWC with
                    | Some piB => pf_ProofBob piB
                    | None => None
                    end)
  | Panicked, Panicked => True
  | _, _ => False
  end.
Proof.
  exact (BobMid_BobMidWC_agree (paillier := paillier) (rps := rps) q_is_7
           (Some pk15) (Some piA_2) (Some 2) (Some cA_2)
           (Some NTilde77) (Some h1_77) (Some h2_77)
           (Some NTilde77) (Some h1_77) (Some h2_77) (Some G2) tapeBob).
Defined.

Lemma BobMid_results_wellformed_witness :
  (bm_err bob_6_3 = None <-> bm_piB bob_6_3 <> None) /\
  (bm_piB bob_6_3 <> None ->
   bm_beta bob_6_3 <> None /\ bm_cB bob_6_3 <> None /\ bm_betaPrm bob_6_3 <> None /\
   ProofBob_ValidateBasic (bm_piB bob_6_3) = Returned true) /\
  (bm_cB bob_6_3 <> None <-> bm_beta bob_6_3 <> None) /\
  (bm_cB bob_6_3 <> None -> bm_betaPrm bob_6_3 <> None) /\
  (RangeProofAlice_Verify (Some piA_6) (Some pk15) (Some NTilde77) (Some h1_77)
     (Some h2_77) (Some cA_6) = Returned true ->
   bm_betaPrm bob_6_3 <> None).
Proof.
  apply (BobMid_results_wellformed (paillier := paillier) (rps := rps)
           (Some pk15) (Some piA_6) (Some 3) (Some cA_6)
           (Some NTilde77) (Some h1_77) (Some h2_77)
           (Some NTilde77) (Some h1_77) (Some h2_77) tapeBob [] bob_6_3).
  vm_compute. reflexivity.
Defined.

Lemma MtA_honest_run_accepted_witness :
  exists piB s1 tt1 betaPrm,
    bm_piB bob_2_2 = Some piB /\ pf_S1 piB = Some s1 /\ pf_T1 piB = Some tt1 /\
    bm_betaPrm bob_2_2 = Some betaPrm /\
    AliceEnd (Some pk15) (bm_piB bob_2_2) (Some h1_77) (Some h2_77) (Some cA_2)
             (bm_cB bob_2_2) (Some NTilde77) (Some sk15)
    = if (s1 <=? q ^ 3) && (tt1 <=? q ^ 7)
      then Returned (Ok (((2 * 2 + betaPrm) mod pkN pk15) mod q))
      else Returned (Err "ProofBob.Verify() returned false"%string).
Proof.
  apply (MtA_honest_run_accepted (paillier := paillier) (rps := rps)
           pk15 sk15 paillier15_laws rnd_laws hash_laws q_is_7
           2 2 rA0 cA_2 NTilde77 h1_77 h2_77 (Some piA_2)
           (Some NTilde77) (Some h1_77) (Some h2_77) tapeBob []).
  - exact cA_2_encrypts_2.
  - lia.
  - reflexivity.
  - reflexivity.
  - reflexivity.
  - vm_compute. reflexivity.
  - reflexivity.
Defined.

Lemma MtAwc_shares_witness :
  exists betaPrm cB,
    bw_betaPrm bobWC_2_2 = Some betaPrm /\ bw_cB bobWC_2_2 = Some cB /\
    0 <= betaPrm < pkN pk15 /\
    13 = (2 * 2 + betaPrm) mod pkN pk15 /\
    6 = 13 mod q /\
    IsEncryption pk15 13 13 cB /\
    (2 * 2 + betaPrm < pkN pk15 ->
     (6 + (0 - betaPrm) mod q) mod q = (2 * 2) mod q).
Proof.
  apply (MtAwc_shares (paillier := paillier) (rps := rps)
           pk15 sk15 paillier15_laws recover15_laws q_is_7
           2 2 rA0 cA_2 (Some piA_2)
           (Some NTilde77) (Some h1_77) (Some h2_77)
           (Some NTilde77) (Some h1_77) (Some h2_77) (Some G2) tapeBob []).
  - exact cA_2_encrypts_2.
  - lia.
  - vm_compute. reflexivity.
  - reflexivity.
  - vm_compute. reflexivity.
Defined.

Lemma MtAwc_honest_run_accepted_witness :
  exists piB pb s1 tt1 betaPrm cB muRand,
    bw_piB bobWC_2_2 = Some piB /\ pf_ProofBob piB = Some pb /\
    pf_S1 pb = Some s1 /\ pf_T1 pb = Some tt1 /\
    bw_betaPrm bobWC_2_2 = Some betaPrm /\ bw_cB bobWC_2_2 = Some cB /\
    IsEncryption pk15 ((2 * 2 + betaPrm) mod pkN pk15) muRand cB /\
    AliceEndWC (Some pk15) (bw_piB bobWC_2_2) (Some (ScalarBaseMult 2)) (Some cA_2)
               (bw_cB bobWC_2_2) (Some NTilde77) (Some h1_77) (Some h2_77)
               (Some sk15)
    = if (s1 <=? q ^ 3) && (tt1 <=? q ^ 7)
      then Returned (Ok (((2 * 2 + betaPrm) mod pkN pk15) mod q,
                         (2 * 2 + betaPrm) mod pkN pk15, muRand))
      else Returned (Err "ProofBobWC.Verify() returned false"%string).
Proof.
  apply (MtAwc_honest_run_accepted (paillier := paillier) (rps := rps)
           pk15 sk15 paillier15_laws recover15_laws curve_laws
           rnd_laws hash_laws q_is_7
           2 2 rA0 cA_2 NTilde77 h1_77 h2_77 (Some piA_2)
           (Some NTilde77) (Some h1_77) (Some h2_77) tapeBob []).
  - exact cA_2_encrypts_2.
  - lia.
  - reflexivity.
  - reflexivity.
  - reflexivity.
  - vm_compute. reflexivity.
  - reflexivity.
Defined.

Lemma AliceEnd_returns_when_valid_witness :
  exists pb,
    pf_ProofBob pfWC = Some pb /\
    (exists r, AliceEnd (Some pk15) (Some pb) (Some h1_77) (Some h2_77)
                 (Some cA_4) (Some 14) (Some NTilde77) (Some sk15) = Returned r) /\
    (exists r, AliceEndWC (Some pk15) (Some pfWC) (Some X5) (Some cA_4) (Some 14)
                 (Some NTilde77) (Some h1_77) (Some h2_77) (Some sk15) = Returned r).
Proof.
  eexists. split; [reflexivity|].
  apply (AliceEnd_returns_when_valid (paillier := paillier)
           hash_laws q_is_7 (Some pk15) pfWC).
  - reflexivity.
  - reflexivity.
  - apply pfWC_fields_nonneg. reflexivity.
Defined.

Lemma committee_membership_by_key_witness :
  IsOldCommittee (Some reshare_2_to_2) = Returned true /\
  IsNewCommittee (Some reshare_2_to_2) = Returned true /\
  IsOldCommittee (Some reshare_anonymous) = Panicked /\
  IsNewCommittee (Some reshare_anonymous) = Returned false.
Proof.
  destruct (committee_membership_by_key reshare_2_to_2 _
              (mkPeerContext [alice; bob]) (mkPeerContext [bob; carol])
              eq_refl eq_refl eq_refl) as [H _].
  destruct (H bob eq_refl) as (HO & _ & HN & _).
  destruct (committee_membership_by_key reshare_anonymous _
              (mkPeerContext [alice; bob]) (mkPeerContext [])
              eq_refl eq_refl eq_refl) as [_ H'].
  destruct (H' eq_refl) as (_ & HP & HF & _).
  split; [|split; [|split]].
  - apply HO. exists bob. split; [right; left; reflexivity | reflexivity].
  - apply HN. exists bob. split; [left; reflexivity | reflexivity].
  - apply HP. discriminate.
  - apply HF. reflexivity.
Defined.

Lemma both_committees_listed_twice_witness :
  exists (p : Parameters) (me : PartyID) (u v w : list PartyID) (P P' : PartyID),
    Parameters_ reshare_2_to_2 = Some p /\ partyID p = Some me /\
    OldAndNewParties (Some reshare_2_to_2) = Returned (u ++ P :: v ++ P' :: w) /\
    Key P = Key me /\ Key P' = Key me.
Proof.
  apply (both_committees_listed_twice reshare_2_to_2); reflexivity.
Defined.

Lemma OldAndNewPartyCount_wraps_witness :
  exists rg ids k,
    NewReSharingParameters (Some (mkPeerContext [alice; bob]))
      (Some (mkPeerContext [bob; carol])) (Some bob) int_max 1 1 1
    = Returned (Some rg) /\
    OldAndNewParties (Some rg) = Returned ids /\
    List.length ids = (2 + 2)%nat /\
    OldAndNewPartyCount (Some rg) = Returned k /\
    in_int k /\
    (in_int (int_max + 1) -> k = int_max + 1) /\
    (int_max < int_max + 1 -> k = int_max + 1 - 2 ^ 64 /\ k < 0) /\
    (int_max + 1 < int_min -> k = int_max + 1 + 2 ^ 64 /\ 0 <= k) /\
    (int_max = 2 -> 1 = 2 -> in_int (int_max + 1) -> k = Z.of_nat (List.length ids)).
Proof.
  apply (OldAndNewPartyCount_wraps (mkPeerContext [alice; bob])
           (mkPeerContext [bob; carol]) (Some bob) int_max 1 1 1).
  - unfold in_int, int_min, int_max. lia.
  - unfold in_int, int_min, int_max. lia.
Defined.

End further_examples.
